(** * Article extraction service: orchestrator, browser capture, content
    selection and image engine

    A shallow embedding of the Go sources under [internal/scraper] and
    [internal/models], and of the Cloud Run handler that calls them, with the
    properties of the natural-language specification stated and settled
    against it, and further properties of the code (numbered X1, X2, ...).

    Conventions.  Go [int] and [time.Duration] values are modelled as [Z].
    Where the operands come from the page or from an extraction result and
    the exact result can leave the 64 bits (the area of an image, the
    composite score of a candidate), the wrap-around is written out with
    [Go.wrap]; elsewhere the operands are lengths, counts and durations, whose
    sums stay within range.  A [float64] is the rational number it denotes;
    the operations that round are parameters.  Go strings are [string] (byte
    strings), [len] is [String.length].  Functions of the Go standard library
    and of the [config] package, whose sources are not part of the repository
    tree, are Section variables or record fields: every theorem holds for any
    implementation of them. *)

From Stdlib Require Import ZArith String Ascii List Lia Bool QArith Qabs Permutation Sorted.
From stdpp Require Import gmap strings list fin_maps.
Import ListNotations.

Open Scope string_scope.
Open Scope Z_scope.

(** ** Go helpers *)

Module Go.

(** [len(s)] of a Go string, as an [int]. *)
Definition len (s : string) : Z := Z.of_nat (String.length s).

(** [strings.HasPrefix]. *)
Fixpoint HasPrefix (s prefix : string) : bool :=
  match prefix, s with
  | EmptyString, _ => true
  | String p prefix', String c s' => Ascii.eqb c p && HasPrefix s' prefix'
  | String _ _, EmptyString => false
  end.

(** [strings.Contains]: [substr] occurs somewhere in [s]. *)
Fixpoint Contains (s substr : string) : bool :=
  HasPrefix s substr ||
  match s with
  | EmptyString => false
  | String _ s' => Contains s' substr
  end.

(** The largest [int] (64 bits), and the value of an [int] expression
    whose exact result is [n]: the arithmetic of [int] wraps around. *)
Definition maxInt : Z := 2 ^ 63 - 1.

Definition wrap (n : Z) : Z := (n + 2 ^ 63) mod 2 ^ 64 - 2 ^ 63.

(** A value or an error, for Go's [(T, error)] results. *)
Inductive result (T E : Type) : Type :=
| Ok (v : T)
| Err (e : E).
Arguments Ok {T E} v.
Arguments Err {T E} e.

End Go.

(** ** Browser tier: snapshots and the best-snapshot selection *)

Module Browser.

(** [HTMLSnapshot]; [Timestamp] in nanoseconds. *)
Record HTMLSnapshot : Type := mkSnapshot {
  HTML : string;
  URL : string;
  Timestamp : Z;
  Stage : string;
  Length : Z
}.

(** The [stagePriority] map literal of [getBestHTML]. *)
Definition stagePriority : gmap string Z :=
  list_to_map
    [ ("stable", 6); ("stable-timeout", 5); ("stable-interrupted", 4);
      ("after-scroll", 3); ("after-consent", 2); ("periodic", 1);
      ("initial", 0); ("minimal", 0); ("minimal-fallback", -1);
      ("js-fetch-fallback", -2); ("fallback", -1); ("final", -1);
      ("final-fallback", -2); ("stability-check", 0) ].

(** [stagePriority[stage]]: a missing key reads as the zero value. *)
Definition priorityOf (stage : string) : Z := default 0 (stagePriority !! stage).

Section BestHTML.

(** [strings.ToLower] and [regexes["appError"].MatchString]. *)
Variable ToLower : string -> string.
Variable appErrorMatch : string -> bool.

Definition LooksLikeApplicationError (html : string) : bool :=
  appErrorMatch (ToLower html).

(** The [continue] test of the loop: an application-error page that is
    also short. *)
Definition skipped (snap : HTMLSnapshot) : bool :=
  LooksLikeApplicationError (HTML snap) && (Length snap <? 1000).

(** One iteration of the loop of [getBestHTML] over the pair
    [(best, bestPriority)]. *)
Definition bestStep (acc : option HTMLSnapshot * Z) (snap : HTMLSnapshot)
  : option HTMLSnapshot * Z :=
  let '(best, bestPriority) := acc in
  let priority := priorityOf (Stage snap) in
  if skipped snap then acc
  else if bestPriority <? priority then (Some snap, priority)
  else if priority =? bestPriority then
    match best with
    | Some b => if Length b <? Length snap then (Some snap, bestPriority) else acc
    | None => acc
    end
  else acc.

Definition getBestHTML (snapshots : list HTMLSnapshot) : option HTMLSnapshot :=
  match snapshots with
  | [] => None
  | _ => fst (fold_left bestStep snapshots (None, -1))
  end.

(** The stage order as the specification words it: one rank for
    periodic and initial, one rank below it for the minimal and fallback
    variants.  Used only to compare the specification with [priorityOf]. *)
Definition specStageRank (stage : string) : Z :=
  if String.eqb stage "stable" then 6
  else if String.eqb stage "stable-timeout" then 5
  else if String.eqb stage "stable-interrupted" then 4
  else if String.eqb stage "after-scroll" then 3
  else if String.eqb stage "after-consent" then 2
  else if String.eqb stage "periodic" || String.eqb stage "initial" then 1
  else 0.

(** The selection policy as the specification states it, for a list
    [snapshots] and the answer [r] of the selection: some snapshot is
    returned, it is not an excluded one, no admitted snapshot has a higher
    rank, and none of the same rank is longer. *)
Definition specBestSnapshot (snapshots : list HTMLSnapshot)
    (r : option HTMLSnapshot) : Prop :=
  exists s, r = Some s /\ In s snapshots /\ skipped s = false /\
    forall t, In t snapshots -> skipped t = false ->
      specStageRank (Stage t) <= specStageRank (Stage s) /\
      (specStageRank (Stage t) = specStageRank (Stage s) -> Length t <= Length s).

(** Loop invariant of [getBestHTML]: after the snapshots [seen], either
    nothing was chosen yet, [bestPriority] is still -1 and no admitted
    snapshot has a priority above it, or the chosen one is an admitted
    snapshot of [seen] of the largest priority, and the longest of those. *)
Definition bestInv (seen : list HTMLSnapshot) (acc : option HTMLSnapshot * Z)
  : Prop :=
  match acc with
  | (None, p) =>
      p = -1 /\
      forall t, In t seen -> skipped t = false -> priorityOf (Stage t) <= -1
  | (Some b, p) =>
      p = priorityOf (Stage b) /\ 0 <= p /\ In b seen /\ skipped b = false /\
      forall t, In t seen -> skipped t = false ->
        priorityOf (Stage t) <= p /\
        (priorityOf (Stage t) = p -> Length t <= Length b)
  end.

End BestHTML.

End Browser.

(** ** Sample instances of the library functions, for the examples *)

Module Samples.

(** [strings.ToLower] on ASCII text. *)
Definition lowerAscii (c : ascii) : ascii :=
  let n := nat_of_ascii c in
  if (Nat.leb 65 n && Nat.leb n 90)%bool then ascii_of_nat (n + 32) else c.

Fixpoint ToLower (s : string) : string :=
  match s with
  | EmptyString => EmptyString
  | String c s' => String (lowerAscii c) (ToLower s')
  end.

(** An application-error pattern: the page says "application error". *)
Definition appErrorMatch (html : string) : bool :=
  Go.Contains html "application error".

(** A snapshot of [html] taken at [stage]; the pages below carry no outer
    white space, so the trimmed length is the length. *)
Definition snapshotOf (stage html : string) : Browser.HTMLSnapshot :=
  Browser.mkSnapshot html "https://example.com/a" 0 stage (Go.len html).

Definition snapInitial : Browser.HTMLSnapshot :=
  snapshotOf "initial" "<html><body><p>first capture, the longer page</p></body></html>".
Definition snapPeriodic : Browser.HTMLSnapshot :=
  snapshotOf "periodic" "<html><body><p>periodic</p></body></html>".
Definition snapError : Browser.HTMLSnapshot :=
  snapshotOf "stable" "<html><body>Application Error</body></html>".
Definition snapFallback : Browser.HTMLSnapshot :=
  snapshotOf "fallback" "<html><body><p>page read after a failed capture</p></body></html>".

End Samples.

(** ** Data model of [internal/models] *)

Module Models.

Record Quality : Type := mkQuality {
  Score : Z;
  TextToHTMLRatio : Q;
  ParagraphCount : Z;
  AvgParagraphLength : Z;
  HasHeaders : bool;
  LinkDensity : Q;
  WordCount : Z
}.

Record Image : Type := mkImage {
  ImageURL : string;
  ImageAlt : string
}.

Record Video : Type := mkVideo {
  VideoURL : string;
  Provider : string;
  VideoType : string;
  VideoTitle : string
}.

Record Metadata : Type := mkMetadata {
  MetaURL : string;
  ScrapedAt : Z;
  DurationMs : Z
}.

Record ScrapeResponse : Type := mkResponse {
  Title : string;
  Description : string;
  Content : string;
  Images : list Image;
  Videos : list Video;
  ResponseMetadata : Metadata;
  Author : string;
  PublishDate : string;
  Excerpt : string;
  ReadingTime : Z;
  Language : string;
  TextLength : Z;
  ResponseQuality : Quality
}.

(** Zero values. *)
Definition zeroQuality : Quality := mkQuality 0 0%Q 0 0 false 0%Q 0.
Definition zeroMetadata : Metadata := mkMetadata "" 0 0.
Definition zeroResponse : ScrapeResponse :=
  mkResponse "" "" "" [] [] zeroMetadata "" "" "" 0 "" 0 zeroQuality.

(** [ImageCandidate].  [CandScore] is a [float64] in the source; every value
    the scorer produces is a sum of 2.0, 1.5, 1.0 and a small integer, so it
    is kept as an exact rational. *)
Record ImageCandidate : Type := mkCandidate {
  CandURL : string;
  CandAlt : string;
  Width : Z;
  Height : Z;
  InArticle : bool;
  BadHint : bool;
  Source : string;
  CandScore : Q;
  Area : Z
}.

End Models.

(** ** Content strategy selection *)

Module Extractor.
Import Models.

Record extractionResultWithStrategy : Type := mkBest {
  Result : ScrapeResponse;
  Strategy : string
}.

(** The zero value of [extractionResultWithStrategy] ([var best]). *)
Definition zeroBest : extractionResultWithStrategy := mkBest zeroResponse "".

(** [strategy := "unknown"; if i < len(strategies) { strategy = strategies[i] }]. *)
Definition strategyAt (strategies : list string) (i : nat) : string :=
  default "unknown" (strategies !! i).

(** The composite score of one candidate, given the best score so far.
    The sums are sums of [int]: they wrap around. *)
Definition compositeScore (result : ScrapeResponse) (strategy : string)
    (bestScore : Z) : Z :=
  let score := Score (ResponseQuality result) in
  let score :=
    if (0 <? Go.len (Title result)) && (0 <? Go.len (Content result))
    then Go.wrap (score + 20) else score in
  let contentBonus := Z.quot (Go.len (Content result)) 100 in
  let contentBonus := if 50 <? contentBonus then 50 else contentBonus in
  let score := Go.wrap (score + contentBonus) in
  if String.eqb strategy "readability" && (Go.wrap (bestScore - 10) <=? score)
     && (0 <? Go.len (Content result))
  then Go.wrap (score + 5) else score.

(** The loop of [selectBestResult] from index [i] on. *)
Fixpoint selectLoop (strategies : list string) (i : nat)
    (results : list ScrapeResponse)
    (best : extractionResultWithStrategy) (bestScore : Z)
  : extractionResultWithStrategy * Z :=
  match results with
  | [] => (best, bestScore)
  | result :: rest =>
      let strategy := strategyAt strategies i in
      let score := compositeScore result strategy bestScore in
      if (bestScore <? score) ||
         ((score =? bestScore) &&
          (Go.len (Content (Result best)) <? Go.len (Content result)))
      then selectLoop strategies (S i) rest (mkBest result strategy) score
      else selectLoop strategies (S i) rest best bestScore
  end.

Definition selectBestResult (results : list ScrapeResponse)
    (strategies : list string) : extractionResultWithStrategy :=
  match results with
  | [] => mkBest zeroResponse "none"
  | _ => fst (selectLoop strategies 0 results zeroBest (-1))
  end.

(** The composite scores in the order the loop computes them: the score of
    candidate [i] is taken against the best score of the candidates before
    it. *)
Fixpoint runningScores (strategies : list string) (i : nat)
    (results : list ScrapeResponse) (bestScore : Z) : list Z :=
  match results with
  | [] => []
  | result :: rest =>
      let score := compositeScore result (strategyAt strategies i) bestScore in
      score :: runningScores strategies (S i) rest (Z.max bestScore score)
  end.

(** The composite score as the specification words it: the readability
    bonus is granted whenever the score is within 10 points of the leader,
    with no further condition. *)
Definition specCompositeScore (result : ScrapeResponse) (strategy : string)
    (bestScore : Z) : Z :=
  let score := Score (ResponseQuality result) in
  let score :=
    if (0 <? Go.len (Title result)) && (0 <? Go.len (Content result))
    then score + 20 else score in
  let score := score + Z.min 50 (Z.quot (Go.len (Content result)) 100) in
  if String.eqb strategy "readability" && (bestScore - 10 <=? score)
  then score + 5 else score.

(** The selection loop run with [specCompositeScore]. *)
Fixpoint specSelectLoop (strategies : list string) (i : nat)
    (results : list ScrapeResponse)
    (best : extractionResultWithStrategy) (bestScore : Z)
  : extractionResultWithStrategy * Z :=
  match results with
  | [] => (best, bestScore)
  | result :: rest =>
      let strategy := strategyAt strategies i in
      let score := specCompositeScore result strategy bestScore in
      if (bestScore <? score) ||
         ((score =? bestScore) &&
          (Go.len (Content (Result best)) <? Go.len (Content result)))
      then specSelectLoop strategies (S i) rest (mkBest result strategy) score
      else specSelectLoop strategies (S i) rest best bestScore
  end.

(** No candidate beats the pair (score [c], content length [n]): each
    running score is at most [c], and a candidate that reaches [c] has a
    content of at most [n] bytes. *)
Definition dominated (results : list ScrapeResponse) (scores : list Z)
    (c n : Z) : Prop :=
  forall (j : nat) cj rj, scores !! j = Some cj -> results !! j = Some rj ->
    cj <= c /\ (cj = c -> Go.len (Content rj) <= n).

(** Sample candidates: a structured-data result and a readability result,
    both with a title and no content. *)
Definition withQuality (score : Z) : Quality := mkQuality score 0%Q 0 0 false 0%Q 0.
Definition candidateOf (title content : string) (score : Z) : ScrapeResponse :=
  mkResponse title "" content [] [] zeroMetadata "" "" "" 0 "" 0 (withQuality score).
Definition sampleJSONLD : ScrapeResponse := candidateOf "Headline" "" 20.
Definition sampleReadability : ScrapeResponse := candidateOf "Headline" "" 16.
Definition sampleSimple : ScrapeResponse :=
  candidateOf "Headline" "Body text of the page, taken verbatim." 12.

End Extractor.

(** ** Library functions the image engine and the orchestrator call *)

Module Lib.

(** [strconv.Atoi]: an optional sign and decimal digits, within 64 bits. *)
Definition digitVal (c : ascii) : option Z :=
  let n := Z.of_nat (nat_of_ascii c) in
  if (48 <=? n) && (n <=? 57) then Some (n - 48) else None.

Fixpoint parseDigits (s : string) (acc : Z) : option Z :=
  match s with
  | EmptyString => Some acc
  | String c s' =>
      match digitVal c with
      | Some d => parseDigits s' (acc * 10 + d)
      | None => None
      end
  end.

Definition Atoi (s : string) : option Z :=
  let '(neg, body) :=
    match s with
    | String "+"%char r => (false, r)
    | String "-"%char r => (true, r)
    | _ => (false, s)
    end in
  match body with
  | EmptyString => None
  | _ =>
      match parseDigits body 0 with
      | Some n =>
          let v := if neg then - n else n in
          if (- 2 ^ 63 <=? v) && (v <=? 2 ^ 63 - 1) then Some v else None
      | None => None
      end
  end.

(** [int(f)] for a float: truncation toward zero. *)
Definition truncate (q : Q) : Z := Z.quot (Qnum q) (Z.pos (Qden q)).

(** [url.URL]. *)
Record URL : Type := mkURL {
  Scheme : string;
  Opaque : string;
  User : string;
  Host : string;
  Path : string;
  RawPath : string;
  OmitHost : bool;
  ForceQuery : bool;
  RawQuery : string;
  Fragment : string;
  RawFragment : string
}.

(** [parsed.RawQuery = ""]. *)
Definition clearRawQuery (u : URL) : URL :=
  mkURL (Scheme u) (Opaque u) (User u) (Host u) (Path u) (RawPath u)
        (OmitHost u) (ForceQuery u) "" (Fragment u) (RawFragment u).

(** The functions of the Go standard library that the modelled code calls
    and that are not re-implemented here: [strings.TrimSpace],
    [strings.ToLower], [strconv.ParseFloat] (its finite results),
    [url.Parse] and the methods [String], [ResolveReference] and
    [Hostname] of a parsed URL. *)
Record GoLib : Type := mkLib {
  TrimSpace : string -> string;
  ToLower : string -> string;
  ParseFloat : string -> option Q;
  url_Parse : string -> Go.result URL string;
  url_String : URL -> string;
  url_ResolveReference : URL -> URL -> URL;
  url_Hostname : URL -> string
}.

End Lib.

(** ** Image engine: configuration, filters, scoring, ranking *)

Module Images.
Import Models.

(** [config.ImageConfig]; [AdSizes w h] stands for the lookup
    [AdSizes[fmt.Sprintf("%dx%d", w, h)]]. *)
Record ImageConfig : Type := mkImageConfig {
  MinShortSide : Z;
  MinArea : Z;
  MinAspect : Q;
  MaxAspect : Q;
  RatioWhitelist : list Q;
  RatioTol : Q;
  AdSizes : Z -> Z -> bool
}.

(** The compiled patterns of [config.CompileRegexes] that the engine uses.
    [MatchString] patterns are predicates; for the patterns used with
    [FindStringSubmatch] the function returns the capture groups of the
    first match. *)
Record Regexes : Type := mkRegexes {
  imageExt : string -> bool;
  badHint : string -> bool;
  widthStyle : string -> option string;
  heightStyle : string -> option string;
  dimensionsFromUrl : string -> option (string * string);
  widthFromUrl : string -> option string;
  heightFromUrl : string -> option string;
  srcsetItem : string -> option (string * string)
}.

(** The [float64] arithmetic of the scoring.  A finite [float64] is taken as
    the rational number it denotes: comparisons, negation and the sums of the
    score (small multiples of 0.5) are exact.  The operations that round come
    with the extractor: [ofInt n] is [float64(n)], [quo x y] is [x / y] and
    [sub x y] is [x - y]. *)
Record Float64 : Type := mkFloat64 {
  ofInt : Z -> Q;
  quo : Q -> Q -> Q;
  sub : Q -> Q -> Q
}.

(** The extractor: its two fields, and the [float64] arithmetic it runs
    on. *)
Record ImageExtractor : Type := mkImageExtractor {
  config : ImageConfig;
  regexes : Regexes;
  floats : Float64
}.

Section Candidates.

Variable ie : ImageExtractor.

Definition isAdSize (width height : Z) : bool :=
  if (width =? 0) || (height =? 0) then false
  else AdSizes (config ie) width height.

Definition passesBasicFilters (c : ImageCandidate) : bool :=
  if (0 <? Width c) && (0 <? Height c) then
    if Width c <=? Height c then false
    else if Width c <? 600 then false
    else
      let shortSide := Z.min (Width c) (Height c) in
      if shortSide <? 100 then false
      else if isAdSize (Width c) (Height c) then false
      else if BadHint c && (shortSide <? 200) then false
      else true
  else
    if BadHint c then false else true.

(** [abs] and [max] on [float64]. *)
Definition abs (x : Q) : Q := if negb (Qle_bool 0 x) then (- x)%Q else x.

Definition max (a b : Q) : Q := if negb (Qle_bool a b) then a else b.

(** [log10]: the number of divisions by 10 until the value drops below 10.
    A [float64] is below 2^1024, so the loop of the source makes fewer than
    309 divisions. *)
Fixpoint log10Loop (fuel : nat) (x : Q) (count : Z) : Z :=
  match fuel with
  | O => count
  | S fuel' =>
      if Qle_bool 10 x then log10Loop fuel' (quo (floats ie) x 10) (count + 1)
      else count
  end.

Definition log10 (x : Q) : Q :=
  if Qle_bool x 0 then 0%Q else inject_Z (log10Loop 309 x 0).

(** The aspect-ratio bonus test: some whitelisted ratio is within the
    tolerance of [float64(width) / float64(height)]. *)
Definition ratioWhitelisted (width height : Z) : bool :=
  let aspect := quo (floats ie) (ofInt (floats ie) width) (ofInt (floats ie) height) in
  existsb (fun ratio => Qle_bool (abs (sub (floats ie) aspect ratio))
                                 (RatioTol (config ie)))
          (RatioWhitelist (config ie)).

(** The product [c.Width * c.Height] of two [int]. *)
Definition intArea (c : ImageCandidate) : Z := Go.wrap (Width c * Height c).

Definition calculateScore (c : ImageCandidate) : Q :=
  let score := 0%Q in
  let area := ofInt (floats ie) (intArea c) in
  let score := if InArticle c then (score + 2)%Q else score in
  let score :=
    if String.eqb (Source c) "og" || String.eqb (Source c) "jsonld"
    then (score + (3 # 2))%Q else score in
  let score :=
    if (0 <? Width c) && (0 <? Height c) && ratioWhitelisted (Width c) (Height c)
    then (score + 1)%Q else score in
  if negb (Qle_bool area 0) then (score + log10 (max 1 area))%Q else score.

(** [c.Score = ...; c.Area = ...] on the loop's copy of the candidate. *)
Definition scored (c : ImageCandidate) : ImageCandidate :=
  mkCandidate (CandURL c) (CandAlt c) (Width c) (Height c) (InArticle c)
    (BadHint c) (Source c) (calculateScore c) (intArea c).

Fixpoint filterArticleImages (candidates : list ImageCandidate)
  : list ImageCandidate :=
  match candidates with
  | [] => []
  | c :: rest =>
      if negb (InArticle c) then filterArticleImages rest
      else if negb (passesBasicFilters c) then filterArticleImages rest
      else scored c :: filterArticleImages rest
  end.

End Candidates.

(** The swap test of [sortCandidates]. *)
Definition outOfOrder (a b : ImageCandidate) : bool :=
  match (CandScore a ?= CandScore b)%Q with
  | Lt => true
  | Eq => Area a <? Area b
  | Gt => false
  end.

(** The inner loop of the bubble sort: [k] comparisons of neighbours, from
    the front. *)
Fixpoint bubblePass (k : nat) (l : list ImageCandidate) : list ImageCandidate :=
  match k, l with
  | S k', a :: b :: rest =>
      if outOfOrder a b then b :: bubblePass k' (a :: rest)
      else a :: bubblePass k' (b :: rest)
  | _, _ => l
  end.

(** The outer loop: the pass of iteration [i] makes [n - i - 1]
    comparisons; [todo] is that number, from [n - 1] down to 1. *)
Fixpoint bubbleLoop (todo : nat) (l : list ImageCandidate) : list ImageCandidate :=
  match todo with
  | O => l
  | S todo' => bubbleLoop todo' (bubblePass todo l)
  end.

Definition sortCandidates (candidates : list ImageCandidate) : list ImageCandidate :=
  bubbleLoop (length candidates - 1) candidates.

(** One iteration of the first loop of [getTopImages] over the pair
    [(urlToImage, orderedURLs)]. *)
Definition topStep (acc : gmap string Image * list string) (c : ImageCandidate)
  : gmap string Image * list string :=
  let '(urlToImage, orderedURLs) := acc in
  match urlToImage !! CandURL c with
  | None =>
      (<[CandURL c := mkImage (CandURL c) (CandAlt c)]> urlToImage,
       (orderedURLs ++ [CandURL c])%list)
  | Some img =>
      if String.eqb (ImageAlt img) "" && negb (String.eqb (CandAlt c) "")
      then (<[CandURL c := mkImage (ImageURL img) (CandAlt c)]> urlToImage,
            orderedURLs)
      else acc
  end.

Definition getTopImages (candidates : list ImageCandidate) (limit : Z)
  : list Image :=
  let '(urlToImage, orderedURLs) := fold_left topStep candidates (∅, []) in
  map (fun url => default (mkImage "" "") (urlToImage !! url))
      (take (Z.to_nat limit) orderedURLs).

(** The alt text of the first candidate with URL [url] whose alt text is not
    empty; empty when there is none. *)
Fixpoint firstAlt (url : string) (candidates : list ImageCandidate) : string :=
  match candidates with
  | [] => ""
  | c :: rest =>
      if String.eqb (CandURL c) url && negb (String.eqb (CandAlt c) "")
      then CandAlt c else firstAlt url rest
  end.

End Images.

(** Loop invariant of the first loop of [getTopImages], after the candidates
    [seen]: [orderedURLs] lists the URLs of [seen] once each, and the map holds
    for each of them the image with the first non-empty alt text. *)
Definition topInv (seen : list Models.ImageCandidate)
    (acc : gmap string Models.Image * list string) : Prop :=
  let '(urlToImage, orderedURLs) := acc in
  NoDup orderedURLs /\
  (forall u, u ∈ orderedURLs <-> exists c, c ∈ seen /\ Models.CandURL c = u) /\
  (forall u, u ∈ orderedURLs ->
     urlToImage !! u = Some (Models.mkImage u (Images.firstAlt u seen))) /\
  (forall u, u ∉ orderedURLs -> urlToImage !! u = None).

(** ** Parsed documents and the selectors the engine uses *)

Module Dom.

(** A parsed HTML node: an element with its attributes and children, or a
    text node.  Tag and attribute names are lower-case, as the parser
    produces them. *)
#[warnings="-register-all"] Inductive Node : Type :=
| Element (tag : string) (attrs : list (string * string)) (children : list Node)
| Text (data : string).

(** A parsed document: the children of the document node. *)
Definition Document : Type := list Node.

(** A selection of one element: the element and its ancestors, nearest
    first ([s.Parents()]). *)
Record Selection : Type := mkSel {
  node : Node;
  parents : list Node
}.

(** [goquery.NodeName]. *)
Definition NodeName (n : Node) : string :=
  match n with
  | Element tag _ _ => tag
  | Text _ => "#text"
  end.

Definition childrenOf (n : Node) : list Node :=
  match n with
  | Element _ _ children => children
  | Text _ => []
  end.

Fixpoint lookupAttr (attrs : list (string * string)) (name : string)
  : option string :=
  match attrs with
  | [] => None
  | (k, v) :: rest => if String.eqb k name then Some v else lookupAttr rest name
  end.

(** [s.Attr(name)]: the value, when the attribute exists. *)
Definition Attr (n : Node) (name : string) : option string :=
  match n with
  | Element _ attrs _ => lookupAttr attrs name
  | Text _ => None
  end.

(** [v, _ := s.Attr(name)]. *)
Definition AttrOr (n : Node) (name : string) : string :=
  default "" (Attr n name).

(** The elements of the subtree of [n], in document order, each with its
    ancestors. *)
Fixpoint descend (ancestors : list Node) (n : Node) : list Selection :=
  match n with
  | Text _ => []
  | Element _ _ children =>
      mkSel n ancestors :: flat_map (descend (n :: ancestors)) children
  end.

(** The elements below [s], in document order. *)
Definition descendants (s : Selection) : list Selection :=
  flat_map (descend (node s :: parents s)) (childrenOf (node s)).

(** All elements of a document, in document order. *)
Definition elements (doc : Document) : list Selection :=
  flat_map (descend []) doc.

(** [s.Parents()] as selections: [parents.Eq(i)] is the [i]-th one. *)
Fixpoint ancestorSelections (ancestors : list Node) : list Selection :=
  match ancestors with
  | [] => []
  | p :: rest => mkSel p rest :: ancestorSelections rest
  end.

(** White-space separated tokens of an attribute value. *)
Definition isSpace (c : ascii) : bool :=
  let n := nat_of_ascii c in
  (Nat.eqb n 32 || Nat.eqb n 9 || Nat.eqb n 10 || Nat.eqb n 12 || Nat.eqb n 13)%bool.

Fixpoint fieldsFrom (s : string) (current : string) : list string :=
  match s with
  | EmptyString => if String.eqb current "" then [] else [current]
  | String c s' =>
      if isSpace c
      then (if String.eqb current "" then fieldsFrom s' ""
            else current :: fieldsFrom s' "")
      else fieldsFrom s' (current ++ String c EmptyString)%string
  end.

Definition fields (s : string) : list string := fieldsFrom s "".

(** The compound selectors that occur in the engine. *)
Inductive Simple : Type :=
| Tag (tag : string)
| Class (class : string)
| Id (id : string)
| AttrEq (name value : string)
| AttrSub (name value : string)
| TagAttrEq (tag name value : string)
| TagClass (tag class : string).

(** A compound selector, alone or below an ancestor ([a b]). *)
Inductive Selector : Type :=
| Just (s : Simple)
| Below (ancestor : Simple) (s : Simple).

Definition hasClass (n : Node) (class : string) : bool :=
  match Attr n "class" with
  | Some v => existsb (String.eqb class) (fields v)
  | None => false
  end.

Definition matchesSimple (sel : Simple) (n : Node) : bool :=
  match n with
  | Text _ => false
  | Element tag _ _ =>
      match sel with
      | Tag t => String.eqb tag t
      | Class c => hasClass n c
      | Id i => match Attr n "id" with Some v => String.eqb v i | None => false end
      | AttrEq name value =>
          match Attr n name with Some v => String.eqb v value | None => false end
      | AttrSub name value =>
          match Attr n name with Some v => Go.Contains v value | None => false end
      | TagAttrEq t name value =>
          String.eqb tag t &&
          match Attr n name with Some v => String.eqb v value | None => false end
      | TagClass t c => String.eqb tag t && hasClass n c
      end
  end.

Definition matches (sel : Selector) (s : Selection) : bool :=
  match sel with
  | Just simple => matchesSimple simple (node s)
  | Below ancestor simple =>
      matchesSimple simple (node s) && existsb (matchesSimple ancestor) (parents s)
  end.

(** A selector group ([a, b, c]). *)
Definition matchesAny (sels : list Selector) (s : Selection) : bool :=
  existsb (fun sel => matches sel s) sels.

(** [s.Find(selector)] and [doc.Find(selector)]. *)
Definition Find (sels : list Selector) (s : Selection) : list Selection :=
  List.filter (matchesAny sels) (descendants s).

Definition FindDoc (sels : list Selector) (doc : Document) : list Selection :=
  List.filter (matchesAny sels) (elements doc).

(** [Find(selector).Remove()] for a test [p] that reads only the element
    and the tags and attributes of its ancestors: every element that passes
    [p] goes, with its subtree. *)
Fixpoint removeWhere (p : Selection -> bool) (ancestors : list Node) (n : Node)
  : Node :=
  match n with
  | Text _ => n
  | Element tag attrs children =>
      Element tag attrs
        (flat_map (fun c => if p (mkSel c (n :: ancestors)) then []
                            else [removeWhere p (n :: ancestors) c])
                  children)
  end.

Definition removeAll (p : Selection -> bool) (doc : Document) : Document :=
  flat_map (fun c => if p (mkSel c []) then [] else [removeWhere p [] c]) doc.

End Dom.

(** ** Image engine: from the parsed document to the image list *)

Module Engine.
Import Models Images Dom.

(** What the engine takes from packages outside the modelled sources: the
    HTML renderer behind [s.Html()], and the two JSON-LD readers
    ([ExtractJSONLDImage]; the headline and the [found] flag of
    [ExtractJSONLD], which rest on [encoding/json]). *)
Record Readers : Type := mkReaders {
  renderChildren : list Node -> string;
  ExtractJSONLDImage : Document -> string;
  ExtractJSONLD : Document -> string * bool
}.

(** The three extraction passes that feed the channel. *)
Inductive Pass : Type := OgPass | JSONLDPass | ImgPass.

(** Table of [preprocessHTML]. *)
Definition preprocessSelectors : list Selector :=
  [ Just (Tag "aside"); Just (Class "sidebar"); Just (Class "right-rail");
    Just (Class "side-bar"); Just (Class "related-posts");
    Just (Class "related-articles"); Just (Class "recommended-posts");
    Just (Class "popular-posts"); Just (AttrSub "class" "sidebar");
    Just (AttrSub "id" "sidebar"); Just (AttrSub "class" "related");
    Just (AttrSub "id" "related"); Just (AttrSub "class" "popular");
    Just (AttrSub "id" "popular"); Just (Tag "nav"); Just (Tag "footer");
    Just (Class "lg:col-span-1") ].

(** ["article, main"]. *)
Definition articleOrMain : list Selector := [Just (Tag "article"); Just (Tag "main")].

(** ["[class*='widget'], [id*='widget']"]. *)
Definition widgetMarked : list Selector :=
  [Just (AttrSub "class" "widget"); Just (AttrSub "id" "widget")].

(** The selector list of [extractArticleImgTags]. *)
Definition articleContainers : list Selector :=
  [ Below (Tag "main") (Tag "article");
    Below (Tag "article") (Class "article-body");
    Below (Tag "article") (Id "article-body");
    Just (TagAttrEq "section" "itemprop" "articleBody");
    Just (AttrEq "itemprop" "articleBody") ].

(** The selector list of [isInArticleScope]. *)
Definition articleScope : list Selector :=
  [ Just (Tag "article"); Just (Tag "main");
    Just (TagAttrEq "section" "itemprop" "articleBody");
    Just (AttrEq "itemprop" "articleBody");
    Just (TagClass "section" "article-body");
    Just (Id "article-body") ].

(** Table of [isExcludedSection]. *)
Definition exclusionPatterns : list string :=
  [ "sidebar"; "side-bar"; "side_bar";
    "related"; "related-posts"; "related-articles"; "related-content";
    "related-stories";
    "featured"; "featured-posts"; "featured-articles"; "featured-content";
    "featured-stories";
    "popular"; "trending"; "most-read"; "most-popular";
    "recommended"; "recommendation"; "you-may-like";
    "widget"; "banner";
    "advertisement"; "ad-"; "advert";
    "navigation"; "nav-"; "navbar";
    "menu"; "footer"; "header"; "carousel"; "slider"; "gallery"; "aside";
    "promo"; "promotion"; "sponsored";
    "more-stories"; "more-articles"; "more-news";
    "latest-posts"; "latest-articles"; "latest-news"; "latest-stories";
    "recent-posts"; "recent-articles"; "recent-news";
    "top-stories"; "top-posts";
    "highlights"; "must-read"; "dont-miss";
    "editor-pick"; "editor-choice";
    "read-more"; "read-next";
    "story-list"; "post-list";
    "grid-items"; "list-items" ].

(** [strings.Split(s, ",")]. *)
Fixpoint splitFrom (s : string) (current : string) : list string :=
  match s with
  | EmptyString => [current]
  | String c s' =>
      if Ascii.eqb c ","%char then current :: splitFrom s' ""
      else splitFrom s' (current ++ String c EmptyString)%string
  end.

Definition splitComma (s : string) : list string := splitFrom s "".

(** A frame of the walk of the widget pass: the element being walked
    through, its children already dealt with, and those still to come. *)
Record Frame : Type := mkFrame {
  frameTag : string;
  frameAttrs : list (string * string);
  before : list Node;
  after : list Node
}.

(** The ancestors of [n] in the document as it stands during the walk. *)
Fixpoint rebuild (n : Node) (ctx : list Frame) : list Node :=
  match ctx with
  | [] => []
  | f :: ctx' =>
      let p := Element (frameTag f) (frameAttrs f) (before f ++ n :: after f)%list in
      p :: rebuild p ctx'
  end.

Section Engine.

Variable L : Lib.GoLib.
Variable ie : ImageExtractor.
Variable R : Readers.

Definition isExcludedSection (s : Selection) : bool :=
  let classes := AttrOr (node s) "class" in
  let id := AttrOr (node s) "id" in
  let dataAttrs :=
    fold_left
      (fun acc attr =>
         match Attr (node s) attr with
         | Some val => (acc ++ val ++ " ")%string
         | None => acc
         end)
      ["data-widget"; "data-component"; "data-type"; "data-section"] "" in
  let combined := Lib.ToLower L (classes ++ " " ++ id ++ " " ++ dataAttrs)%string in
  existsb (fun pattern => Go.Contains combined pattern) exclusionPatterns.

(** The width attribute of an image, when [strconv.Atoi] reads it. *)
Definition widthAttr (img : Selection) : option Z :=
  match Attr (node img) "width" with
  | Some width => Lib.Atoi width
  | None => None
  end.

(** The inline-style width of an image is above 400. *)
Definition styleWidthLarge (img : Selection) : bool :=
  match Attr (node img) "style" with
  | Some style =>
      match widthStyle (regexes ie) style with
      | Some group =>
          match Lib.ParseFloat L group with
          | Some w => negb (Qle_bool w 400)
          | None => false
          end
      | None => false
      end
  | None => false
  end.

(** The body of the [Each] over the images of a container, on the pair
    [(hasLargeImage, smallImageCount)]. *)
Definition sizeStep (acc : bool * Z) (img : Selection) : bool * Z :=
  let '(hasLargeImage, smallImageCount) := acc in
  let '(hasLargeImage, smallImageCount) :=
    match widthAttr img with
    | Some w =>
        if 400 <? w then (true, smallImageCount)
        else if 0 <? w then (hasLargeImage, smallImageCount + 1)
        else (hasLargeImage, smallImageCount)
    | None => (hasLargeImage, smallImageCount)
    end in
  if negb hasLargeImage && styleWidthLarge img
  then (true, smallImageCount)
  else (hasLargeImage, smallImageCount).

Definition linkCount (parent : Selection) : Z :=
  Z.of_nat (length (Find [Just (Tag "a")] parent)).

Definition imgCount (parent : Selection) : Z :=
  Z.of_nat (length (Find [Just (Tag "img")] parent)).

Definition isListTag (parent : Selection) : bool :=
  let tagName := NodeName (node parent) in
  String.eqb tagName "ul" || String.eqb tagName "ol" || String.eqb tagName "nav".

(** One iteration of the loop of [isInLinkList]: does this ancestor make
    the function return [true]? *)
Definition linkListContainer (parent : Selection) : bool :=
  if (3 <=? linkCount parent) && (2 <=? imgCount parent) then
    if isListTag parent then true
    else
      let '(hasLargeImage, smallImageCount) :=
        fold_left sizeStep (Find [Just (Tag "img")] parent) (false, 0) in
      negb hasLargeImage && (2 <=? smallImageCount) && (6 <=? linkCount parent)
  else false.

Definition isInLinkList (s : Selection) : bool :=
  existsb linkListContainer (take 5 (ancestorSelections (parents s))).

Definition isInExcludedSection (s : Selection) : bool :=
  if existsb isExcludedSection (ancestorSelections (parents s)) then true
  else isInLinkList s.

(** The loop of [isInArticleScope] over the ancestors. *)
Fixpoint inScopeLoop (ancestors : list Selection) : bool :=
  match ancestors with
  | [] => false
  | parent :: rest =>
      if isInExcludedSection parent then false
      else if matchesAny articleScope parent then true
      else inScopeLoop rest
  end.

Definition isInArticleScope (s : Selection) : bool :=
  inScopeLoop (ancestorSelections (parents s)).

(** The widget pass of [preprocessHTML], element by element in document
    order, each test made on the document as the removals before it have
    left it; [None] when the element itself goes. *)
Fixpoint removeWidgets (ctx : list Frame) (n : Node) : option Node :=
  match n with
  | Text _ => Some n
  | Element tag attrs children =>
      let s := mkSel n (rebuild n ctx) in
      if matchesAny widgetMarked s && negb (matchesAny articleOrMain s)
         && negb (isInArticleScope s)
      then None
      else
        Some (Element tag attrs
          ((fix walk (kept rest : list Node) {struct rest} : list Node :=
              match rest with
              | [] => kept
              | c :: rest' =>
                  match removeWidgets (mkFrame tag attrs kept rest' :: ctx) c with
                  | None => walk kept rest'
                  | Some c' => walk (kept ++ [c'])%list rest'
                  end
              end) [] children))
  end.

Fixpoint removeWidgetsDoc (kept rest : Document) : Document :=
  match rest with
  | [] => kept
  | c :: rest' =>
      match removeWidgets [] c with
      | None => removeWidgetsDoc kept rest'
      | Some c' => removeWidgetsDoc (kept ++ [c'])%list rest'
      end
  end.

Definition preprocessHTML (doc : Document) : Document :=
  let doc := fold_left (fun d sel => removeAll (matches sel) d)
                       preprocessSelectors doc in
  let doc :=
    removeAll
      (fun s => matches (Just (Tag "header")) s &&
                negb (existsb (matchesAny articleOrMain)
                              (ancestorSelections (parents s))))
      doc in
  removeWidgetsDoc [] doc.

Definition toAbsoluteURL (relativeURL baseURL : string) : Go.result string string :=
  match Lib.url_Parse L baseURL with
  | Go.Err e => Go.Err e
  | Go.Ok base =>
      match Lib.url_Parse L relativeURL with
      | Go.Err e => Go.Err e
      | Go.Ok rel => Go.Ok (Lib.url_String L (Lib.url_ResolveReference L base rel))
      end
  end.

Definition cleanImageURL (rawURL : string) : string :=
  match Lib.url_Parse L rawURL with
  | Go.Err _ => rawURL
  | Go.Ok parsed => Lib.url_String L (Lib.clearRawQuery parsed)
  end.

Definition parseDimensionsFromURL (url : string) : Z * Z :=
  let joint :=
    match dimensionsFromUrl (regexes ie) url with
    | Some (g1, g2) =>
        match Lib.Atoi g1, Lib.Atoi g2 with
        | Some w, Some h => Some (w, h)
        | _, _ => None
        end
    | None => None
    end in
  match joint with
  | Some wh => wh
  | None =>
      let width :=
        match widthFromUrl (regexes ie) url with
        | Some g => default 0 (Lib.Atoi g)
        | None => 0
        end in
      let height :=
        match heightFromUrl (regexes ie) url with
        | Some g => default 0 (Lib.Atoi g)
        | None => 0
        end in
      (width, height)
  end.

(** [if width == 0 || height == 0 { ... }]: dimensions still unknown are
    read from the URL. *)
Definition completeDimensions (width height : Z) (url : string) : Z * Z :=
  if (width =? 0) || (height =? 0) then
    let '(urlWidth, urlHeight) := parseDimensionsFromURL url in
    (if width =? 0 then urlWidth else width,
     if height =? 0 then urlHeight else height)
  else (width, height).

(** State of the [Each] over the [meta] elements of [extractOgImage]. *)
Record OgState : Type := mkOg {
  ogImageURL : string;
  ogImageAlt : string;
  ogWidth : Z;
  ogHeight : Z
}.

Definition ogStep (st : OgState) (s : Selection) : OgState :=
  match Attr (node s) "property" with
  | None => st
  | Some property =>
      match Attr (node s) "content" with
      | None => st
      | Some content =>
          if String.eqb property "og:image" ||
             String.eqb property "og:image:secure_url"
          then mkOg content (ogImageAlt st) (ogWidth st) (ogHeight st)
          else if String.eqb property "og:image:alt"
          then mkOg (ogImageURL st) content (ogWidth st) (ogHeight st)
          else if String.eqb property "og:image:width"
          then match Lib.Atoi content with
               | Some w => mkOg (ogImageURL st) (ogImageAlt st) w (ogHeight st)
               | None => st
               end
          else if String.eqb property "og:image:height"
          then match Lib.Atoi content with
               | Some h => mkOg (ogImageURL st) (ogImageAlt st) (ogWidth st) h
               | None => st
               end
          else st
      end
  end.

(** The [Each] over the [meta] elements. *)
Definition readOgMeta (doc : Document) : OgState :=
  fold_left ogStep (FindDoc [Just (Tag "meta")] doc) (mkOg "" "" 0 0).

Definition extractOgImage (doc : Document) (baseURL : string)
  : option ImageCandidate :=
  let st := readOgMeta doc in
  if String.eqb (ogImageURL st) "" then None
  else
    match toAbsoluteURL (ogImageURL st) baseURL with
    | Go.Err _ => None
    | Go.Ok absURL =>
        let absURL := cleanImageURL absURL in
        if negb (imageExt (regexes ie) absURL) then None
        else
          let '(width, height) :=
            completeDimensions (ogWidth st) (ogHeight st) absURL in
          Some (mkCandidate absURL (Lib.TrimSpace L (ogImageAlt st))
                  width height true false "og" 0%Q 0)
    end.

Definition extractJSONLDImage (doc : Document) (baseURL : string)
  : option ImageCandidate :=
  let imageURL := ExtractJSONLDImage R doc in
  if String.eqb imageURL "" then None
  else
    match toAbsoluteURL imageURL baseURL with
    | Go.Err _ => None
    | Go.Ok absURL =>
        let absURL := cleanImageURL absURL in
        if negb (imageExt (regexes ie) absURL) then None
        else
          let absURL := cleanImageURL absURL in
          let '(headline, found) := ExtractJSONLD R doc in
          let alt :=
            if found && negb (String.eqb headline "") then headline else "" in
          Some (mkCandidate absURL alt 0 0 true false "jsonld" 0%Q 0)
    end.

(** [pickFromSrcset]: the entry whose width is closest to
    [TargetImageWidth], the wider one on equal distance. *)
Definition TargetImageWidth : Z := 1000.

Definition srcsetEntries (srcset : string) : list (string * Z) :=
  flat_map
    (fun item =>
       match srcsetItem (regexes ie) (Lib.TrimSpace L item) with
       | Some (url, g2) =>
           match Lib.Atoi g2 with
           | Some w => [(url, w)]
           | None => []
           end
       | None => []
       end)
    (splitComma srcset).

Definition closer (best candidate : string * Z) : string * Z :=
  let candidateDiff := Z.abs (snd candidate - TargetImageWidth) in
  let bestDiff := Z.abs (snd best - TargetImageWidth) in
  if (candidateDiff <? bestDiff) ||
     ((candidateDiff =? bestDiff) && (snd best <? snd candidate))
  then candidate else best.

Definition pickFromSrcset (srcset : string) : string :=
  match srcsetEntries srcset with
  | [] => ""
  | first :: rest => fst (fold_left closer rest first)
  end.

Definition extractDimensions (s : Selection) : Z * Z :=
  let width :=
    match Attr (node s) "width" with
    | Some wAttr => default 0 (Lib.Atoi (Lib.TrimSpace L wAttr))
    | None => 0
    end in
  let height :=
    match Attr (node s) "height" with
    | Some hAttr => default 0 (Lib.Atoi (Lib.TrimSpace L hAttr))
    | None => 0
    end in
  match Attr (node s) "style" with
  | None => (width, height)
  | Some style =>
      let width :=
        match widthStyle (regexes ie) style with
        | Some g =>
            match Lib.ParseFloat L g with
            | Some w => Lib.truncate w
            | None => width
            end
        | None => width
        end in
      let height :=
        match heightStyle (regexes ie) style with
        | Some g =>
            match Lib.ParseFloat L g with
            | Some h => Lib.truncate h
            | None => height
            end
        | None => height
        end in
      (width, height)
  end.

(** [s.Html()]: the rendering of the children; nothing to render for an
    element without children. *)
Definition Html (s : Selection) : string :=
  match childrenOf (node s) with
  | [] => ""
  | children => renderChildren R children
  end.

Definition hasBadHint (s : Selection) (url : string) : bool :=
  if badHint (regexes ie) url then true
  else badHint (regexes ie) (Html s).

(** The source attribute chain of [extractImgTag]. *)
Definition imgSource (s : Selection) : string :=
  let src :=
    match Attr (node s) "data-srcset" with
    | Some dataSrc => pickFromSrcset dataSrc
    | None =>
        match Attr (node s) "src" with
        | Some srcAttr => srcAttr
        | None =>
            match Attr (node s) "data-src" with
            | Some dataSrc => dataSrc
            | None =>
                match Attr (node s) "data-original" with
                | Some dataOriginal => dataOriginal
                | None => AttrOr (node s) "data-lazy-src"
                end
            end
        end
    end in
  if String.eqb src "" then
    match Attr (node s) "srcset" with
    | Some srcset => pickFromSrcset srcset
    | None => src
    end
  else src.

Definition extractImgTag (s : Selection) (baseURL : string)
  : option ImageCandidate :=
  let src := imgSource s in
  if String.eqb src "" then None
  else
    match toAbsoluteURL src baseURL with
    | Go.Err _ => None
    | Go.Ok absURL =>
        if negb (imageExt (regexes ie) absURL) then None
        else
          let originalURL := absURL in
          let absURL := cleanImageURL (cleanImageURL absURL) in
          let alt := Lib.TrimSpace L (AttrOr (node s) "alt") in
          let '(width, height) := extractDimensions s in
          let '(width, height) := completeDimensions width height originalURL in
          Some (mkCandidate absURL alt width height (isInArticleScope s)
                  (hasBadHint s absURL) "img" 0%Q 0)
    end.

(** [candidate.InArticle = true]. *)
Definition markInArticle (c : ImageCandidate) : ImageCandidate :=
  mkCandidate (CandURL c) (CandAlt c) (Width c) (Height c) true
    (BadHint c) (Source c) (CandScore c) (Area c).

(** The candidates of one container of [extractArticleImgTags]. *)
Definition containerImages (baseURL : string) (container : Selection)
  : list ImageCandidate :=
  if isInExcludedSection container then []
  else
    flat_map
      (fun s =>
         match extractImgTag s baseURL with
         | Some candidate => [markInArticle candidate]
         | None => []
         end)
      (Find [Just (Tag "img")] container).

Definition extractArticleImgTags (doc : Document) (baseURL : string)
  : list ImageCandidate :=
  flat_map (containerImages baseURL) (FindDoc articleContainers doc).

(** What one pass sends on the channel. *)
Definition batch (doc : Document) (baseURL : string) (p : Pass)
  : list ImageCandidate :=
  match p with
  | OgPass =>
      match extractOgImage doc baseURL with
      | Some c => [c]
      | None => []
      end
  | JSONLDPass =>
      match extractJSONLDImage doc baseURL with
      | Some c => [c]
      | None => []
      end
  | ImgPass => extractArticleImgTags doc baseURL
  end.

(** The candidates in the order the channel delivers them; [arrival] is
    the order in which the three passes send their batch. *)
Definition collect (arrival : list Pass) (doc : Document) (baseURL : string)
  : list ImageCandidate :=
  flat_map (batch doc baseURL) arrival.

(** The candidates [getTopImages] receives. *)
Definition ranked (arrival : list Pass) (doc : Document) (baseURL : string)
  : list ImageCandidate :=
  sortCandidates (filterArticleImages ie (collect arrival (preprocessHTML doc) baseURL)).

(** [ExtractImagesFromHTML] on the parsed document, for an arrival order of
    the three batches. *)
Definition ExtractImagesFromHTML (arrival : list Pass) (doc : Document)
    (baseURL : string) : list Image :=
  getTopImages (ranked arrival doc baseURL) 10.

End Engine.

End Engine.

(** ** Sample library instances and pages, for the examples *)

Module Pages.
Import Models Images Dom Engine.

(** [strings.TrimSpace] on ASCII white space. *)
Fixpoint trimLeft (s : string) : string :=
  match s with
  | String c s' => if isSpace c then trimLeft s' else s
  | EmptyString => EmptyString
  end.

Fixpoint reverse (s acc : string) : string :=
  match s with
  | EmptyString => acc
  | String c s' => reverse s' (String c acc)
  end.

Definition TrimSpace (s : string) : string :=
  reverse (trimLeft (reverse (trimLeft s) "")) "".

(** Decimal digits at the head of a string. *)
Fixpoint leadingDigits (s : string) : string :=
  match s with
  | String c s' =>
      match Lib.digitVal c with
      | Some _ => String c (leadingDigits s')
      | None => EmptyString
      end
  | EmptyString => EmptyString
  end.

(** [strconv.ParseFloat] on unsigned decimal integers. *)
Definition ParseFloat (s : string) : option Q :=
  match s with
  | EmptyString => None
  | _ => option_map inject_Z (Lib.parseDigits s 0)
  end.

(** The text after the first occurrence of [marker], if any. *)
Fixpoint after (marker s : string) : option string :=
  if Go.HasPrefix s marker
  then Some (String.substring (String.length marker)
               (String.length s - String.length marker) s)
  else
    match s with
    | EmptyString => None
    | String _ s' => after marker s'
    end.

(** The text before the first occurrence of the character [stop]. *)
Fixpoint before (stop : ascii) (s : string) : string :=
  match s with
  | EmptyString => EmptyString
  | String c s' => if Ascii.eqb c stop then EmptyString else String c (before stop s')
  end.

(** [url.Parse] on absolute URLs of the form scheme://host/path?query#fragment
    and on absolute paths; control characters are an error.  A URL that ends
    in its only question mark has [ForceQuery] set. *)
Fixpoint hasControl (s : string) : bool :=
  match s with
  | EmptyString => false
  | String c s' =>
      let n := nat_of_ascii c in
      (Nat.ltb n 32 || Nat.eqb n 127)%bool || hasControl s'
  end.

Definition url_Parse (rawURL : string) : Go.result Lib.URL string :=
  if hasControl rawURL then Go.Err "net/url: invalid control character in URL"
  else
    let fragment := default "" (after "#" rawURL) in
    let rest := before "#" rawURL in
    let query := default "" (after "?" rest) in
    let forceQuery :=
      match after "?" rest with
      | Some EmptyString => true
      | _ => false
      end in
    let rest := before "?" rest in
    match after "://" rest with
    | Some hostpath =>
        let host := before "/" hostpath in
        let path := default "" (option_map (String "/") (after "/" hostpath)) in
        Go.Ok (Lib.mkURL (before ":" rest) "" "" host path "" false forceQuery
                 query fragment "")
    | None =>
        Go.Ok (Lib.mkURL "" "" "" "" rest "" false forceQuery query fragment "")
    end.

Definition url_String (u : Lib.URL) : string :=
  ((if String.eqb (Lib.Scheme u) "" then "" else Lib.Scheme u ++ "://")
   ++ Lib.Host u ++ Lib.Path u
   ++ (if Lib.ForceQuery u || negb (String.eqb (Lib.RawQuery u) "")
       then "?" ++ Lib.RawQuery u else "")
   ++ (if String.eqb (Lib.Fragment u) "" then "" else "#" ++ Lib.Fragment u))%string.

(** [ResolveReference] for an absolute reference or an absolute path. *)
Definition url_ResolveReference (base ref : Lib.URL) : Lib.URL :=
  if String.eqb (Lib.Scheme ref) "" then
    Lib.mkURL (Lib.Scheme base) "" "" (Lib.Host base) (Lib.Path ref) "" false
      (Lib.ForceQuery ref) (Lib.RawQuery ref) (Lib.Fragment ref) ""
  else ref.

Definition lib : Lib.GoLib :=
  Lib.mkLib TrimSpace Samples.ToLower ParseFloat url_Parse url_String
    url_ResolveReference (fun u => before ":" (Lib.Host u)).

(** Sample patterns: image files by extension, tracking pixels as bad
    hints, [width: N] and [height: N] in a style; no sample page carries
    dimensions in a URL or a srcset. *)
Definition styleValue (property style : string) : option string :=
  match after property style with
  | Some rest =>
      match leadingDigits (trimLeft rest) with
      | EmptyString => None
      | digits => Some digits
      end
  | None => None
  end.

Definition sampleRegexes : Regexes :=
  mkRegexes
    (fun url => Go.Contains url ".jpg" || Go.Contains url ".jpeg" ||
                Go.Contains url ".png" || Go.Contains url ".webp")
    (fun text => Go.Contains text "pixel" || Go.Contains text "sprite")
    (styleValue "width:") (styleValue "height:")
    (fun _ => None) (fun _ => None) (fun _ => None) (fun _ => None).

Definition sampleConfig : ImageConfig :=
  mkImageConfig 300 140000 (1 # 2) 3 [16 # 9; 4 # 3; 3 # 2] (5 # 100)
    (fun w h => ((w =? 300) && (h =? 250)) || ((w =? 728) && (h =? 90))).

(** Sample arithmetic: the exact one.  On the sizes of the sample pages
    the [float64] operations give the same comparisons and the same counts. *)
Definition exact : Float64 := mkFloat64 inject_Z Qdiv Qminus.

Definition extractor : ImageExtractor :=
  mkImageExtractor sampleConfig sampleRegexes exact.

(** Elements of the sample pages. *)
Definition img (src width : string) : Node :=
  Element "img" [("src", src); ("width", width)] [].
Definition imgSized (src width height alt : string) : Node :=
  Element "img" [("src", src); ("width", width); ("height", height); ("alt", alt)] [].
Definition link (children : list Node) : Node :=
  Element "a" [("href", "/story")] children.
Definition div (class : string) (children : list Node) : Node :=
  Element "div" [("class", class)] children.
Definition page (head body : list Node) : Document :=
  [Element "html" [] [Element "head" [] head; Element "body" [] body]].

(** The first element of a document that matches, as a selection. *)
Definition first (sels : list Selector) (doc : Document) : Selection :=
  match FindDoc sels doc with
  | s :: _ => s
  | [] => mkSel (Text "") []
  end.

(** A block with 6 links and 3 thumbnails of width 150. *)
Definition thumbnailGrid : Document :=
  page []
    [div "more"
       [ link [img "https://x/t1.jpg" "150"]; link [img "https://x/t2.jpg" "150"];
         link [img "https://x/t3.jpg" "150"]; link []; link []; link [] ]].

(** The same block with images of width 0. *)
Definition zeroWidthGrid : Document :=
  page []
    [div "more"
       [ link [img "https://x/t1.jpg" "0"]; link [img "https://x/t2.jpg" "0"];
         link [img "https://x/t3.jpg" "0"]; link []; link []; link [] ]].

(** A block with 6 links and 3 images, one of them 800 wide, in which two
    thumbnails sit in a list. *)
Definition gridWithList : Document :=
  page []
    [div "more"
       [ img "https://x/large.jpg" "800";
         Element "ul" []
           [ Element "li" [] [link [img "https://x/t1.jpg" "100"]];
             Element "li" [] [link [img "https://x/t2.jpg" "100"]];
             Element "li" [] [link []] ];
         link []; link []; link [] ]].

(** The same block without the list. *)
Definition gridWithLarge : Document :=
  page []
    [div "more"
       [ img "https://x/large.jpg" "800";
         link [img "https://x/t1.jpg" "100"]; link [img "https://x/t2.jpg" "100"];
         link []; link []; link []; link [] ]].

End Pages.

(** ** Sample readers and article pages *)

Module Articles.
Import Models Images Dom Engine Pages.

(** The text of an element: its text children, concatenated. *)
Definition textOf (n : Node) : string :=
  fold_right (fun c acc => match c with Text d => (d ++ acc)%string | _ => acc end)
             "" (childrenOf n).

(** The first JSON-LD script of a document. *)
Definition jsonldText (doc : Document) : string :=
  match FindDoc [Just (TagAttrEq "script" "type" "application/ld+json")] doc with
  | s :: _ => textOf (node s)
  | [] => ""
  end.

(** The double quote, and a JSON member [key: value] of two strings. *)
Definition quote : string := String (ascii_of_nat 34) EmptyString.

Definition member (key value : string) : string :=
  (quote ++ key ++ quote ++ ":" ++ quote ++ value ++ quote)%string.

(** The string value of a key in flat JSON text written without spaces. *)
Definition jsonString (key text : string) : string :=
  match after (quote ++ key ++ quote ++ ":" ++ quote)%string text with
  | Some rest => before (ascii_of_nat 34) rest
  | None => ""
  end.

(** Sample readers: image and headline of the first JSON-LD script; the
    sample images have no children to render. *)
Definition readers : Readers :=
  mkReaders (fun _ => "")
    (fun doc => jsonString "image" (jsonldText doc))
    (fun doc => (jsonString "headline" (jsonldText doc),
                 negb (String.eqb (jsonString "headline" (jsonldText doc)) ""))).

Definition meta (property content : string) : Node :=
  Element "meta" [("property", property); ("content", content)] [].

Definition baseURL : string := "https://x/news/story".

(** An article whose picture sits in a carousel block. *)
Definition carouselArticle : Document :=
  page []
    [Element "main" []
       [Element "article" []
          [div "carousel"
             [div "slide" [imgSized "https://x/c.jpg" "800" "600" "Slide"]]]]].

(** The page of the test [TestExtractImagesFromHTMLKeepsArticleWidgets]. *)
Definition widgetArticle : Document :=
  page []
    [ div "sidebar widget"
        [imgSized "https://cdn.example.com/sidebar.jpg" "600" "400" "Sidebar"];
      Element "section" [("class", "sidebar related-posts")]
        [imgSized "https://static0.srcdn.com/sidebar.jpg?s400-rw-e365" "800" "600"
           "SidebarLarge"];
      Element "main" []
        [Element "article" [("class", "w-article widget article layout-rich")]
           [ Element "header" [("class", "article-header")]
               [div "heading_image"
                  [imgSized "https://static0.srcdn.com/hero.jpg?q=70&fit=crop&w=1600&h=900"
                     "1600" "900" "Hero"]];
             Element "section" [("id", "article-body"); ("class", "article-body")]
               [ div "body-img"
                   [imgSized "https://static0.srcdn.com/body.jpg?w=1200&h=600&crop=faces"
                      "1000" "700" "Body"];
                 div "body-img"
                   [imgSized "https://static0.srcdn.com/portrait.jpg?w=600&h=900"
                      "600" "900" "Portrait"];
                 div "body-img"
                   [imgSized "https://static0.srcdn.com/small-landscape.jpg?w=550&h=300"
                      "550" "300" "Small"] ] ] ] ].

(** An article that shows one picture twice: under a URL that ends in a
    bare question mark, and under a URL with a resize parameter. *)
Definition bareQueryArticle : Document :=
  page []
    [Element "main" []
       [Element "article" []
          [ imgSized "https://x/a.jpg?" "1600" "900" "First";
            imgSized "https://x/a.jpg?w=800" "800" "450" "Second" ]]].

(** A page with an Open Graph image and a JSON-LD image, neither with
    dimensions. *)
Definition ogAndJSONLD : Document :=
  page
    [ meta "og:image" "https://x/a.jpg";
      Element "script" [("type", "application/ld+json")]
        [Text ("{" ++ member "@type" "NewsArticle" ++ "," ++
               member "headline" "Story" ++ "," ++
               member "image" "https://x/b.jpg" ++ "}")%string] ]
    [Element "main" [] [Element "article" [] [Element "p" [] [Text "Body."]]]].

(** A page whose Open Graph image is a portrait. *)
Definition portraitOg : Document :=
  page
    [ meta "og:image" "https://x/a.jpg";
      meta "og:image:width" "600"; meta "og:image:height" "900" ]
    [Element "main" [] [Element "article" [] [Element "p" [] [Text "Body."]]]].

End Articles.

(** ** Browser tier: the stability loop *)

Module Stability.
Import Browser.

Definition Millisecond : Z := 1000000.
Definition stableThreshold : Z := 3.
Definition checkInterval : Z := 500 * Millisecond.

(** What one pass through the loop of [waitForContentStabilityInline]
    meets: the [select] takes the [stabilityCtx.Done()] case, or the
    [ctx.Done()] case, or falls to [default] and the page is read at time
    [now]; the reading yields the HTML and the URL when both calls succeed. *)
Inductive Tick : Type :=
| TimedOut
| Interrupted
| Check (capture : option (string * string)) (now : Z).

(** The variables of the loop, the [*snapshots] slice, and the time asked
    of [chromedp.Sleep] so far. *)
Record LoopState : Type := mkLoop {
  previousLength : Z;
  stableCount : Z;
  lastSnap : option HTMLSnapshot;
  snapshots : list HTMLSnapshot;
  slept : Z
}.

(** The loop goes on, or the function has returned [snap], leaving the
    slice [snapshots]. *)
Inductive Outcome : Type :=
| Running (st : LoopState)
| Returned (snap : option HTMLSnapshot) (snapshots : list HTMLSnapshot) (slept : Z).

(** [snap.Stage = stage]. *)
Definition withStage (snap : HTMLSnapshot) (stage : string) : HTMLSnapshot :=
  mkSnapshot (HTML snap) (URL snap) (Timestamp snap) stage (Length snap).

(** The two [Done] cases: the latest snapshot, retagged and appended. *)
Definition giveUp (st : LoopState) (stage : string) : Outcome :=
  match lastSnap st with
  | Some last =>
      Returned (Some (withStage last stage))
        (snapshots st ++ [withStage last stage])%list (slept st)
  | None => Returned None (snapshots st) (slept st)
  end.

(** [percentChange < 5.0] for [percentChange = absDiff / previousLength * 100]
    with [previousLength > 0].  The source computes in [float64]; for lengths
    below 2^50 the outcome of its comparison is that of the exact one. *)
Definition changeBelowFivePercent (absDiff previousLength : Z) : bool :=
  absDiff * 100 <? 5 * previousLength.

Section Loop.

Variable TrimSpace : string -> string.

(** The snapshot the loop builds from a reading. *)
Definition reading (capture : option (string * string)) (now : Z) : HTMLSnapshot :=
  match capture with
  | Some (html, url) =>
      mkSnapshot html url now "stability-check" (Go.len (TrimSpace html))
  | None => mkSnapshot "" "" 0 "" 0
  end.

Definition step (st : LoopState) (t : Tick) : Outcome :=
  match t with
  | TimedOut => giveUp st "stable-timeout"
  | Interrupted => giveUp st "stable-interrupted"
  | Check capture now =>
      let snap := reading capture now in
      let lastSnap' :=
        match capture with
        | Some _ => Some snap
        | None => lastSnap st
        end in
      if Length snap =? 0 then
        Running (mkLoop (previousLength st) (stableCount st) lastSnap'
                   (snapshots st) (slept st + checkInterval))
      else
        let currentLength := Length snap in
        let lengthDiff := currentLength - previousLength st in
        if (0 <? previousLength st) &&
           changeBelowFivePercent (Z.abs lengthDiff) (previousLength st)
        then
          if stableThreshold <=? stableCount st + 1 then
            Returned (Some (withStage snap "stable"))
              (snapshots st ++ [withStage snap "stable"])%list (slept st)
          else
            Running (mkLoop currentLength (stableCount st + 1) lastSnap'
                       (snapshots st) (slept st + checkInterval))
        else
          Running (mkLoop currentLength 0 lastSnap'
                     (snapshots st) (slept st + checkInterval))
  end.

(** The loop, over the passes of an execution. *)
Fixpoint run (st : LoopState) (ticks : list Tick) : Outcome :=
  match ticks with
  | [] => Running st
  | t :: rest =>
      match step st t with
      | Running st' => run st' rest
      | returned => returned
      end
  end.

Definition waitForContentStabilityInline (snapshots : list HTMLSnapshot)
    (ticks : list Tick) : Outcome :=
  run (mkLoop 0 0 None snapshots 0) ticks.

(** A reading of non-zero trimmed length [len] that differs from the length
    [previous] before it by less than 5%. *)
Definition stableCheck (previous : Z) (t : Tick) (len : Z) : Prop :=
  exists html url now,
    t = Check (Some (html, url)) now /\ len = Go.len (TrimSpace html) /\
    0 < len /\ 0 < previous /\ Z.abs (len - previous) * 100 < 5 * previous.

(** A reading of non-zero trimmed length [len] that does not pass the test:
    it differs from the length [previous] before it by 5% or more (or there
    is no measurement before it, [previous] being 0). *)
Definition changedCheck (previous : Z) (t : Tick) (len : Z) : Prop :=
  exists html url now,
    t = Check (Some (html, url)) now /\ len = Go.len (TrimSpace html) /\
    0 < len /\ 0 <= previous /\ 5 * previous <= Z.abs (len - previous) * 100.

End Loop.

End Stability.

(** ** Sample executions of the stability loop *)

Module Ticks.
Import Browser Stability.

Definition settledPage : string :=
  "<html><body><article><p>The whole story.</p></article></body></html>".
Definition loadingPage : string := "<html><body><p>Loading</p></body></html>".

(** A check that reads the settled page at [now]. *)
Definition settled (now : Z) : Tick :=
  Check (Some (settledPage, "https://example.com/a")) now.

(** A check that reads the page while it still loads. *)
Definition loading (now : Z) : Tick :=
  Check (Some (loadingPage, "https://example.com/a")) now.

End Ticks.

(** ** Orchestrator: [ScrapeSmart], HTTP first, browser as fallback *)

Module Scraper.
Import Models.

Definition Millisecond : Z := 1000000.
Definition Second : Z := 1000 * Millisecond.
Definition HTTPTimeout : Z := 12 * Second.
Definition BrowserTimeout : Z := 60 * Second.

(** Why a context is done. *)
Inductive CtxError : Type := Canceled | DeadlineExceeded.

(** The parent context: its deadline, if it has one, and the time at which
    the caller cancels it, if ever.  Times are in nanoseconds. *)
Record Context : Type := mkContext {
  deadline : option Z;
  cancelledAt : option Z
}.

(** [ctx.Err()] at time [now]: the context is done once it is cancelled or
    its deadline has passed, and keeps the error of whichever came first. *)
Definition ctxErr (ctx : Context) (now : Z) : option CtxError :=
  let expired :=
    match deadline ctx with
    | Some d => d <=? now
    | None => false
    end in
  match cancelledAt ctx with
  | Some c =>
      if c <=? now then
        match deadline ctx with
        | Some d => if d <? c then Some DeadlineExceeded else Some Canceled
        | None => Some Canceled
        end
      else if expired then Some DeadlineExceeded else None
  | None => if expired then Some DeadlineExceeded else None
  end.

Definition calculateRemainingTime (ctx : Context) (now : Z) : Z :=
  match deadline ctx with
  | Some d => let remaining := d - now in if 0 <? remaining then remaining else 0
  | None => 300 * Second
  end.

(** The errors [ScrapeSmart] returns. *)
Inductive ScrapeError : Type :=
| InvalidURL (cause : string)
| ParentExpiredDuringHTTP (cause : CtxError)
| InsufficientBudget (remaining : Z)
| ParentExpiredDuringBrowser (cause : CtxError)
| CloudflareBlock (domain : string) (cause : string)
| BothPhasesFailed (cause : string).

(** What a tier returns, and how long the call took. *)
Record Fetched : Type := mkFetched {
  fetched : Go.result (string * string) string;
  took : Z
}.

(** The collaborators of the orchestrator: the standard library, the
    conversion [time.Duration(float64(d) * percent)], the HTTP client, the
    browser client (with its timeout in milliseconds), the extractor and the
    time it takes, and the Cloudflare test.  The tiers are given the time of the
    call and their timeout. *)
Record Env : Type := mkEnv {
  lib : Lib.GoLib;
  scaleDuration : Z -> Q -> Z;
  FetchWithAlternatesGroup : Z -> Z -> string -> Fetched;
  ScrapeWithBrowserOptimized : Z -> Z -> string -> Fetched;
  ExtractArticleWithMultipleStrategies : string -> string -> ScrapeResponse;
  extractionTime : string -> Z;
  IsCloudflareBlock : string -> bool
}.

(** The calls that leave the orchestrator. *)
Inductive Event : Type :=
| Slept (d : Z)
| HTTPFetch (url : string) (timeout : Z)
| BrowserScrape (url : string) (timeoutMs : Z)
| Extracted (finalURL : string).

(** The clock and the calls made so far. *)
Record State : Type := mkState {
  clock : Z;
  trace : list Event
}.

(** Computations that read the clock and make calls. *)
Definition M (A : Type) : Type := State -> A * State.

Definition ret {A : Type} (a : A) : M A := fun st => (a, st).

Definition bind {A B : Type} (m : M A) (k : A -> M B) : M B :=
  fun st => let '(a, st') := m st in k a st'.

Notation "'let!' x ':=' c 'in' k" := (bind c (fun x => k))
  (at level 10, x name, c at level 100, k at level 200).

Definition now : M Z := fun st => (clock st, st).

(** A call that takes [d] and is recorded as [e]. *)
Definition spend (d : Z) (e : Event) : M unit :=
  fun st => (tt, mkState (clock st + d) (trace st ++ [e])%list).

Definition isBrowserScrape (e : Event) : bool :=
  match e with
  | BrowserScrape _ _ => true
  | _ => false
  end.

(** The number of browser launches in a trace. *)
Definition browserCalls (events : list Event) : nat :=
  length (List.filter isBrowserScrape events).

Definition isHTTPFetch (e : Event) : bool :=
  match e with
  | HTTPFetch _ _ => true
  | _ => false
  end.

Definition httpCalls (events : list Event) : nat :=
  length (List.filter isHTTPFetch events).

(** How the HTTP phase ends: [ScrapeSmart] returns, or goes on to the
    browser phase. *)
Inductive Phase1 : Type :=
| Finished (r : Go.result ScrapeResponse ScrapeError)
| FallThrough.

Section Orchestrator.

Variable env : Env.
Variable ctx : Context.

Definition adjustTimeoutForBudget (baseTimeout remainingTime : Z) (maxPercent : Q) : Z :=
  let maxAllowed := scaleDuration env remainingTime maxPercent in
  if maxAllowed <? baseTimeout then maxAllowed else baseTimeout.

Definition extract (html finalURL : string) : M ScrapeResponse :=
  let! _ := spend (extractionTime env html) (Extracted finalURL) in
  ret (ExtractArticleWithMultipleStrategies env html finalURL).

(** The test on the HTML of tier 1: empty, or fewer than 100 bytes once
    trimmed. *)
Definition minimalHTML (html : string) : bool :=
  (Go.len html =? 0) || (Go.len (Lib.TrimSpace (lib env) html) <? 100).

(** The test on an extraction result: title and content both empty. *)
Definition emptyExtraction (result : ScrapeResponse) : bool :=
  (Go.len (Content result) =? 0) && (Go.len (Title result) =? 0).

(** The result tier 1 is accepted with, if it is. *)
Definition tier1Accepts (r : Go.result (string * string) string)
  : option ScrapeResponse :=
  match r with
  | Go.Ok (html, finalURL) =>
      if minimalHTML html then None
      else
        let result := ExtractArticleWithMultipleStrategies env html finalURL in
        if emptyExtraction result then None else Some result
  | Go.Err _ => None
  end.

(** The [else] branch of phase 1: the fetch, the checks on its HTML, the
    extraction, and the test of the parent context after a failure. *)
Definition attemptHTTP (targetURL : string) (httpTimeout : Z) : M Phase1 :=
  let! t := now in
  let f := FetchWithAlternatesGroup env t httpTimeout targetURL in
  let! _ := spend (took f) (HTTPFetch targetURL httpTimeout) in
  let! accepted :=
    match fetched f with
    | Go.Ok (html, finalURL) =>
        if minimalHTML html then ret None
        else
          let! result := extract html finalURL in
          if emptyExtraction result then ret None else ret (Some result)
    | Go.Err _ => ret None
    end in
  match accepted with
  | Some result => ret (Finished (Go.Ok result))
  | None =>
      let! t := now in
      match ctxErr ctx t with
      | Some cause => ret (Finished (Go.Err (ParentExpiredDuringHTTP cause)))
      | None => ret FallThrough
      end
  end.

(** The HTTP timeout computed from the budget left at time [t]. *)
Definition httpTimeoutAt (t : Z) : Z :=
  adjustTimeoutForBudget HTTPTimeout (calculateRemainingTime ctx t) (8 # 10).

Definition httpPhase (targetURL : string) : M Phase1 :=
  let! t := now in
  let httpTimeout := httpTimeoutAt t in
  if httpTimeout <? 1 * Second then ret FallThrough
  else attemptHTTP targetURL httpTimeout.

(** The end of [ScrapeSmart] after a failed browser phase. *)
Definition browserFailed (targetURL err : string)
  : M (Go.result ScrapeResponse ScrapeError) :=
  let! t := now in
  match ctxErr ctx t with
  | Some cause => ret (Go.Err (ParentExpiredDuringBrowser cause))
  | None =>
      if IsCloudflareBlock env err then
        let domain :=
          match Lib.url_Parse (lib env) targetURL with
          | Go.Ok u => Lib.url_Hostname (lib env) u
          | Go.Err _ => ""
          end in
        ret (Go.Err (CloudflareBlock domain err))
      else ret (Go.Err (BothPhasesFailed err))
  end.

(** Phase 2: the check of the time left, then the browser. *)
Definition browserPhase (targetURL : string)
  : M (Go.result ScrapeResponse ScrapeError) :=
  let! t := now in
  let remainingTime := calculateRemainingTime ctx t in
  let buffer := 5 * Second in
  let maxBrowserTime := remainingTime - buffer in
  if maxBrowserTime <? 1 * Second then ret (Go.Err (InsufficientBudget remainingTime))
  else
    let browserTimeout := adjustTimeoutForBudget BrowserTimeout maxBrowserTime 1 in
    let timeoutMs := Z.quot browserTimeout Millisecond in
    let f := ScrapeWithBrowserOptimized env t timeoutMs targetURL in
    let! _ := spend (took f) (BrowserScrape targetURL timeoutMs) in
    match fetched f with
    | Go.Ok (html, finalURL) =>
        let! result := extract html finalURL in
        if emptyExtraction result
        then browserFailed targetURL "content extraction returned empty results"
        else ret (Go.Ok result)
    | Go.Err err => browserFailed targetURL err
    end.

(** The random delay of 100 to 499 milliseconds before phase 1. *)
Definition randomDelay : M unit :=
  let! t := now in
  let d := (100 + Z.rem t 400) * Millisecond in
  spend d (Slept d).

Definition ScrapeSmart (targetURL : string)
  : M (Go.result ScrapeResponse ScrapeError) :=
  match Lib.url_Parse (lib env) targetURL with
  | Go.Err e => ret (Go.Err (InvalidURL e))
  | Go.Ok _ =>
      let! _ := randomDelay in
      let! phase1 := httpPhase targetURL in
      match phase1 with
      | Finished r => ret r
      | FallThrough => browserPhase targetURL
      end
  end.

End Orchestrator.

(** Sample collaborators: a tier 1 that gives [answer] after [httpTook]
    nanoseconds, a browser that fails after 2 seconds, an extractor that
    takes [extractTook]. *)
Definition envWith (answer : Go.result (string * string) string) (httpTook : Z)
    (extractor : string -> string -> ScrapeResponse) (extractTook : Z) : Env :=
  mkEnv Pages.lib
    (fun d percent => Lib.truncate (inject_Z d * percent)%Q)
    (fun _ _ _ => mkFetched answer httpTook)
    (fun _ _ _ => mkFetched (Go.Err "navigation failed") (2 * Second))
    extractor
    (fun _ => extractTook)
    (fun err => Go.Contains err "cloudflare").

(** An extractor that takes the page as content, and one that finds
    nothing. *)
Definition wholePage (html finalURL : string) : ScrapeResponse :=
  Extractor.candidateOf "Headline" html 40.
Definition nothingFound (html finalURL : string) : ScrapeResponse := zeroResponse.

(** A page of more than 100 bytes, and a page of fewer. *)
Definition articlePage : string :=
  "<html><head><title>Headline</title></head><body><article><p>A first paragraph of the story.</p><p>And a second one.</p></article></body></html>".
Definition shortPage : string := "<html><body>moved</body></html>".

(** Requests that have 20, 3 and 2 seconds. *)
Definition twentySeconds : Context := mkContext (Some (20 * Second)) None.
Definition threeSeconds : Context := mkContext (Some (3 * Second)) None.
Definition twoSeconds : Context := mkContext (Some (2 * Second)) None.
Definition start : State := mkState 0 [].

(** A URL with a line feed in it. *)
Definition brokenURL : string :=
  ("https://example.com/a" ++ String (ascii_of_nat 10) "b")%string.

End Scraper.

(** ** Image engine: reference functions for the ranking *)

Module ImagesRef.

(** The distinct elements of a list of URLs, each at the place of its first
    occurrence. *)
Fixpoint distinctURLs (urls : list string) : list string :=
  match urls with
  | [] => []
  | u :: rest =>
      u :: List.filter (fun v => negb (String.eqb v u)) (distinctURLs rest)
  end.

End ImagesRef.
(** ** Image engine: a sample page for the article-scope test *)

Module ScopePages.
Import Dom Engine Pages.

(** An article whose picture sits directly in a block of class
    [sidebar]. *)
Definition sidebarInArticle : Document :=
  page [] [Element "article" [] [div "sidebar" [img "https://x/a.jpg" "800"]]].

Definition picture : Selection := first [Just (Tag "img")] sidebarInArticle.

End ScopePages.
(** ** Browser tier: navigation with retries and alternate URLs *)

Module Navigation.
Import Browser.

Definition Second : Z := 1000000000.

(** What [captureHTMLSnapshots] returns. *)
Record Capture : Type := mkCapture {
  snapshots : list HTMLSnapshot;
  capturedURL : string;
  captureErr : option string
}.

(** The calls that leave the navigation code. *)
Inductive NavEvent : Type :=
| Waited (backoff : Z)
| Captured (url : string) (c : Capture).

Definition isCaptured (e : NavEvent) : bool :=
  match e with
  | Captured _ _ => true
  | Waited _ => false
  end.

(** The number of page captures in a log. *)
Definition captures (events : list NavEvent) : nat :=
  length (List.filter isCaptured events).

(** [calculateChallengeWait] for a context with the given deadline, at time
    [now]. *)
Definition calculateChallengeWait (deadline : option Z) (now : Z) : Z :=
  let minRemainingForCleanup := 5 * Second in
  let defaultChallengeWait := 30 * Second in
  match deadline with
  | Some d =>
      let remaining := d - now in
      if minRemainingForCleanup <? remaining then
        let maxWait := defaultChallengeWait in
        let maxWait :=
          if remaining - minRemainingForCleanup <? maxWait
          then remaining - minRemainingForCleanup else maxWait in
        let maxWait := if maxWait <? 3 * Second then 3 * Second else maxWait in
        maxWait
      else 3 * Second
  | None => defaultChallengeWait
  end.

Section Navigation.

(** [strings.ToLower] and the patterns [appError] and [cfBlock]. *)
Variable ToLower : string -> string.
Variable appErrorMatch : string -> bool.
Variable cfBlockMatch : string -> bool.

(** The browser and the network: a state [World] that every call may
    change; the page capture, the wait of a back-off (which ends early when
    the context is done), the time left in the context, the start of the
    browser under a timeout and the set-up of request blocking.
    [GenerateAlternateURLs] is the function of the HTTP client. *)
Variable World : Type.
Variable captureHTMLSnapshots : string -> World -> Capture * World.
Variable waitBackoff : Z -> World -> World.
Variable remainingTime : World -> Z.
Variable startBrowser : Z -> World -> World.
Variable setUpRequestBlocking : World -> option string * World.
Variable GenerateAlternateURLs : string -> Go.result (list string) string.

(** The world and the calls made so far. *)
Record NavState : Type := mkNav {
  world : World;
  log : list NavEvent
}.

Definition wait (backoff : Z) (st : NavState) : NavState :=
  mkNav (waitBackoff backoff (world st)) (log st ++ [Waited backoff])%list.

Definition capture (url : string) (st : NavState) : Capture * NavState :=
  let '(c, w) := captureHTMLSnapshots url (world st) in
  (c, mkNav w (log st ++ [Captured url c])%list).

Definition LooksLikeCFBlock (html : string) : bool := cfBlockMatch (ToLower html).

(** [LooksLikeChallengePage]. *)
Definition LooksLikeChallengePage (html : string) : bool :=
  let htmlLower := ToLower html in
  existsb (fun pattern => Go.Contains htmlLower pattern)
    [ "verifying you are human"; "verify you are human";
      "checking your browser"; "please wait";
      "this may take a few seconds" ].

(** The end of [retryNavigation], after the loop. *)
Definition afterRetries (allSnapshots : list HTMLSnapshot) (finalURL : string)
    (lastErr : option string) : list HTMLSnapshot * string * option string :=
  match allSnapshots with
  | [] => (allSnapshots, finalURL, lastErr)
  | _ =>
      match getBestHTML ToLower appErrorMatch allSnapshots with
      | Some best => ([best], finalURL, None)
      | None => (allSnapshots, finalURL, lastErr)
      end
  end.

(** The test [shouldRetry] of an attempt that did not succeed. *)
Definition shouldRetry (c : Capture) (attempt maxRetries : Z) : bool :=
  let errStr := default "" (captureErr c) in
  Go.Contains errStr "timeout" ||
  Go.Contains errStr "context deadline exceeded" ||
  Go.Contains errStr "network" ||
  Go.Contains errStr "connection" ||
  ((Z.of_nat (length (snapshots c)) =? 0) && (attempt <? maxRetries - 1)).

(** The loop of [retryNavigation] from the iteration [attempt] on, with
    [todo] iterations left before [attempt] reaches [maxRetries]. *)
Fixpoint retryLoop (todo : nat) (attempt maxRetries : Z) (targetURL : string)
    (allSnapshots : list HTMLSnapshot) (finalURL : string)
    (lastErr : option string) (st : NavState)
  : (list HTMLSnapshot * string * option string) * NavState :=
  match todo with
  | O => (afterRetries allSnapshots finalURL lastErr, st)
  | S todo' =>
      let st :=
        if 0 <? attempt then wait (Z.shiftl 1 attempt * Second) st else st in
      let '(c, st) := capture targetURL st in
      let allSnapshots := (allSnapshots ++ snapshots c)%list in
      let finalURL :=
        if String.eqb (capturedURL c) "" then finalURL else capturedURL c in
      let succeeded :=
        match captureErr c with
        | None => 0 <? Z.of_nat (length (snapshots c))
        | Some _ => false
        end in
      if succeeded then ((snapshots c, capturedURL c, None), st)
      else
        let lastErr := captureErr c in
        if negb (shouldRetry c attempt maxRetries) || (maxRetries - 1 <=? attempt)
        then (afterRetries allSnapshots finalURL lastErr, st)
        else retryLoop todo' (attempt + 1) maxRetries targetURL
               allSnapshots finalURL lastErr st
  end.

Definition retryNavigation (targetURL : string) (maxRetries : Z) (st : NavState)
  : (list HTMLSnapshot * string * option string) * NavState :=
  retryLoop (Z.to_nat maxRetries) 0 maxRetries targetURL [] "" None st.

(** The number of attempts [navigateAndExtract] allows for the time left. *)
Definition maxRetriesFor (remaining : Z) : Z :=
  let maxRetries := 3 in
  let maxRetries := if remaining <? 60 * Second then 2 else maxRetries in
  if remaining <? 30 * Second then 1 else maxRetries.

(** [navigateAndExtract]: the HTML, the final URL and the error. *)
Definition navigateAndExtract (targetURL : string) (st : NavState)
  : (string * string * option string) * NavState :=
  let maxRetries := maxRetriesFor (remainingTime (world st)) in
  let '((snapshots, capturedURL, err), st) :=
    retryNavigation targetURL maxRetries st in
  match err with
  | Some e =>
      let rescued :=
        match snapshots with
        | [] => None
        | _ =>
            match getBestHTML ToLower appErrorMatch snapshots with
            | Some best =>
                if 0 <? Go.len (HTML best) then Some best else None
            | None => None
            end
        end in
      match rescued with
      | Some best => ((HTML best, URL best, None), st)
      | None => (("", "", Some ("navigation failed: " ++ e)%string), st)
      end
  | None =>
      match getBestHTML ToLower appErrorMatch snapshots with
      | Some best =>
          let url := if String.eqb (URL best) "" then capturedURL else URL best in
          ((HTML best, url, None), st)
      | None => (("", "", Some "no HTML captured from any snapshot"), st)
      end
  end.

(** The loop of [scrapeWithOptions] over the alternate URLs: the page of
    the first alternate that gives one, if any. *)
Fixpoint tryAlternates (alternates : list string) (st : NavState)
  : option (string * string) * NavState :=
  match alternates with
  | [] => (None, st)
  | altURL :: rest =>
      let '((altHTML, altFinalURL, altErr), st) := navigateAndExtract altURL st in
      match altErr with
      | None =>
          if 0 <? Go.len altHTML then
            if LooksLikeCFBlock altHTML then tryAlternates rest st
            else (Some (altHTML, altFinalURL), st)
          else if (0 <? Go.len altHTML) && negb (LooksLikeCFBlock altHTML)
          then (Some (altHTML, altFinalURL), st)
          else tryAlternates rest st
      | Some _ =>
          if (0 <? Go.len altHTML) && negb (LooksLikeCFBlock altHTML)
          then (Some (altHTML, altFinalURL), st)
          else tryAlternates rest st
      end
  end.

(** [scrapeWithOptions], from the start of the browser on. *)
Definition scrapeWithOptions (targetURL : string) (timeoutMs : Z) (st : NavState)
  : Go.result (string * string) string * NavState :=
  let st := mkNav (startBrowser timeoutMs (world st)) (log st) in
  let '(setupErr, w) := setUpRequestBlocking (world st) in
  let st := mkNav w (log st) in
  match setupErr with
  | Some e => (Go.Err ("failed to set up request blocking: " ++ e)%string, st)
  | None =>
      let '((html, finalURL, err), st) := navigateAndExtract targetURL st in
      let returnsPrimary :=
        match err with
        | None =>
            if 0 <? Go.len html then negb (LooksLikeCFBlock html) else false
        | Some _ => (0 <? Go.len html) && negb (LooksLikeCFBlock html)
        end in
      if returnsPrimary then (Go.Ok (html, finalURL), st)
      else
        match GenerateAlternateURLs targetURL with
        | Go.Err e =>
            if (0 <? Go.len html) && negb (LooksLikeCFBlock html)
            then (Go.Ok (html, finalURL), st)
            else (Go.Err ("failed to generate alternate URLs: " ++ e)%string, st)
        | Go.Ok alternates =>
            let '(found, st) := tryAlternates alternates st in
            match found with
            | Some page => (Go.Ok page, st)
            | None =>
                if (0 <? Go.len html) && negb (LooksLikeCFBlock html)
                then (Go.Ok (html, finalURL), st)
                else (Go.Err "all URLs failed or were blocked", st)
            end
        end
  end.

End Navigation.

End Navigation.
(** ** Browser tier: a scripted browser for the examples *)

Module ScriptedBrowser.
Import Browser Navigation.

(** The world is the list of the results the next captures will give; a
    capture beyond the script fails. *)
Definition World : Type := list Capture.

Definition captureHTMLSnapshots (url : string) (w : World) : Capture * World :=
  match w with
  | c :: rest => (c, rest)
  | [] => (mkCapture [] "" (Some "net::ERR_ABORTED"), [])
  end.

Definition waitBackoff (backoff : Z) (w : World) : World := w.
Definition remainingTime (w : World) : Z := 20 * Second.
Definition startBrowser (timeoutMs : Z) (w : World) : World := w.
Definition setUpRequestBlocking (w : World) : option string * World := (None, w).
Definition GenerateAlternateURLs (url : string) : Go.result (list string) string :=
  Go.Ok [(url ++ "?amp=1")%string].

(** A block page says "attention required". *)
Definition cfBlockMatch (html : string) : bool :=
  Go.Contains html "attention required".

Definition blocked : HTMLSnapshot :=
  Samples.snapshotOf "stable" "<html><body>Attention Required!</body></html>".

(** A capture that went well, one that was blocked, and one that crashed
    after reading the page through the fallback. *)
Definition captured : Capture :=
  mkCapture [Samples.snapInitial; Samples.snapPeriodic] "https://example.com/a" None.
Definition captureBlocked : Capture :=
  mkCapture [blocked] "https://example.com/a" None.
Definition crashed : Capture :=
  mkCapture [Samples.snapFallback] "https://example.com/a" (Some "page crashed").

Definition start (script : World) : NavState World := mkNav World script [].

Definition navigateAndExtract :=
  Navigation.navigateAndExtract Samples.ToLower Samples.appErrorMatch World
    captureHTMLSnapshots waitBackoff remainingTime.

Definition scrapeWithOptions :=
  Navigation.scrapeWithOptions Samples.ToLower Samples.appErrorMatch cfBlockMatch
    World captureHTMLSnapshots waitBackoff remainingTime startBrowser
    setUpRequestBlocking GenerateAlternateURLs.

End ScriptedBrowser.

(** ** Video extractor *)

Module Videos.
Import Models Dom.

(** A decoded JSON value ([interface{}] after [json.Unmarshal]); an object
    is the list of its members, one per key. *)
#[warnings="-register-all"] Inductive JSON : Type :=
| JNull
| JBool (b : bool)
| JNumber (n : Q)
| JString (s : string)
| JArray (items : list JSON)
| JObject (fields : list (string * JSON)).

(** [data[key]]. *)
Fixpoint member (fields : list (string * JSON)) (key : string) : option JSON :=
  match fields with
  | [] => None
  | (k, v) :: rest => if String.eqb k key then Some v else member rest key
  end.

(** [data[key].(string)]. *)
Definition stringMember (fields : list (string * JSON)) (key : string)
  : option string :=
  match member fields key with
  | Some (JString s) => Some s
  | _ => None
  end.

(** Induction on a JSON value, with the property known of the items of an
    array and of the values of an object. *)
Fixpoint JSON_nested_ind (P : JSON -> Prop)
    (HNull : P JNull) (HBool : forall b, P (JBool b))
    (HNumber : forall n, P (JNumber n)) (HString : forall s, P (JString s))
    (HArray : forall items, Forall P items -> P (JArray items))
    (HObject : forall fields, Forall (fun kv => P (snd kv)) fields ->
                              P (JObject fields))
    (j : JSON) {struct j} : P j :=
  match j with
  | JNull => HNull
  | JBool b => HBool b
  | JNumber n => HNumber n
  | JString s => HString s
  | JArray items =>
      HArray items
        ((fix all (l : list JSON) : Forall P l :=
            match l with
            | [] => @List.Forall_nil JSON P
            | x :: rest =>
                @List.Forall_cons JSON P x rest
                  (JSON_nested_ind P HNull HBool HNumber HString HArray HObject x)
                  (all rest)
            end) items)
  | JObject fields =>
      HObject fields
        ((fix all (l : list (string * JSON)) : Forall (fun kv => P (snd kv)) l :=
            match l with
            | [] => @List.Forall_nil (string * JSON) (fun kv => P (snd kv))
            | kv :: rest =>
                @List.Forall_cons (string * JSON) (fun kv => P (snd kv)) kv rest
                  (JSON_nested_ind P HNull HBool HNumber HString HArray HObject
                     (snd kv))
                  (all rest)
            end) fields)
  end.

(** [s.Text()]: the text of the node and of its descendants. *)
Fixpoint nodeText (n : Node) : string :=
  match n with
  | Text data => data
  | Element _ _ children =>
      (fix texts (cs : list Node) : string :=
         match cs with
         | [] => ""
         | c :: rest => (nodeText c ++ texts rest)%string
         end) children
  end.

(** The selector list of [extractEmbeddedVideos] and [extractHTML5Videos]
    followed by [Find(tag)]: the elements [tag] below an article container,
    each once, in document order. *)
Definition inArticle (tag : string) : list Selector :=
  [ Below (Tag "article") (Tag tag);
    Below (Tag "main") (Tag tag);
    Below (AttrEq "itemprop" "articleBody") (Tag tag);
    Below (TagClass "section" "article-body") (Tag tag);
    Below (Id "article-body") (Tag tag) ].

Section Videos.

(** The standard library, [videoExtRegex.MatchString], and
    [json.Unmarshal] into a [map[string]interface{}]. *)
Variable L : Lib.GoLib.
Variable videoExt : string -> bool.
Variable Unmarshal : string -> option (list (string * JSON)).

Definition isVideoEmbed (url : string) : bool :=
  let lowerURL := Lib.ToLower L url in
  Go.Contains lowerURL "youtube.com" ||
  Go.Contains lowerURL "youtu.be" ||
  Go.Contains lowerURL "vimeo.com" ||
  Go.Contains lowerURL "dailymotion.com" ||
  Go.Contains lowerURL "twitch.tv" ||
  Go.Contains lowerURL "facebook.com/plugins/video" ||
  Go.Contains lowerURL "tiktok.com" ||
  videoExt url.

Definition detectProvider (url : string) : string :=
  let lowerURL := Lib.ToLower L url in
  if Go.Contains lowerURL "youtube.com" || Go.Contains lowerURL "youtu.be"
  then "youtube"
  else if Go.Contains lowerURL "vimeo.com" then "vimeo"
  else if Go.Contains lowerURL "dailymotion.com" then "dailymotion"
  else if Go.Contains lowerURL "twitch.tv" then "twitch"
  else if Go.Contains lowerURL "facebook.com" then "facebook"
  else if Go.Contains lowerURL "tiktok.com" then "tiktok"
  else if videoExt url then "html5"
  else "unknown".

Definition toAbsoluteURL (relativeURL baseURL : string) : Go.result string string :=
  match Lib.url_Parse L baseURL with
  | Go.Err e => Go.Err e
  | Go.Ok base =>
      match Lib.url_Parse L relativeURL with
      | Go.Err e => Go.Err e
      | Go.Ok rel => Go.Ok (Lib.url_String L (Lib.url_ResolveReference L base rel))
      end
  end.

(** The common end of the extractors: the URL is made absolute and, when
    that works and the URL was not seen before, it is marked as seen and a
    video is appended. *)
Definition addVideo (videos : list Video) (seen : gset string)
    (url baseURL : string) (accept : string -> bool)
    (make : string -> Video) : list Video * gset string :=
  match toAbsoluteURL url baseURL with
  | Go.Ok absURL =>
      if accept absURL && negb (bool_decide (absURL ∈ seen))
      then ((videos ++ [make absURL])%list, {[absURL]} ∪ seen)
      else (videos, seen)
  | Go.Err _ => (videos, seen)
  end.

(** The body of the [Each] of [extractOGVideos], on the pair
    [(videoURL, videoTitle)]. *)
Definition ogVideoStep (acc : string * string) (s : Selection) : string * string :=
  let '(videoURL, videoTitle) := acc in
  match Attr (node s) "property" with
  | None => acc
  | Some property =>
      if String.eqb property "og:video" || String.eqb property "og:video:url" ||
         String.eqb property "og:video:secure_url"
      then match Attr (node s) "content" with
           | Some content => (content, videoTitle)
           | None => acc
           end
      else if String.eqb property "og:title"
      then match Attr (node s) "content" with
           | Some content =>
               if String.eqb videoTitle "" then (videoURL, content) else acc
           | None => acc
           end
      else acc
  end.

Definition extractOGVideos (doc : Document) (baseURL : string) (seen : gset string)
  : list Video * gset string :=
  let '(videoURL, videoTitle) :=
    fold_left ogVideoStep (FindDoc [Just (Tag "meta")] doc) ("", "") in
  if String.eqb videoURL "" then ([], seen)
  else
    addVideo [] seen videoURL baseURL (fun _ => true)
      (fun absURL => mkVideo absURL (detectProvider absURL) "og" videoTitle).

Definition extractTwitterPlayer (doc : Document) (baseURL : string)
    (seen : gset string) : list Video * gset string :=
  let playerURL :=
    fold_left
      (fun playerURL s =>
         match Attr (node s) "content" with
         | Some content => content
         | None => playerURL
         end)
      (FindDoc [Just (TagAttrEq "meta" "name" "twitter:player")] doc) "" in
  if String.eqb playerURL "" then ([], seen)
  else
    addVideo [] seen playerURL baseURL (fun _ => true)
      (fun absURL => mkVideo absURL (detectProvider absURL) "twitter" "").

(** The type under which an object counts: the [@type] when it is a
    string, else the first string of the [@type] array that contains
    [Video], else the empty string. *)
Fixpoint videoTypeIn (types : list JSON) : string :=
  match types with
  | [] => ""
  | JString tStr :: rest =>
      if Go.Contains tStr "Video" then tStr else videoTypeIn rest
  | _ :: rest => videoTypeIn rest
  end.

Definition typeString (typeVal : JSON) : string :=
  match typeVal with
  | JString typeStr => typeStr
  | JArray typeArr => videoTypeIn typeArr
  | _ => ""
  end.

(** The part of [extractVideoFromJSONLD] after the [@graph] loop. *)
Definition videoOfObject (fields : list (string * JSON)) (baseURL : string)
    (videos : list Video) (seen : gset string) : list Video * gset string :=
  match member fields "@type" with
  | None => (videos, seen)
  | Some typeVal =>
      let typeStr := typeString typeVal in
      if String.eqb typeStr "" || negb (Go.Contains typeStr "Video")
      then (videos, seen)
      else
        let videoURL :=
          match stringMember fields "contentUrl" with
          | Some contentURL => contentURL
          | None =>
              match stringMember fields "embedUrl" with
              | Some embedURL => embedURL
              | None => default "" (stringMember fields "url")
              end
          end in
        let videoTitle :=
          match stringMember fields "name" with
          | Some name => name
          | None => default "" (stringMember fields "headline")
          end in
        if String.eqb videoURL "" then (videos, seen)
        else
          addVideo videos seen videoURL baseURL (fun _ => true)
            (fun absURL => mkVideo absURL (detectProvider absURL) "jsonld" videoTitle)
  end.

(** [extractVideoFromJSONLD] on a decoded object: first the objects of its
    [@graph] array, in order, then the object itself. *)
Fixpoint extractVideoFromJSONLD (data : JSON) (baseURL : string)
    (seen : gset string) {struct data} : list Video * gset string :=
  match data with
  | JObject fields =>
      let '(videos, seen) :=
        (fix graph (fs : list (string * JSON)) : list Video * gset string :=
           match fs with
           | [] => ([], seen)
           | (k, v) :: rest =>
               if String.eqb k "@graph" then
                 match v with
                 | JArray items =>
                     (fix each (items : list JSON) (videos : list Video)
                          (seen : gset string) : list Video * gset string :=
                        match items with
                        | [] => (videos, seen)
                        | item :: rest =>
                            match item with
                            | JObject _ =>
                                let '(more, seen) :=
                                  extractVideoFromJSONLD item baseURL seen in
                                each rest (videos ++ more)%list seen
                            | _ => each rest videos seen
                            end
                        end) items [] seen
                 | _ => ([], seen)
                 end
               else graph rest
           end) fields in
      videoOfObject fields baseURL videos seen
  | _ => ([], seen)
  end.

Definition extractJSONLDVideos (doc : Document) (baseURL : string)
    (seen : gset string) : list Video * gset string :=
  fold_left
    (fun (acc : list Video * gset string) s =>
       let '(videos, seen) := acc in
       match Unmarshal (nodeText (node s)) with
       | Some fields =>
           let '(more, seen) := extractVideoFromJSONLD (JObject fields) baseURL seen in
           ((videos ++ more)%list, seen)
       | None => acc
       end)
    (FindDoc [Just (TagAttrEq "script" "type" "application/ld+json")] doc)
    ([], seen).

Definition extractEmbeddedVideos (doc : Document) (baseURL : string)
    (seen : gset string) : list Video * gset string :=
  fold_left
    (fun (acc : list Video * gset string) s =>
       let '(videos, seen) := acc in
       match Attr (node s) "src" with
       | Some src =>
           addVideo videos seen src baseURL isVideoEmbed
             (fun absURL =>
                mkVideo absURL (detectProvider absURL) "embedded"
                  (AttrOr (node s) "title"))
       | None => acc
       end)
    (FindDoc (inArticle "iframe") doc) ([], seen).

(** A [src] attribute of a [video] element or of one of its [source]
    elements. *)
Definition html5Source (baseURL : string) (acc : list Video * gset string)
    (s : Selection) : list Video * gset string :=
  let '(videos, seen) := acc in
  match Attr (node s) "src" with
  | Some src =>
      addVideo videos seen src baseURL (fun _ => true)
        (fun absURL => mkVideo absURL "html5" "html5" "")
  | None => acc
  end.

Definition extractHTML5Videos (doc : Document) (baseURL : string)
    (seen : gset string) : list Video * gset string :=
  fold_left
    (fun (acc : list Video * gset string) s =>
       fold_left (html5Source baseURL) (Find [Just (Tag "source")] s)
         (html5Source baseURL acc s))
    (FindDoc (inArticle "video") doc) ([], seen).

(** [ExtractVideosFromHTML] on the parsed document. *)
Definition ExtractVideosFromHTML (doc : Document) (baseURL : string) : list Video :=
  let seen : gset string := ∅ in
  let '(og, seen) := extractOGVideos doc baseURL seen in
  let '(twitter, seen) := extractTwitterPlayer doc baseURL seen in
  let '(jsonld, seen) := extractJSONLDVideos doc baseURL seen in
  let '(embedded, seen) := extractEmbeddedVideos doc baseURL seen in
  let '(html5, seen) := extractHTML5Videos doc baseURL seen in
  (og ++ twitter ++ jsonld ++ embedded ++ html5)%list.

End Videos.

End Videos.
(** ** Video extractor: a sample page *)

Module VideoPages.
Import Models Dom Videos Pages.

(** Video files by extension. *)
Definition videoExt (url : string) : bool :=
  Go.Contains url ".mp4" || Go.Contains url ".webm".

(** No JSON-LD on the sample page. *)
Definition Unmarshal (text : string) : option (list (string * JSON)) := None.

(** A page that announces a video in its Open Graph data, embeds the same
    video and another one in the article, and has a [video] element whose
    [source] repeats its [src]. *)
Definition videoArticle : Document :=
  page
    [ Element "meta"
        [("property", "og:video"); ("content", "https://www.youtube.com/embed/abc")] [] ]
    [ Element "article" []
        [ Element "iframe" [("src", "https://www.youtube.com/embed/abc")] [];
          Element "iframe" [("src", "https://player.vimeo.com/video/1")] [];
          Element "video" [("src", "/media/clip.mp4")]
            [Element "source" [("src", "/media/clip.mp4")] []] ] ].

End VideoPages.
(** ** Cloud Run handler *)

Module Handler.
Import Models.

(** What the handler reads of a request: the method and
    [r.URL.Query().Get(name)]. *)
Record Request : Type := mkRequest {
  Method : string;
  Query : string -> string
}.

(** An error of the scraper: a [*models.CloudflareBlockError], or any other
    error with its message. *)
Inductive ScrapeFailure : Type :=
| Blocked (domain : string)
| Failed (message : string).

(** What [ScrapeSmartWithTimeout] returns, and how long it took. *)
Record Scraped : Type := mkScraped {
  outcome : Go.result ScrapeResponse ScrapeFailure;
  durationMs : Z
}.

(** The body written to the response. *)
Inductive Body : Type :=
| NoBody
| ErrorBody (message : string)
| BlockedBody (error provider domain : string) (metadata : Metadata)
| ResultBody (result : ScrapeResponse).

Record Response : Type := mkHTTP {
  status : Z;
  body : Body
}.

(** A call of the scraper: the URL and the timeout in milliseconds. *)
Record Call : Type := mkCall {
  callURL : string;
  callTimeoutMs : Z
}.

Definition StatusOK : Z := 200.
Definition StatusNoContent : Z := 204.
Definition StatusBadRequest : Z := 400.
Definition StatusUnauthorized : Z := 401.
Definition StatusMethodNotAllowed : Z := 405.
Definition StatusUnavailableForLegalReasons : Z := 451.
Definition StatusInternalServerError : Z := 500.
Definition StatusGatewayTimeout : Z := 504.

Definition quote : string := String (ascii_of_nat 34) EmptyString.

(** [s[:n]]. *)
Definition prefix (n : nat) (s : string) : string := String.substring 0 n s.

Section Handler.

(** The standard library with [strings.ReplaceAll], the environment
    ([os.Getenv]), the scraper, and the clock read after the scrape. *)
Variable L : Lib.GoLib.
Variable ReplaceAll : string -> string -> string -> string.
Variable Getenv : string -> string.
Variable ScrapeSmartWithTimeout : string -> Z -> Scraped.
Variable finishedAt : Z.

(** [loadKeysFromSecretManager]: not implemented, always an error. *)
Definition loadKeysFromSecretManager (secretName : string)
  : Go.result (list string) string :=
  Go.Err "Secret Manager integration not implemented - use SCRAPER_API_KEYS environment variable".

(** [loadAPIKeys]: the value it leaves in [h.apiKeys]. *)
Definition loadAPIKeys : list string :=
  let fromSecret :=
    if String.eqb (Getenv "SCRAPER_API_KEY_SECRET") "" then None
    else
      match loadKeysFromSecretManager (Getenv "SCRAPER_API_KEY_SECRET") with
      | Go.Ok keys => if 0 <? Z.of_nat (length keys) then Some keys else None
      | Go.Err _ => None
      end in
  match fromSecret with
  | Some keys => keys
  | None =>
      let keysStr := Getenv "SCRAPER_API_KEYS" in
      if String.eqb keysStr "" then []
      else
        flat_map
          (fun key =>
             let key := Lib.TrimSpace L key in
             if String.eqb key "" then [] else [key])
          (Engine.splitComma keysStr)
  end.

(** [validateAPIKey]; [subtle.ConstantTimeCompare] gives 1 exactly for
    equal byte strings. *)
Definition validateAPIKey (apiKeys : list string) (requestKey : string) : bool :=
  if Z.of_nat (length apiKeys) =? 0 then true
  else existsb (fun validKey => String.eqb requestKey validKey) apiKeys.

(** [sanitizeErrorMessage] for an error with the message [errorMsg]. *)
Definition sanitizeErrorMessage (errorMsg : string) : string :=
  let verboseErrors :=
    String.eqb (Getenv "VERBOSE_ERRORS") "true" || String.eqb (Getenv "DEBUG") "true" in
  if verboseErrors then
    if 500 <? Go.len errorMsg then (prefix 500 errorMsg ++ "...")%string
    else errorMsg
  else
    let errorMsg := ReplaceAll errorMsg "/app/" "" in
    let errorMsg := ReplaceAll errorMsg "/tmp/" "" in
    if Go.Contains errorMsg "context deadline exceeded" ||
       Go.Contains errorMsg "timeout"
    then "timeout: request took too long"
    else if Go.Contains errorMsg "HTTP 403" || Go.Contains errorMsg "403"
    then "access denied: site blocked the request"
    else if Go.Contains errorMsg "HTTP 404" || Go.Contains errorMsg "404"
    then "not found: URL does not exist"
    else if Go.Contains errorMsg "network" || Go.Contains errorMsg "connection"
    then "network error: could not connect to target site"
    else if Go.Contains errorMsg "all URLs failed" ||
            Go.Contains errorMsg "all alternate URLs"
    then "all scraping attempts failed"
    else if 200 <? Go.len errorMsg then (prefix 200 errorMsg ++ "...")%string
    else errorMsg.

(** The timeout of a request, from its [timeout] parameter. *)
Definition requestTimeoutMs (timeoutStr : string) : Z :=
  let timeoutMs := 300000 in
  let timeoutMs :=
    if String.eqb timeoutStr "" then timeoutMs
    else
      match Lib.Atoi timeoutStr with
      | Some parsedTimeout => parsedTimeout
      | None => timeoutMs
      end in
  let timeoutMs := if 240000 <? timeoutMs then 240000 else timeoutMs in
  if timeoutMs <? 1000 then 1000 else timeoutMs.

Definition errorResponse (statusCode : Z) (message : string) : Response :=
  mkHTTP statusCode (ErrorBody message).

(** [result.Metadata.URL = ...] and the two fields after it. *)
Definition withMetadata (result : ScrapeResponse) (metadata : Metadata)
  : ScrapeResponse :=
  mkResponse (Title result) (Description result) (Content result)
    (Images result) (Videos result) metadata (Author result)
    (PublishDate result) (Excerpt result) (ReadingTime result)
    (Language result) (TextLength result) (ResponseQuality result).

(** [Handler] for a handler with the keys [apiKeys]: the response, and the
    calls of the scraper it made. *)
Definition Handle (apiKeys : list string) (r : Request) : Response * list Call :=
  if String.eqb (Method r) "OPTIONS" then (mkHTTP StatusNoContent NoBody, [])
  else if negb (String.eqb (Method r) "GET")
  then (errorResponse StatusMethodNotAllowed "Method not allowed", [])
  else
    let requestKey := Query r "key" in
    if negb (validateAPIKey apiKeys requestKey)
    then (errorResponse StatusUnauthorized "Invalid or missing API key", [])
    else
      let targetURL := Query r "url" in
      if String.eqb targetURL ""
      then (errorResponse StatusBadRequest
              ("Missing " ++ quote ++ "url" ++ quote ++ " query parameter")%string, [])
      else
        match Lib.url_Parse L targetURL with
        | Go.Err _ => (errorResponse StatusBadRequest "Invalid URL format", [])
        | Go.Ok _ =>
            let timeoutMs := requestTimeoutMs (Query r "timeout") in
            let scraped := ScrapeSmartWithTimeout targetURL timeoutMs in
            let calls := [mkCall targetURL timeoutMs] in
            let metadata := mkMetadata targetURL finishedAt (durationMs scraped) in
            match outcome scraped with
            | Go.Err (Blocked domain) =>
                (mkHTTP StatusUnavailableForLegalReasons
                   (BlockedBody "Blocked by site protection" "cloudflare" domain
                      metadata), calls)
            | Go.Err (Failed message) =>
                if Go.Contains message "context deadline exceeded"
                then (errorResponse StatusGatewayTimeout "Scrape took too long", calls)
                else (errorResponse StatusInternalServerError
                        ("Failed to scrape: " ++ sanitizeErrorMessage message)%string,
                      calls)
            | Go.Ok result =>
                (mkHTTP StatusOK (ResultBody (withMetadata result metadata)), calls)
            end
        end.

(** The handler as [NewCloudRunHandler] sets it up. *)
Definition Handler (r : Request) : Response * list Call := Handle loadAPIKeys r.

End Handler.

End Handler.
(** ** Parsed documents: induction, and what a removal leaves of an element *)

Module DomFacts.
Import Dom.

(** Induction on a node, with the property known of the children of an
    element. *)
Fixpoint Node_nested_ind (P : Node -> Prop)
    (HText : forall data, P (Text data))
    (HElement : forall tag attrs children,
        Forall P children -> P (Element tag attrs children))
    (n : Node) {struct n} : P n :=
  match n with
  | Text data => HText data
  | Element tag attrs children =>
      HElement tag attrs children
        ((fix all (l : list Node) : Forall P l :=
            match l with
            | [] => @List.Forall_nil Node P
            | c :: rest =>
                @List.Forall_cons Node P c rest
                  (Node_nested_ind P HText HElement c) (all rest)
            end) children)
  end.

(** The tag and the attributes of an element: what the removals of the
    pre-pass never change. *)
Definition shallow (n : Node) : option (string * list (string * string)) :=
  match n with
  | Element tag attrs _ => Some (tag, attrs)
  | Text _ => None
  end.

End DomFacts.
(** ** Extraction helpers: JSON-LD articles *)

Module Helpers.
Import Dom Videos.

(** The fields of [JSONLDArticle] that the helpers read. *)
Record JSONLDArticle : Type := mkArticle {
  Type_ : JSON;
  Headline : string;
  ArticleBody : string;
  Description : string
}.

(** The named results of [ExtractJSONLD]. *)
Record JSONLDResult : Type := mkJSONLD {
  headline : string;
  body : string;
  description : string;
  found : bool
}.

Section Helpers.

(** The standard library and [json.Unmarshal] into a [JSONLDArticle] and
    into a slice of them. *)
Variable L : Lib.GoLib.
Variable UnmarshalArticle : string -> option JSONLDArticle.
Variable UnmarshalArticles : string -> option (list JSONLDArticle).

(** The test [isArticleType] makes on a string. *)
Definition articleTypeName (typeStr : string) : bool :=
  Go.Contains (Lib.ToLower L typeStr) "article" ||
  Go.Contains (Lib.ToLower L typeStr) "newsarticle" ||
  Go.Contains (Lib.ToLower L typeStr) "blogposting".

Definition isArticleType (typeField : JSON) : bool :=
  match typeField with
  | JNull => false
  | JString typeStr => articleTypeName typeStr
  | JArray typeArr =>
      existsb
        (fun t =>
           match t with
           | JString typeStr => articleTypeName typeStr
           | _ => false
           end)
        typeArr
  | _ => false
  end.

Definition isArticle (article : JSONLDArticle) : bool :=
  isArticleType (Type_ article) && negb (String.eqb (Headline article) "").

Definition fromArticle (article : JSONLDArticle) : JSONLDResult :=
  mkJSONLD (Headline article) (ArticleBody article) (Description article) true.

(** The first article of a slice, if any. *)
Fixpoint firstArticle (articles : list JSONLDArticle) : option JSONLDArticle :=
  match articles with
  | [] => None
  | article :: rest => if isArticle article then Some article else firstArticle rest
  end.

(** The body of the [Each] of [ExtractJSONLD]. *)
Definition jsonldStep (acc : JSONLDResult) (s : Selection) : JSONLDResult :=
  if found acc then acc
  else
    let jsonText := nodeText (node s) in
    if String.eqb jsonText "" then acc
    else
      let single :=
        match UnmarshalArticle jsonText with
        | Some article => if isArticle article then Some article else None
        | None => None
        end in
      match single with
      | Some article => fromArticle article
      | None =>
          match UnmarshalArticles jsonText with
          | Some articles =>
              match firstArticle articles with
              | Some article => fromArticle article
              | None => acc
              end
          | None => acc
          end
      end.

Definition ExtractJSONLD (doc : Document) : JSONLDResult :=
  fold_left jsonldStep
    (FindDoc [Just (TagAttrEq "script" "type" "application/ld+json")] doc)
    (mkJSONLD "" "" "" false).

End Helpers.

End Helpers.

(* ================================================================== *)
(** * Properties *)
(* ================================================================== *)

(** ** Best-snapshot selection *)

Module BrowserFacts.
Import Browser.

Section BestHTML.

Variable ToLower : string -> string.
Variable appErrorMatch : string -> bool.

Local Abbreviation skipped := (Browser.skipped ToLower appErrorMatch).
Local Abbreviation bestStep := (Browser.bestStep ToLower appErrorMatch).
Local Abbreviation bestInv := (Browser.bestInv ToLower appErrorMatch).
Local Abbreviation getBestHTML := (Browser.getBestHTML ToLower appErrorMatch).

Lemma bestInv_nil : bestInv [] (None, -1).
Proof. split; [reflexivity | intros t []]. Qed.

Lemma bestStep_inv seen acc snap :
  bestInv seen acc -> bestInv (seen ++ [snap]) (bestStep acc snap).
Proof.
  destruct acc as [best p]. unfold Browser.bestStep.
  intros Hinv.
  assert (Hin : forall t, In t (seen ++ [snap]) -> In t seen \/ t = snap).
  { intros t Ht. apply in_app_or in Ht. destruct Ht as [Ht | [Ht | []]]; auto. }
  destruct (skipped snap) eqn:Hskip.
  - (* the snapshot is skipped: nothing changes *)
    destruct best as [b |]; simpl in *.
    + destruct Hinv as (Hp & Hnn & Hb & Hsb & Hmax).
      repeat split; auto.
      * apply in_or_app; auto.
      * apply Hin in H. destruct H as [H | ->]; [apply Hmax; auto | congruence].
      * apply Hin in H. destruct H as [H | ->]; [apply Hmax; auto | congruence].
    + destruct Hinv as (Hp & Hmax). split; auto.
      intros t Ht Hst. apply Hin in Ht.
      destruct Ht as [Ht | ->]; [auto | congruence].
  - destruct (Z.ltb_spec p (priorityOf (Stage snap))) as [Hlt | Hge].
    + (* strictly higher priority *)
      simpl. repeat split; auto.
      * destruct best; simpl in Hinv; lia.
      * apply in_or_app; right; left; reflexivity.
      * apply Hin in H. destruct H as [H | ->]; [| lia].
        destruct best; simpl in Hinv.
        -- destruct Hinv as (_ & _ & _ & _ & Hmax).
           specialize (Hmax t H H0). lia.
        -- destruct Hinv as (-> & Hmax). specialize (Hmax t H H0). lia.
      * intros Heq. apply Hin in H. destruct H as [H | ->]; [| lia].
        destruct best; simpl in Hinv.
        -- destruct Hinv as (_ & _ & _ & _ & Hmax).
           specialize (Hmax t H H0). lia.
        -- destruct Hinv as (-> & Hmax). specialize (Hmax t H H0). lia.
    + destruct (Z.eqb_spec (priorityOf (Stage snap)) p) as [Heq | Hne].
      * destruct best as [b |]; simpl in Hinv.
        -- destruct Hinv as (Hp & Hnn & Hb & Hsb & Hmax).
           destruct (Z.ltb_spec (Length b) (Length snap)) as [Hlen | Hlen]; simpl.
           ++ repeat split; auto; try lia.
              ** apply in_or_app; right; left; reflexivity.
              ** apply Hin in H. destruct H as [H | ->]; [| lia].
                 apply Hmax; auto.
              ** intros Ht. apply Hin in H. destruct H as [H | ->]; [| lia].
                 specialize (Hmax t H H0). lia.
           ++ repeat split; auto.
              ** apply in_or_app; auto.
              ** apply Hin in H. destruct H as [H | ->]; [| lia].
                 apply Hmax; auto.
              ** intros Ht. apply Hin in H. destruct H as [H | ->]; [| lia].
                 specialize (Hmax t H H0). lia.
        -- destruct Hinv as (-> & Hmax). simpl. split; auto.
           intros t Ht Hst. apply Hin in Ht. destruct Ht as [Ht | ->]; [auto | lia].
      * (* strictly lower priority *)
        destruct best as [b |]; simpl in *.
        -- destruct Hinv as (Hp & Hnn & Hb & Hsb & Hmax).
           repeat split; auto.
           ++ apply in_or_app; auto.
           ++ apply Hin in H. destruct H as [H | ->]; [| lia].
              apply Hmax; auto.
           ++ intros Ht. apply Hin in H. destruct H as [H | ->]; [| lia].
              specialize (Hmax t H H0). lia.
        -- destruct Hinv as (-> & Hmax). split; auto.
           intros t Ht Hst. apply Hin in Ht. destruct Ht as [Ht | ->]; [auto | lia].
Qed.

Lemma fold_bestStep_inv l : forall seen acc,
  bestInv seen acc -> bestInv (seen ++ l) (fold_left bestStep l acc).
Proof.
  induction l as [| snap l IH]; intros seen acc Hinv; simpl.
  - rewrite app_nil_r. exact Hinv.
  - replace (seen ++ snap :: l)%list with ((seen ++ [snap]) ++ l)%list
      by (rewrite <- app_assoc; reflexivity).
    apply IH, bestStep_inv, Hinv.
Qed.

Lemma getBestHTML_inv snapshots :
  exists p, bestInv snapshots (getBestHTML snapshots, p).
Proof.
  destruct snapshots as [| s l].
  - exists (-1). apply bestInv_nil.
  - unfold Browser.getBestHTML.
    pose proof (fold_bestStep_inv (s :: l) [] (None, -1) bestInv_nil) as H.
    simpl app in H.
    destruct (fold_left bestStep (s :: l) (None, -1)) as [b p] eqn:E.
    exists p. exact H.
Qed.

(** What [getBestHTML] returns is never an excluded snapshot, and it is a
    snapshot of the list. *)
Lemma getBestHTML_admitted snapshots s :
  getBestHTML snapshots = Some s -> In s snapshots /\ skipped s = false.
Proof.
  intros Hbest. destruct (getBestHTML_inv snapshots) as [p Hinv].
  rewrite Hbest in Hinv. simpl in Hinv. tauto.
Qed.

(** When every snapshot is an error page and short, nothing is returned. *)
Lemma getBestHTML_all_skipped snapshots :
  (forall t, In t snapshots -> skipped t = true) -> getBestHTML snapshots = None.
Proof.
  intros Hall. destruct (getBestHTML snapshots) as [s |] eqn:E; [| reflexivity].
  apply getBestHTML_admitted in E. destruct E as [Hin Hs].
  rewrite (Hall s Hin) in Hs. discriminate.
Qed.

(** C3 (as amended).  When some snapshot of the list is admitted (not an
    error page that is short) and has a stage priority of at least 0,
    [getBestHTML] returns an admitted snapshot of the list whose priority in
    the table of the code is the largest among the admitted ones, and whose
    trimmed length is the largest among the admitted ones of that priority. *)
Theorem getBestHTML_best snapshots :
  (exists t, In t snapshots /\ skipped t = false /\ 0 <= priorityOf (Stage t)) ->
  exists s, getBestHTML snapshots = Some s /\ In s snapshots /\
    skipped s = false /\
    forall t, In t snapshots -> skipped t = false ->
      priorityOf (Stage t) <= priorityOf (Stage s) /\
      (priorityOf (Stage t) = priorityOf (Stage s) -> Length t <= Length s).
Proof.
  intros (t0 & Hin0 & Hs0 & Hp0).
  destruct (getBestHTML_inv snapshots) as [p Hinv].
  destruct (getBestHTML snapshots) as [s |]; simpl in Hinv.
  - destruct Hinv as (-> & _ & Hin & Hs & Hmax).
    exists s. repeat split; auto; apply Hmax; auto.
  - destruct Hinv as (_ & Hmax). specialize (Hmax t0 Hin0 Hs0). lia.
Qed.

End BestHTML.

(** [getBestHTML_best] on a capture with an initial and a periodic snapshot. *)
Lemma getBestHTML_best_witness :
  exists s,
    Browser.getBestHTML Samples.ToLower Samples.appErrorMatch
      [Samples.snapInitial; Samples.snapError; Samples.snapPeriodic] = Some s /\
    In s [Samples.snapInitial; Samples.snapError; Samples.snapPeriodic] /\
    Browser.skipped Samples.ToLower Samples.appErrorMatch s = false /\
    forall t, In t [Samples.snapInitial; Samples.snapError; Samples.snapPeriodic] ->
      Browser.skipped Samples.ToLower Samples.appErrorMatch t = false ->
      priorityOf (Stage t) <= priorityOf (Stage s) /\
      (priorityOf (Stage t) = priorityOf (Stage s) -> Length t <= Length s).
Proof.
  apply (getBestHTML_best Samples.ToLower Samples.appErrorMatch).
  exists Samples.snapInitial.
  split; [left; reflexivity | split; [reflexivity | vm_compute; discriminate]].
Defined.

(** C3 (as stated) fails: with one rank for periodic and initial, the longer
    initial snapshot should win, but the code ranks periodic above initial and
    returns the shorter periodic one. *)
Lemma getBestHTML_not_spec_order :
  Browser.getBestHTML Samples.ToLower Samples.appErrorMatch
    [Samples.snapInitial; Samples.snapPeriodic] = Some Samples.snapPeriodic /\
  ~ Browser.specBestSnapshot Samples.ToLower Samples.appErrorMatch
      [Samples.snapInitial; Samples.snapPeriodic]
      (Browser.getBestHTML Samples.ToLower Samples.appErrorMatch
         [Samples.snapInitial; Samples.snapPeriodic]).
Proof.
  split; [reflexivity |].
  intros (s & Hs & _ & _ & Hmax).
  change (Some Samples.snapPeriodic = Some s) in Hs. injection Hs as <-.
  destruct (Hmax Samples.snapInitial) as [_ Hlen];
    [left; reflexivity | reflexivity |].
  specialize (Hlen eq_refl). vm_compute in Hlen. apply Hlen. reflexivity.
Qed.

(** A list that holds only an excluded snapshot yields no snapshot at all. *)
Example getBestHTML_only_error_page :
  Browser.getBestHTML Samples.ToLower Samples.appErrorMatch [Samples.snapError] = None.
Proof. reflexivity. Qed.

(** The stages of negative priority can never be chosen, since the running
    best priority starts at -1: a capture that holds only the fallback
    snapshot yields no snapshot. *)
Example getBestHTML_only_fallback :
  Browser.skipped Samples.ToLower Samples.appErrorMatch Samples.snapFallback = false /\
  Browser.getBestHTML Samples.ToLower Samples.appErrorMatch [Samples.snapFallback] = None.
Proof. split; reflexivity. Qed.

End BrowserFacts.

(** ** Selection among the extraction results *)

Module ExtractorFacts.
Import Models Extractor.

Lemma len_nonneg s : 0 <= Go.len s.
Proof. unfold Go.len. lia. Qed.

(** A sum within the range of [int] does not wrap. *)
Lemma wrap_small n : - 2 ^ 63 <= n <= Go.maxInt -> Go.wrap n = n.
Proof.
  unfold Go.wrap, Go.maxInt.
  change (2 ^ 63) with 9223372036854775808.
  change (2 ^ 64) with 18446744073709551616.
  intros Hn. rewrite Z.mod_small by lia. lia.
Qed.

(** For a quality score that leaves room for the bonuses, the composite
    score is the quality score plus the bonuses granted, 75 at most, and no
    sum wraps. *)
Lemma compositeScore_ge result strategy bestScore :
  0 <= Score (ResponseQuality result) <= Go.maxInt - 75 ->
  Score (ResponseQuality result) <= compositeScore result strategy bestScore
    <= Score (ResponseQuality result) + 75.
Proof.
  intros Hscore. unfold compositeScore.
  set (limit := Go.wrap (bestScore - 10)). clearbody limit.
  set (s0 := Score (ResponseQuality result)) in *.
  pose proof (len_nonneg (Content result)) as Hlen.
  assert (Hq : 0 <= Z.quot (Go.len (Content result)) 100)
    by (apply Z.quot_pos; lia).
  assert (Hmax : Go.maxInt = 9223372036854775807) by reflexivity.
  rewrite (wrap_small (s0 + 20)) by lia.
  set (s1 := if (0 <? Go.len (Title result)) && (0 <? Go.len (Content result))
             then s0 + 20 else s0).
  assert (Hs1 : s0 <= s1 <= s0 + 20) by (unfold s1; destruct (_ && _); lia).
  set (bonus := if 50 <? Z.quot (Go.len (Content result)) 100 then 50
                else Z.quot (Go.len (Content result)) 100).
  assert (Hbonus : 0 <= bonus <= 50)
    by (unfold bonus; destruct (Z.ltb_spec 50 (Z.quot (Go.len (Content result)) 100));
        lia).
  rewrite (wrap_small (s1 + bonus)) by lia.
  rewrite (wrap_small (s1 + bonus + 5)) by lia.
  clearbody s1 bonus.
  match goal with |- context [if ?b then _ else _] => destruct b end; lia.
Qed.

(** What the loop of [selectBestResult] computes from index [i] on: either no
    candidate replaces the current best, or the loop ends on a candidate that
    no other one beats. *)
Lemma selectLoop_spec strategies results : forall i best bestScore,
  (selectLoop strategies i results best bestScore = (best, bestScore) /\
   dominated results (runningScores strategies i results bestScore)
     bestScore (Go.len (Content (Result best)))) \/
  (exists (k : nat) r c,
     results !! k = Some r /\
     runningScores strategies i results bestScore !! k = Some c /\
     selectLoop strategies i results best bestScore
       = (mkBest r (strategyAt strategies (i + k)), c) /\
     (bestScore < c \/
      (c = bestScore /\ Go.len (Content (Result best)) < Go.len (Content r))) /\
     dominated results (runningScores strategies i results bestScore)
       c (Go.len (Content r))).
Proof.
  induction results as [| result rest IH]; intros i best bestScore.
  - left. split; [reflexivity |]. intros j cj rj Hc. discriminate Hc.
  - simpl.
    set (c0 := compositeScore result (strategyAt strategies i) bestScore).
    destruct ((bestScore <? c0) ||
              ((c0 =? bestScore) &&
               (Go.len (Content (Result best)) <? Go.len (Content result))))
      eqn:Hsel.
    + (* the candidate replaces the best *)
      assert (Hc0 : bestScore < c0 \/
                    (c0 = bestScore /\
                     Go.len (Content (Result best)) < Go.len (Content result))).
      { apply orb_true_iff in Hsel. destruct Hsel as [H | H].
        - left. apply Z.ltb_lt, H.
        - apply andb_true_iff in H. destruct H as [H1 H2].
          right. split; [apply Z.eqb_eq, H1 | apply Z.ltb_lt, H2]. }
      replace (Z.max bestScore c0) with c0 by lia.
      destruct (IH (S i) (mkBest result (strategyAt strategies i)) c0)
        as [[Hout Hdom] | (k & r & c & Hk & Hck & Hout & Himp & Hdom)].
      * right. exists 0%nat, result, c0.
        rewrite Hout, Nat.add_0_r. repeat split; auto.
        -- destruct j as [| j]; simpl in *.
           ++ injection H as <-. lia.
           ++ destruct (Hdom j cj rj H H0). lia.
        -- destruct j as [| j]; simpl in *.
           ++ injection H0 as <-. lia.
           ++ destruct (Hdom j cj rj H H0). auto.
      * right. exists (S k), r, c.
        rewrite Hout. replace (i + S k)%nat with (S i + k)%nat by lia.
        simpl in Himp.
        repeat split; auto; try lia.
        -- destruct j as [| j]; simpl in *.
           ++ injection H as <-. lia.
           ++ destruct (Hdom j cj rj H H0). lia.
        -- destruct j as [| j]; simpl in *.
           ++ injection H as <-. injection H0 as <-. lia.
           ++ destruct (Hdom j cj rj H H0). auto.
    + (* the best is kept *)
      assert (Hc0 : c0 <= bestScore /\
                    (c0 = bestScore ->
                     Go.len (Content result) <= Go.len (Content (Result best)))).
      { apply orb_false_iff in Hsel. destruct Hsel as [H1 H2].
        apply Z.ltb_ge in H1. split; [exact H1 |].
        intros ->. apply andb_false_iff in H2. destruct H2 as [H2 | H2].
        - apply Z.eqb_neq in H2. congruence.
        - apply Z.ltb_ge in H2. exact H2. }
      replace (Z.max bestScore c0) with bestScore by lia.
      destruct (IH (S i) best bestScore)
        as [[Hout Hdom] | (k & r & c & Hk & Hck & Hout & Himp & Hdom)].
      * left. split; [exact Hout |].
        intros j cj rj H H0. destruct j as [| j]; simpl in *.
        -- injection H as <-. injection H0 as <-. exact Hc0.
        -- apply (Hdom j cj rj H H0).
      * right. exists (S k), r, c.
        rewrite Hout. replace (i + S k)%nat with (S i + k)%nat by lia.
        repeat split; auto.
        -- destruct j as [| j]; simpl in *.
           ++ injection H as <-. lia.
           ++ destruct (Hdom j cj rj H H0). lia.
        -- destruct j as [| j]; simpl in *.
           ++ injection H as <-. injection H0 as <-. lia.
           ++ destruct (Hdom j cj rj H H0). auto.
Qed.

(** C7 (as amended).  For a non-empty list of candidates whose quality
    scores are not negative and leave room for the bonuses in an [int] (they
    are at most [Go.maxInt - 75]), [selectBestResult] returns one of the
    candidates, with its strategy name, such that no candidate has a higher
    composite score and no candidate of the same composite score has a longer
    content.  The composite score is [compositeScore]: quality score, plus 20
    when title and content are both non-empty, plus one point per 100 bytes
    of content capped at 50, plus 5 for the readability strategy when its
    content is non-empty and its score is no more than 10 points below the
    best composite score of the candidates before it. *)
Theorem selectBestResult_best results strategies :
  results <> [] ->
  (forall r, In r results -> 0 <= Score (ResponseQuality r) <= Go.maxInt - 75) ->
  exists (k : nat) r c,
    results !! k = Some r /\
    runningScores strategies 0 results (-1) !! k = Some c /\
    selectBestResult results strategies = mkBest r (strategyAt strategies k) /\
    dominated results (runningScores strategies 0 results (-1))
      c (Go.len (Content r)).
Proof.
  intros Hne Hq.
  destruct results as [| r0 rest]; [congruence |].
  unfold selectBestResult.
  destruct (selectLoop_spec strategies (r0 :: rest) 0 zeroBest (-1))
    as [[_ Hdom] | (k & r & c & Hk & Hck & Hout & _ & Hdom)].
  - (* impossible: the first candidate scores at least 0 *)
    exfalso.
    destruct (Hdom 0%nat _ r0 eq_refl eq_refl) as [Hle _].
    specialize (Hq r0 (or_introl eq_refl)).
    pose proof (compositeScore_ge r0 (strategyAt strategies 0) (-1) Hq) as Hge.
    lia.
  - exists k, r, c. rewrite Hout. auto.
Qed.

(** [selectBestResult_best] on a readability result and a simple result. *)
Lemma selectBestResult_best_witness :
  exists (k : nat) r c,
    [sampleReadability; sampleSimple] !! k = Some r /\
    runningScores ["readability"; "simple"] 0
      [sampleReadability; sampleSimple] (-1) !! k = Some c /\
    selectBestResult [sampleReadability; sampleSimple] ["readability"; "simple"]
      = mkBest r (strategyAt ["readability"; "simple"] k) /\
    dominated [sampleReadability; sampleSimple]
      (runningScores ["readability"; "simple"] 0
         [sampleReadability; sampleSimple] (-1))
      c (Go.len (Content r)).
Proof.
  apply (selectBestResult_best [sampleReadability; sampleSimple]
           ["readability"; "simple"]).
  - discriminate.
  - intros r [<- | [<- | []]]; vm_compute; split; discriminate.
Defined.

(** C7 (as stated) fails: a readability result with empty content that is
    within 10 points of the leader gets no bonus.  With the bonus of the
    specification it would score 21 against 20 and win; the code scores it 16
    and keeps the structured-data result. *)
Lemma selectBestResult_no_bonus_on_empty_content :
  Strategy (selectBestResult [sampleJSONLD; sampleReadability]
              ["jsonld"; "readability"]) = "jsonld" /\
  compositeScore sampleReadability "readability" 20 = 16 /\
  specCompositeScore sampleReadability "readability" 20 = 21 /\
  Strategy (fst (specSelectLoop ["jsonld"; "readability"] 0
                   [sampleJSONLD; sampleReadability] zeroBest (-1)))
    = "readability".
Proof. repeat split. Qed.

(** With a non-empty content the readability result does get the bonus and
    wins a near tie. *)
Example selectBestResult_readability_near_tie :
  Strategy (selectBestResult
              [candidateOf "Headline" "Body from the structured data." 24;
               candidateOf "Headline" "Body from readability." 22]
              ["jsonld"; "readability"]) = "readability".
Proof. reflexivity. Qed.

(** An empty list of candidates. *)
Example selectBestResult_none :
  selectBestResult [] [] = mkBest zeroResponse "none".
Proof. reflexivity. Qed.

End ExtractorFacts.

(** ** Image engine: deduplication of the ranked candidates *)

Module ImagesFacts.
Import Models Images.
Local Open Scope list_scope.

Lemma firstAlt_snoc url l c :
  firstAlt url (l ++ [c]) =
  if String.eqb (firstAlt url l) ""
  then (if String.eqb (CandURL c) url then CandAlt c else "")
  else firstAlt url l.
Proof.
  induction l as [| h l IH]; simpl.
  - destruct (String.eqb_spec (CandURL c) url); simpl; [| reflexivity].
    destruct (String.eqb_spec (CandAlt c) ""); simpl; congruence.
  - destruct (String.eqb_spec (CandURL h) url); simpl; [| exact IH].
    destruct (String.eqb_spec (CandAlt h) "") as [Hh | Hh]; simpl; [exact IH |].
    destruct (String.eqb_spec (CandAlt h) ""); congruence.
Qed.

Lemma firstAlt_absent url l :
  (forall c, c ∈ l -> CandURL c <> url) -> firstAlt url l = "".
Proof.
  induction l as [| h l IH]; intros Hl; simpl; [reflexivity |].
  destruct (String.eqb_spec (CandURL h) url) as [E | E]; simpl.
  - exfalso. apply (Hl h); [left | exact E].
  - apply IH. intros c Hc. apply Hl. right. exact Hc.
Qed.

Lemma topInv_nil : topInv [] (∅, []).
Proof.
  split; [constructor |]. split; [| split].
  - intros u. split.
    + intros H. inversion H.
    + intros (c & H & _). inversion H.
  - intros u H. inversion H.
  - intros u _. apply lookup_empty.
Qed.

Lemma topStep_inv seen acc c :
  topInv seen acc -> topInv (seen ++ [c]) (topStep acc c).
Proof.
  destruct acc as [m ord]. intros (Hnd & Hdom & Hsome & Hnone).
  unfold topStep.
  destruct (m !! CandURL c) as [img |] eqn:Hm.
  - (* the URL is known already *)
    assert (Hin : CandURL c ∈ ord).
    { destruct (decide (CandURL c ∈ ord)) as [H | H]; [exact H |].
      rewrite (Hnone _ H) in Hm. discriminate. }
    rewrite (Hsome _ Hin) in Hm. injection Hm as <-. simpl.
    assert (Hdom' : forall u, u ∈ ord <->
                      exists c0, c0 ∈ seen ++ [c] /\ CandURL c0 = u).
    { intros u. rewrite Hdom. split.
      - intros (c0 & H0 & E). exists c0. split; [| exact E].
        apply elem_of_app. left. exact H0.
      - intros (c0 & H0 & E). apply elem_of_app in H0.
        destruct H0 as [H0 | H0]; [exists c0; auto |].
        apply list_elem_of_singleton in H0. subst c0.
        apply Hdom. rewrite <- E. exact Hin. }
    destruct (String.eqb_spec (firstAlt (CandURL c) seen) "") as [Hempty | Hfull];
      simpl.
    + destruct (String.eqb_spec (CandAlt c) "") as [Hc | Hc]; simpl.
      * (* nothing to backfill *)
        split; [exact Hnd |]. split; [exact Hdom' |]. split; [| exact Hnone].
        intros u Hu. rewrite (Hsome u Hu), firstAlt_snoc.
        destruct (String.eqb_spec (firstAlt u seen) "") as [E | E];
          [| reflexivity].
        rewrite E. destruct (String.eqb_spec (CandURL c) u); congruence.
      * (* the alt text is backfilled *)
        split; [exact Hnd |]. split; [exact Hdom' |]. split.
        -- intros u Hu. destruct (decide (CandURL c = u)) as [Heq | Hne].
           ++ subst u. rewrite lookup_insert_eq, firstAlt_snoc, Hempty. simpl.
              rewrite String.eqb_refl. reflexivity.
           ++ rewrite lookup_insert_ne by exact Hne.
              rewrite (Hsome u Hu), firstAlt_snoc.
              destruct (String.eqb_spec (firstAlt u seen) "") as [E | E];
                [| reflexivity].
              rewrite E. destruct (String.eqb_spec (CandURL c) u); congruence.
        -- intros u Hu. rewrite lookup_insert_ne; [apply Hnone, Hu |].
           intros E. subst u. contradiction.
    + (* the first alt text is kept *)
      split; [exact Hnd |]. split; [exact Hdom' |]. split; [| exact Hnone].
      intros u Hu. rewrite (Hsome u Hu), firstAlt_snoc.
      destruct (String.eqb_spec (firstAlt u seen) "") as [E | E]; [| reflexivity].
      rewrite E. destruct (String.eqb_spec (CandURL c) u); congruence.
  - (* a new URL *)
    assert (Hnin : CandURL c ∉ ord).
    { intros H. rewrite (Hsome _ H) in Hm. discriminate. }
    assert (Hfresh : forall c0, c0 ∈ seen -> CandURL c0 <> CandURL c).
    { intros c0 H0 E. apply Hnin, Hdom. exists c0. auto. }
    split; [| split; [| split]].
    + apply NoDup_app. split; [exact Hnd |]. split; [| apply NoDup_singleton].
      intros x Hx Hx'. apply list_elem_of_singleton in Hx'. congruence.
    + intros u. rewrite elem_of_app, list_elem_of_singleton, Hdom. split.
      * intros [(c0 & H0 & E) | ->].
        -- exists c0. split; [apply elem_of_app; left; exact H0 | exact E].
        -- exists c. split; [| reflexivity].
           apply elem_of_app. right. apply list_elem_of_singleton. reflexivity.
      * intros (c0 & H0 & E). apply elem_of_app in H0. destruct H0 as [H0 | H0].
        -- left. exists c0. auto.
        -- apply list_elem_of_singleton in H0. subst c0. right. congruence.
    + intros u Hu. apply elem_of_app in Hu. destruct Hu as [Hu | Hu].
      * assert (Hne : CandURL c <> u) by (intros E; subst u; contradiction).
        rewrite lookup_insert_ne by exact Hne.
        rewrite (Hsome u Hu), firstAlt_snoc.
        destruct (String.eqb_spec (firstAlt u seen) "") as [E | E];
          [| reflexivity].
        rewrite E. destruct (String.eqb_spec (CandURL c) u); congruence.
      * apply list_elem_of_singleton in Hu. subst u.
        rewrite lookup_insert_eq, firstAlt_snoc.
        rewrite (firstAlt_absent _ _ Hfresh). simpl.
        rewrite String.eqb_refl. reflexivity.
    + intros u Hu. rewrite lookup_insert_ne.
      * apply Hnone. intros H. apply Hu, elem_of_app. left. exact H.
      * intros E. subst u. apply Hu, elem_of_app. right.
        apply list_elem_of_singleton. reflexivity.
Qed.

Lemma fold_topStep_inv l : forall seen acc,
  topInv seen acc -> topInv (seen ++ l) (fold_left topStep l acc).
Proof.
  induction l as [| c l IH]; intros seen acc Hinv; simpl.
  - rewrite app_nil_r. exact Hinv.
  - replace (seen ++ c :: l)%list with ((seen ++ [c]) ++ l)%list
      by (rewrite <- app_assoc; reflexivity).
    apply IH, topStep_inv, Hinv.
Qed.

(** [getTopImages] on any list of candidates: the URLs of the result are
    pairwise distinct, there are at most [limit] of them, each is the URL of a
    candidate, and each image carries the first non-empty alt text among the
    candidates with its URL. *)
Lemma getTopImages_spec candidates limit :
  NoDup (map ImageURL (getTopImages candidates limit)) /\
  (length (getTopImages candidates limit) <= Z.to_nat limit)%nat /\
  forall img, img ∈ getTopImages candidates limit ->
    (exists c, c ∈ candidates /\ CandURL c = ImageURL img) /\
    ImageAlt img = firstAlt (ImageURL img) candidates.
Proof.
  unfold getTopImages.
  pose proof (fold_topStep_inv candidates [] (∅, []) topInv_nil) as Hinv.
  simpl app in Hinv.
  destruct (fold_left topStep candidates (∅, [])) as [m ord].
  destruct Hinv as (Hnd & Hdom & Hsome & _).
  assert (Htake : forall u, u ∈ take (Z.to_nat limit) ord -> u ∈ ord).
  { intros u Hu. exact (subseteq_take _ _ u Hu). }
  assert (Hmap : map ImageURL
                   (map (fun url => default (mkImage "" "") (m !! url))
                        (take (Z.to_nat limit) ord))
                 = take (Z.to_nat limit) ord).
  { rewrite map_map. rewrite <- (map_id (take (Z.to_nat limit) ord)) at 2.
    apply map_ext_in. intros u Hu. apply list_elem_of_In in Hu.
    rewrite (Hsome u (Htake u Hu)). reflexivity. }
  split; [| split].
  - rewrite Hmap. exact (sublist_NoDup _ _ Hnd (sublist_take _ _)).
  - rewrite length_map, length_take. lia.
  - intros img Himg. apply list_elem_of_In, in_map_iff in Himg.
    destruct Himg as (u & <- & Hu). apply list_elem_of_In in Hu.
    rewrite (Hsome u (Htake u Hu)). simpl. split; [| reflexivity].
    apply Hdom, Htake, Hu.
Qed.

End ImagesFacts.

(** ** Image engine: the link-density check *)

Module LinkListFacts.
Import Models Images Dom Engine.
Local Open Scope list_scope.

Section LinkList.

Variable L : Lib.GoLib.
Variable ie : ImageExtractor.

Local Abbreviation widthAttr := Engine.widthAttr.
Local Abbreviation styleWidthLarge := (Engine.styleWidthLarge L ie).
Local Abbreviation sizeStep := (Engine.sizeStep L ie).
Local Abbreviation linkListContainer := (Engine.linkListContainer L ie).
Local Abbreviation isInLinkList := (Engine.isInLinkList L ie).

(** Once a large image was seen, the flag stays up. *)
Lemma sizeStep_large_stays n img : fst (sizeStep (true, n) img) = true.
Proof.
  unfold Engine.sizeStep.
  destruct (widthAttr img) as [w |]; simpl; [| reflexivity].
  destruct (400 <? w); simpl; [reflexivity |]. destruct (0 <? w); reflexivity.
Qed.

Lemma sizes_large_stays imgs : forall n,
  fst (fold_left sizeStep imgs (true, n)) = true.
Proof.
  induction imgs as [| img imgs IH]; intros n; [reflexivity |].
  cbn [fold_left].
  pose proof (sizeStep_large_stays n img) as Hstep.
  destruct (sizeStep (true, n) img) as [b m]. simpl in Hstep. subst b.
  apply IH.
Qed.

(** An image with a width signal above 400 raises the flag. *)
Lemma sizeStep_large b n img :
  (exists w, widthAttr img = Some w /\ 400 < w) \/ styleWidthLarge img = true ->
  fst (sizeStep (b, n) img) = true.
Proof.
  intros Hlarge. destruct b; [apply sizeStep_large_stays |].
  unfold Engine.sizeStep.
  destruct Hlarge as [(w & Hw & Hgt) | Hstyle].
  - rewrite Hw. apply Z.ltb_lt in Hgt. rewrite Hgt. reflexivity.
  - destruct (widthAttr img) as [w |]; simpl.
    + destruct (400 <? w); simpl; [reflexivity |].
      destruct (0 <? w); simpl; rewrite Hstyle; reflexivity.
    + rewrite Hstyle. reflexivity.
Qed.

Lemma sizes_large imgs : forall img acc,
  img ∈ imgs ->
  (exists w, widthAttr img = Some w /\ 400 < w) \/ styleWidthLarge img = true ->
  fst (fold_left sizeStep imgs acc) = true.
Proof.
  induction imgs as [| h imgs IH]; intros img [b n] Hin Hlarge.
  - inversion Hin.
  - cbn [fold_left]. apply elem_of_cons in Hin. destruct Hin as [-> | Hin].
    + pose proof (sizeStep_large b n h Hlarge) as Hstep.
      destruct (sizeStep (b, n) h) as [b' m]. simpl in Hstep. subst b'.
      apply sizes_large_stays.
    + eapply IH; eauto.
Qed.

(** Images that all carry a width attribute between 1 and 400, and no
    larger width in their style, are all counted as small. *)
Lemma sizes_small imgs : forall n,
  (forall img, img ∈ imgs ->
     (exists w, widthAttr img = Some w /\ 0 < w <= 400) /\
     styleWidthLarge img = false) ->
  fold_left sizeStep imgs (false, n) = (false, n + Z.of_nat (length imgs)).
Proof.
  induction imgs as [| h imgs IH]; intros n Hall.
  - simpl. f_equal. lia.
  - destruct (Hall h) as [(w & Hw & Hpos & Hle) Hstyle]; [left |].
    cbn [fold_left].
    assert (Hstep : sizeStep (false, n) h = (false, n + 1)).
    { unfold Engine.sizeStep. rewrite Hw.
      replace (400 <? w) with false by (symmetry; apply Z.ltb_ge; lia).
      replace (0 <? w) with true by (symmetry; apply Z.ltb_lt; lia).
      rewrite Hstyle. reflexivity. }
    rewrite Hstep, IH.
    + f_equal. rewrite length_cons. lia.
    + intros img Hin. apply Hall. right. exact Hin.
Qed.

(** [isInLinkList] returns [true] exactly when one of the first five
    ancestors passes the test of the loop. *)
Lemma isInLinkList_iff s :
  isInLinkList s = true <->
  exists (i : nat) container,
    (i < 5)%nat /\
    ancestorSelections (parents s) !! i = Some container /\
    linkListContainer container = true.
Proof.
  unfold Engine.isInLinkList. rewrite existsb_exists. split.
  - intros (p & Hin & Hp). apply list_elem_of_In, elem_of_take in Hin.
    destruct Hin as (i & Hi & Hlt). exists i, p. auto.
  - intros (i & p & Hlt & Hi & Hp). exists p. split; [| exact Hp].
    apply list_elem_of_In, elem_of_take. exists i. auto.
Qed.

(** C8 (as amended).  (1) A candidate is excluded by the link-density check
    when one of its first five ancestors contains at least 6 links and at
    least 2 images (so also 6 links and 3 images), every contained image
    carrying a width attribute that reads as an integer from 1 to 400 and no
    inline-style width above 400.  (2) A container that is not a [ul], [ol]
    or [nav] element and contains an image with a width signal above 400
    (width attribute or inline style) does not pass the test of the loop.
    (3) A candidate is excluded only when one of its first five ancestors
    passes that test: inside a container as in (2), only another ancestor can
    exclude it. *)
Theorem linkDensity_check :
  (forall s (i : nat) container,
     (i < 5)%nat ->
     ancestorSelections (parents s) !! i = Some container ->
     6 <= Engine.linkCount container ->
     2 <= Engine.imgCount container ->
     (forall img, img ∈ Find [Just (Tag "img")] container ->
        (exists w, widthAttr img = Some w /\ 0 < w <= 400) /\
        styleWidthLarge img = false) ->
     isInLinkList s = true) /\
  (forall container img,
     Engine.isListTag container = false ->
     img ∈ Find [Just (Tag "img")] container ->
     (exists w, widthAttr img = Some w /\ 400 < w) \/ styleWidthLarge img = true ->
     linkListContainer container = false) /\
  (forall s,
     isInLinkList s = true ->
     exists (i : nat) container,
       (i < 5)%nat /\
       ancestorSelections (parents s) !! i = Some container /\
       linkListContainer container = true).
Proof.
  split; [| split].
  - intros s i container Hlt Hi Hlinks Himgs Hsmall.
    apply isInLinkList_iff. exists i, container.
    split; [exact Hlt |]. split; [exact Hi |].
    unfold Engine.linkListContainer.
    replace (3 <=? Engine.linkCount container) with true
      by (symmetry; apply Z.leb_le; lia).
    replace (2 <=? Engine.imgCount container) with true
      by (symmetry; apply Z.leb_le; lia).
    simpl andb. cbv iota.
    destruct (Engine.isListTag container); [reflexivity |].
    rewrite (sizes_small _ 0 Hsmall). simpl negb.
    replace (6 <=? Engine.linkCount container) with true
      by (symmetry; apply Z.leb_le; lia).
    unfold Engine.imgCount in Himgs.
    replace (2 <=? 0 + Z.of_nat (length (Find [Just (Tag "img")] container)))
      with true by (symmetry; apply Z.leb_le; lia).
    reflexivity.
  - intros container img Hlist Hin Hlarge.
    unfold Engine.linkListContainer. rewrite Hlist.
    destruct ((3 <=? Engine.linkCount container) &&
              (2 <=? Engine.imgCount container)); [| reflexivity].
    pose proof (sizes_large _ img (false, 0) Hin Hlarge) as Hflag.
    destruct (fold_left sizeStep (Find [Just (Tag "img")] container) (false, 0))
      as [flag small].
    simpl in Hflag. rewrite Hflag. reflexivity.
  - intros s. apply isInLinkList_iff.
Qed.

End LinkList.

(** [linkDensity_check] (1) on a block of 6 links and 3 thumbnails of
    width 150: the first thumbnail is excluded. *)
Lemma linkDensity_check_witness :
  Engine.isInLinkList Pages.lib Pages.extractor
    (Pages.first [Just (Tag "img")] Pages.thumbnailGrid) = true.
Proof.
  apply (proj1 (linkDensity_check Pages.lib Pages.extractor)
           (Pages.first [Just (Tag "img")] Pages.thumbnailGrid) 1%nat
           (Pages.first [Just (Class "more")] Pages.thumbnailGrid)).
  - lia.
  - reflexivity.
  - vm_compute. discriminate.
  - vm_compute. discriminate.
  - intros img Himg. apply list_elem_of_In in Himg. vm_compute in Himg.
    destruct Himg as [<- | [<- | [<- | []]]];
      (split; [exists 150; split; [reflexivity | lia] | reflexivity]).
Defined.

(** C8 (as stated) fails on both halves.  Three images with the explicit
    width 0 are not counted as small, so a block of 6 links and 3 such images
    excludes nothing; and in a block of 6 links and 3 images with one image of
    width 800, a thumbnail that sits in a list inside the block is excluded all
    the same, by the list. *)
Lemma linkDensity_not_as_stated :
  (Engine.linkCount (Pages.first [Just (Class "more")] Pages.zeroWidthGrid) = 6 /\
   Engine.imgCount (Pages.first [Just (Class "more")] Pages.zeroWidthGrid) = 3 /\
   Engine.isInLinkList Pages.lib Pages.extractor
     (Pages.first [Just (Tag "img")] Pages.zeroWidthGrid) = false) /\
  (Engine.linkCount (Pages.first [Just (Class "more")] Pages.gridWithList) = 6 /\
   Engine.imgCount (Pages.first [Just (Class "more")] Pages.gridWithList) = 3 /\
   Engine.isListTag (Pages.first [Just (Class "more")] Pages.gridWithList) = false /\
   Engine.widthAttr (Pages.first [Just (Tag "img")] Pages.gridWithList) = Some 800 /\
   Engine.isInLinkList Pages.lib Pages.extractor
     (Pages.first [Below (Tag "li") (Tag "img")] Pages.gridWithList) = true).
Proof. vm_compute. repeat split. Qed.

(** Without the inner list, the image of width 800 keeps every image of the
    block. *)
Example linkDensity_large_image_keeps :
  forallb (fun s => negb (Engine.isInLinkList Pages.lib Pages.extractor s))
    (FindDoc [Just (Tag "img")] Pages.gridWithLarge) = true.
Proof. reflexivity. Qed.

End LinkListFacts.

(** ** Image engine: candidates, ranking and the resulting list *)

Module EngineFacts.
Import Models Images Dom Engine.
Local Open Scope list_scope.

Lemma bubblePass_perm k : forall l, Permutation (bubblePass k l) l.
Proof.
  induction k as [| k IH]; intros l; [destruct l; reflexivity |].
  destruct l as [| a [| b rest]]; simpl; try reflexivity.
  destruct (outOfOrder a b).
  - rewrite (IH (a :: rest)). apply perm_swap.
  - rewrite (IH (b :: rest)). reflexivity.
Qed.

Lemma bubbleLoop_perm todo : forall l, Permutation (bubbleLoop todo l) l.
Proof.
  induction todo as [| todo IH]; intros l; [reflexivity |].
  cbn [bubbleLoop]. rewrite IH. apply bubblePass_perm.
Qed.

(** The ranking only reorders the candidates. *)
Lemma sortCandidates_perm l : Permutation (sortCandidates l) l.
Proof. apply bubbleLoop_perm. Qed.

Section Engine.

Variable L : Lib.GoLib.
Variable ie : ImageExtractor.
Variable R : Readers.

Local Abbreviation cleanImageURL := (Engine.cleanImageURL L).
Local Abbreviation toAbsoluteURL := (Engine.toAbsoluteURL L).
Local Abbreviation extractOgImage := (Engine.extractOgImage L ie).
Local Abbreviation extractJSONLDImage := (Engine.extractJSONLDImage L ie R).
Local Abbreviation extractImgTag := (Engine.extractImgTag L ie R).
Local Abbreviation extractArticleImgTags := (Engine.extractArticleImgTags L ie R).
Local Abbreviation isInExcludedSection := (Engine.isInExcludedSection L ie).
Local Abbreviation filterArticleImages := (Images.filterArticleImages ie).
Local Abbreviation passesBasicFilters := (Images.passesBasicFilters ie).
Local Abbreviation ranked := (Engine.ranked L ie R).
Local Abbreviation ExtractImagesFromHTML := (Engine.ExtractImagesFromHTML L ie R).

(** The Open Graph image becomes a candidate exactly when its URL is not
    empty, resolves against the base URL and has an image extension. *)
Lemma extractOgImage_iff doc baseURL c :
  extractOgImage doc baseURL = Some c <->
  exists absURL,
    ogImageURL (readOgMeta doc) <> "" /\
    toAbsoluteURL (ogImageURL (readOgMeta doc)) baseURL = Go.Ok absURL /\
    imageExt (regexes ie) (cleanImageURL absURL) = true /\
    c = mkCandidate (cleanImageURL absURL)
          (Lib.TrimSpace L (ogImageAlt (readOgMeta doc)))
          (fst (completeDimensions ie (ogWidth (readOgMeta doc))
                  (ogHeight (readOgMeta doc)) (cleanImageURL absURL)))
          (snd (completeDimensions ie (ogWidth (readOgMeta doc))
                  (ogHeight (readOgMeta doc)) (cleanImageURL absURL)))
          true false "og" 0%Q 0.
Proof.
  unfold Engine.extractOgImage.
  destruct (String.eqb_spec (ogImageURL (readOgMeta doc)) "") as [E | E].
  - split; [discriminate | intros (a & H & _); contradiction].
  - destruct (toAbsoluteURL (ogImageURL (readOgMeta doc)) baseURL)
      as [absURL | e].
    + destruct (imageExt (regexes ie) (cleanImageURL absURL)) eqn:Hext; simpl.
      * destruct (completeDimensions ie (ogWidth (readOgMeta doc))
                    (ogHeight (readOgMeta doc)) (cleanImageURL absURL)) as [w h]
          eqn:Hd.
        simpl. split.
        -- intros H. injection H as <-. exists absURL. rewrite Hd.
           repeat split; auto.
        -- intros (a & _ & Ha & _ & ->). injection Ha as <-. rewrite Hd.
           reflexivity.
      * split; [discriminate |].
        intros (a & _ & Ha & Hx & _). injection Ha as <-. congruence.
    + split; [discriminate | intros (a & _ & Ha & _); discriminate].
Qed.

Lemma extractJSONLDImage_some doc baseURL c :
  extractJSONLDImage doc baseURL = Some c ->
  exists absURL,
    toAbsoluteURL (ExtractJSONLDImage R doc) baseURL = Go.Ok absURL /\
    imageExt (regexes ie) (cleanImageURL absURL) = true /\
    CandURL c = cleanImageURL (cleanImageURL absURL) /\
    InArticle c = true /\ Source c = "jsonld".
Proof.
  unfold Engine.extractJSONLDImage.
  destruct (String.eqb (ExtractJSONLDImage R doc) ""); [discriminate |].
  destruct (toAbsoluteURL (ExtractJSONLDImage R doc) baseURL) as [absURL | e];
    [| discriminate].
  destruct (imageExt (regexes ie) (cleanImageURL absURL)) eqn:Hext; simpl;
    [| discriminate].
  destruct (ExtractJSONLD R doc) as [headline found].
  intros H. injection H as <-. exists absURL. auto.
Qed.

Lemma extractImgTag_some s baseURL c :
  extractImgTag s baseURL = Some c ->
  exists absURL,
    toAbsoluteURL (imgSource L ie s) baseURL = Go.Ok absURL /\
    imageExt (regexes ie) absURL = true /\
    CandURL c = cleanImageURL (cleanImageURL absURL) /\
    InArticle c = Engine.isInArticleScope L ie s /\ Source c = "img".
Proof.
  unfold Engine.extractImgTag.
  destruct (String.eqb (imgSource L ie s) ""); [discriminate |].
  destruct (toAbsoluteURL (imgSource L ie s) baseURL) as [absURL | e];
    [| discriminate].
  destruct (imageExt (regexes ie) absURL) eqn:Hext; simpl; [| discriminate].
  destruct (extractDimensions L ie s) as [w h].
  destruct (completeDimensions ie w h absURL) as [w' h'].
  intros H. injection H as <-. exists absURL. auto.
Qed.

(** The DOM images that become candidates: those below a container
    matched by the article selectors and not itself inside an excluded
    section, for which [extractImgTag] yields a candidate. *)
Lemma extractArticleImgTags_iff doc baseURL c :
  c ∈ extractArticleImgTags doc baseURL <->
  exists container img c0,
    container ∈ FindDoc articleContainers doc /\
    isInExcludedSection container = false /\
    img ∈ Find [Just (Tag "img")] container /\
    extractImgTag img baseURL = Some c0 /\
    c = markInArticle c0.
Proof.
  unfold Engine.extractArticleImgTags.
  rewrite list_elem_of_In, in_flat_map. split.
  - intros (container & Hc & Hin). unfold Engine.containerImages in Hin.
    destruct (isInExcludedSection container) eqn:Hex; [destruct Hin |].
    apply in_flat_map in Hin. destruct Hin as (img & Himg & Hin).
    destruct (extractImgTag img baseURL) as [c0 |] eqn:Hc0; [| destruct Hin].
    destruct Hin as [<- | []].
    exists container, img, c0. rewrite !list_elem_of_In. auto.
  - intros (container & img & c0 & Hc & Hex & Himg & Hc0 & ->).
    exists container. split; [apply list_elem_of_In, Hc |].
    unfold Engine.containerImages. rewrite Hex.
    apply in_flat_map. exists img. split; [apply list_elem_of_In, Himg |].
    rewrite Hc0. left. reflexivity.
Qed.

(** What [filterArticleImages] keeps. *)
Lemma filterArticleImages_iff candidates c' :
  c' ∈ filterArticleImages candidates <->
  exists c, c ∈ candidates /\ InArticle c = true /\
            passesBasicFilters c = true /\ c' = scored ie c.
Proof.
  induction candidates as [| h rest IH].
  - simpl. split; [intros H; inversion H | intros (c & H & _); inversion H].
  - cbn [Images.filterArticleImages].
    destruct (InArticle h) eqn:Hin; cbn [negb].
    + destruct (passesBasicFilters h) eqn:Hpass; cbn [negb].
      * split.
        -- intros H. apply elem_of_cons in H. destruct H as [-> | H].
           ++ exists h. split; [left | auto].
           ++ apply IH in H. destruct H as (c & Hc & H).
              exists c. split; [right; exact Hc | exact H].
        -- intros (c & Hc & Hi & Hp & ->). apply elem_of_cons in Hc.
           destruct Hc as [-> | Hc]; [left |].
           right. apply IH. exists c. auto.
      * split.
        -- intros H. apply IH in H. destruct H as (c & Hc & H).
           exists c. split; [right; exact Hc | exact H].
        -- intros (c & Hc & Hi & Hp & ->). apply elem_of_cons in Hc.
           destruct Hc as [-> | Hc]; [congruence |]. apply IH. exists c. auto.
    + split.
      * intros H. apply IH in H. destruct H as (c & Hc & H).
        exists c. split; [right; exact Hc | exact H].
      * intros (c & Hc & Hi & Hp & ->). apply elem_of_cons in Hc.
        destruct Hc as [-> | Hc]; [congruence |]. apply IH. exists c. auto.
Qed.

(** Every candidate that reaches [getTopImages] carries a URL that went
    through [cleanImageURL]. *)
Lemma ranked_cleaned arrival doc baseURL c :
  c ∈ ranked arrival doc baseURL -> exists raw, CandURL c = cleanImageURL raw.
Proof.
  unfold Engine.ranked. intros Hc.
  rewrite (sortCandidates_perm _) in Hc.
  apply filterArticleImages_iff in Hc. destruct Hc as (c0 & Hc0 & _ & _ & ->).
  simpl. unfold Engine.collect in Hc0.
  apply list_elem_of_In, in_flat_map in Hc0. destruct Hc0 as (p & _ & Hc0).
  destruct p; cbn [Engine.batch] in Hc0.
  - destruct (extractOgImage (preprocessHTML L ie doc) baseURL) as [c1 |] eqn:E;
      [| destruct Hc0].
    destruct Hc0 as [<- | []]. apply extractOgImage_iff in E.
    destruct E as (absURL & _ & _ & _ & ->). exists absURL. reflexivity.
  - destruct (extractJSONLDImage (preprocessHTML L ie doc) baseURL) as [c1 |] eqn:E;
      [| destruct Hc0].
    destruct Hc0 as [<- | []]. apply extractJSONLDImage_some in E.
    destruct E as (absURL & _ & _ & -> & _). eauto.
  - apply list_elem_of_In, extractArticleImgTags_iff in Hc0.
    destruct Hc0 as (container & img & c1 & _ & _ & _ & E & ->).
    apply extractImgTag_some in E. destruct E as (absURL & _ & _ & E & _).
    simpl. rewrite E. eauto.
Qed.

(** Entries of a list without repeated URLs that have the same URL are the
    same entry. *)
Lemma same_URL_same_entry (images : list Image) a b :
  NoDup (map ImageURL images) -> a ∈ images -> b ∈ images ->
  ImageURL a = ImageURL b -> a = b.
Proof.
  induction images as [| x images IH]; intros Hnd Ha Hb E.
  - apply elem_of_nil in Ha. destruct Ha.
  - cbn [map] in Hnd. apply NoDup_cons in Hnd. destruct Hnd as [Hx Hnd].
    apply elem_of_cons in Ha. apply elem_of_cons in Hb.
    destruct Ha as [-> | Ha], Hb as [-> | Hb].
    + reflexivity.
    + exfalso. apply Hx. rewrite E. apply list_elem_of_fmap_2, Hb.
    + exfalso. apply Hx. rewrite <- E. apply list_elem_of_fmap_2, Ha.
    + apply IH; assumption.
Qed.

(** X27. Whatever the document, the base URL and the order in which the
    three batches arrive, the image list holds no two entries with the same
    URL and at most 10 entries.  Every URL in it went through
    [cleanImageURL]: it is what [String] gives for a parsed URL whose
    [RawQuery] has been emptied (or a string that [url.Parse] refuses,
    unchanged), so that two entries whose URLs come in this way from URLs that
    differ in their [RawQuery] only are one and the same entry.  The alt text
    of each entry is the first non-empty alt text among the ranked candidates
    merged under its URL (empty when they have none). *)
Theorem ExtractImagesFromHTML_dedup arrival doc baseURL :
  NoDup (map ImageURL (ExtractImagesFromHTML arrival doc baseURL)) /\
  (length (ExtractImagesFromHTML arrival doc baseURL) <= 10)%nat /\
  (forall img, img ∈ ExtractImagesFromHTML arrival doc baseURL ->
     (exists raw,
        match Lib.url_Parse L raw with
        | Go.Ok parsed => ImageURL img = Lib.url_String L (Lib.clearRawQuery parsed)
        | Go.Err _ => ImageURL img = raw
        end) /\
     (exists c, c ∈ ranked arrival doc baseURL /\ CandURL c = ImageURL img) /\
     ImageAlt img = firstAlt (ImageURL img) (ranked arrival doc baseURL)) /\
  (forall a b parsed_a parsed_b,
     a ∈ ExtractImagesFromHTML arrival doc baseURL ->
     b ∈ ExtractImagesFromHTML arrival doc baseURL ->
     ImageURL a = Lib.url_String L (Lib.clearRawQuery parsed_a) ->
     ImageURL b = Lib.url_String L (Lib.clearRawQuery parsed_b) ->
     Lib.clearRawQuery parsed_a = Lib.clearRawQuery parsed_b ->
     a = b).
Proof.
  unfold Engine.ExtractImagesFromHTML.
  destruct (ImagesFacts.getTopImages_spec (ranked arrival doc baseURL) 10)
    as (Hnd & Hlen & Himg).
  split; [exact Hnd |]. split; [exact Hlen |]. split.
  - intros img Hin. destruct (Himg img Hin) as [(c & Hc & E) Halt].
    split; [| split; [exists c; auto | exact Halt]].
    destruct (ranked_cleaned _ _ _ _ Hc) as (raw & Hraw).
    exists raw. rewrite <- E, Hraw. unfold Engine.cleanImageURL.
    destruct (Lib.url_Parse L raw); reflexivity.
  - intros a b parsed_a parsed_b Ha Hb Ea Eb Esame.
    apply (same_URL_same_entry _ a b Hnd Ha Hb). congruence.
Qed.

(** C9 (as amended).  (1) The Open Graph image of the pre-processed
    document becomes a candidate exactly when its URL is not empty, resolves
    against the base URL and has an image extension; no structural-exclusion
    or link-density test is made on it, and it is marked in-article.  (2) The
    JSON-LD image, when it becomes a candidate, is marked in-article as well.
    (3) A DOM image becomes a candidate exactly when it lies below a container
    matched by the article selectors, that container is not inside an
    excluded section (no excluded ancestor, not in a link list), and
    [extractImgTag] accepts the image; the candidate is marked in-article
    whatever the ancestors of the image itself are.  (4) Of the candidates,
    the filter keeps those marked in-article that pass the basic size
    filter.  (5) Every entry of the image list comes from a candidate that
    passes the basic size filter and is the Open Graph candidate, the JSON-LD
    candidate, or a DOM image admitted as in (3). *)
Theorem source_validation :
  (forall doc baseURL c,
     extractOgImage doc baseURL = Some c <->
     exists absURL,
       ogImageURL (readOgMeta doc) <> "" /\
       toAbsoluteURL (ogImageURL (readOgMeta doc)) baseURL = Go.Ok absURL /\
       imageExt (regexes ie) (cleanImageURL absURL) = true /\
       c = mkCandidate (cleanImageURL absURL)
             (Lib.TrimSpace L (ogImageAlt (readOgMeta doc)))
             (fst (completeDimensions ie (ogWidth (readOgMeta doc))
                     (ogHeight (readOgMeta doc)) (cleanImageURL absURL)))
             (snd (completeDimensions ie (ogWidth (readOgMeta doc))
                     (ogHeight (readOgMeta doc)) (cleanImageURL absURL)))
             true false "og" 0%Q 0) /\
  (forall doc baseURL c,
     extractJSONLDImage doc baseURL = Some c ->
     InArticle c = true /\ Source c = "jsonld") /\
  (forall doc baseURL c,
     c ∈ extractArticleImgTags doc baseURL <->
     exists container img c0,
       container ∈ FindDoc articleContainers doc /\
       isInExcludedSection container = false /\
       img ∈ Find [Just (Tag "img")] container /\
       extractImgTag img baseURL = Some c0 /\
       c = markInArticle c0) /\
  (forall candidates c',
     c' ∈ filterArticleImages candidates <->
     exists c, c ∈ candidates /\ InArticle c = true /\
               passesBasicFilters c = true /\ c' = scored ie c) /\
  (forall arrival doc baseURL img,
     img ∈ ExtractImagesFromHTML arrival doc baseURL ->
     exists c,
       CandURL c = ImageURL img /\ passesBasicFilters c = true /\
       (extractOgImage (preprocessHTML L ie doc) baseURL = Some c \/
        extractJSONLDImage (preprocessHTML L ie doc) baseURL = Some c \/
        exists container s c0,
          container ∈ FindDoc articleContainers (preprocessHTML L ie doc) /\
          isInExcludedSection container = false /\
          s ∈ Find [Just (Tag "img")] container /\
          extractImgTag s baseURL = Some c0 /\
          c = markInArticle c0)).
Proof.
  split; [| split; [| split; [| split]]].
  - apply extractOgImage_iff.
  - intros doc baseURL c H. apply extractJSONLDImage_some in H.
    destruct H as (absURL & _ & _ & _ & H1 & H2). auto.
  - apply extractArticleImgTags_iff.
  - apply filterArticleImages_iff.
  - intros arrival doc baseURL img Hin.
    unfold Engine.ExtractImagesFromHTML in Hin.
    destruct (ImagesFacts.getTopImages_spec (ranked arrival doc baseURL) 10)
      as (_ & _ & Himg).
    destruct (Himg img Hin) as [(c' & Hc' & E) _].
    unfold Engine.ranked in Hc'. rewrite (sortCandidates_perm _) in Hc'.
    apply filterArticleImages_iff in Hc'.
    destruct Hc' as (c & Hc & _ & Hpass & ->).
    exists c. split; [exact E |]. split; [exact Hpass |].
    unfold Engine.collect in Hc.
    apply list_elem_of_In, in_flat_map in Hc. destruct Hc as (p & _ & Hc).
    destruct p; cbn [Engine.batch] in Hc.
    + destruct (extractOgImage (preprocessHTML L ie doc) baseURL) as [c1 |];
        [| destruct Hc].
      destruct Hc as [<- | []]. left. reflexivity.
    + destruct (extractJSONLDImage (preprocessHTML L ie doc) baseURL) as [c1 |];
        [| destruct Hc].
      destruct Hc as [<- | []]. right. left. reflexivity.
    + right. right. apply extractArticleImgTags_iff, list_elem_of_In, Hc.
Qed.

End Engine.

(** C4 (code bug).  [cleanImageURL] empties [RawQuery] and leaves
    [ForceQuery] as [url.Parse] set it, so the question mark of a URL that
    ends in one survives the canonicalization: a picture shown once as
    [a.jpg?] and once as [a.jpg?w=800] comes out as two entries, whose URLs
    are equal once the query string is stripped. *)
Theorem bare_question_mark_survives :
  Engine.ExtractImagesFromHTML Pages.lib Pages.extractor Articles.readers
    [OgPass; JSONLDPass; ImgPass] Articles.bareQueryArticle Articles.baseURL
  = [mkImage "https://x/a.jpg?" "First"; mkImage "https://x/a.jpg" "Second"] /\
  Engine.cleanImageURL Pages.lib "https://x/a.jpg?" = "https://x/a.jpg?" /\
  Engine.cleanImageURL Pages.lib "https://x/a.jpg?w=800" = "https://x/a.jpg".
Proof. vm_compute. repeat split; reflexivity. Qed.

(** [source_validation] (3) and (4) on an article whose picture sits in a
    carousel block: the picture is a candidate and is kept. *)
Lemma source_validation_witness :
  exists c,
    c ∈ Engine.extractArticleImgTags Pages.lib Pages.extractor Articles.readers
          Articles.carouselArticle Articles.baseURL /\
    scored Pages.extractor c ∈
      Images.filterArticleImages Pages.extractor
        (Engine.extractArticleImgTags Pages.lib Pages.extractor Articles.readers
           Articles.carouselArticle Articles.baseURL).
Proof.
  pose proof (source_validation Pages.lib Pages.extractor Articles.readers)
    as (_ & _ & Himg & Hfilter & _).
  exists (mkCandidate "https://x/c.jpg" "Slide" 800 600 true false "img" 0%Q 0).
  split.
  - apply Himg.
    exists (Pages.first [Just (Tag "article")] Articles.carouselArticle),
           (Pages.first [Just (Tag "img")] Articles.carouselArticle),
           (mkCandidate "https://x/c.jpg" "Slide" 800 600 false false "img" 0%Q 0).
    repeat split; try reflexivity.
    + apply list_elem_of_In. vm_compute. left. reflexivity.
    + apply list_elem_of_In. vm_compute. left. reflexivity.
  - apply Hfilter.
    exists (mkCandidate "https://x/c.jpg" "Slide" 800 600 true false "img" 0%Q 0).
    repeat split; try reflexivity.
    apply list_elem_of_In. vm_compute. left. reflexivity.
Defined.

(** C9 (as stated) fails: the picture of the carousel article has an
    excluded section among its ancestors (the carousel block), the
    per-candidate scope test says out of scope, and still the picture is
    admitted and returned. *)
Lemma source_validation_not_as_stated :
  Engine.isInExcludedSection Pages.lib Pages.extractor
    (Pages.first [Just (Tag "img")] Articles.carouselArticle) = true /\
  Engine.isInArticleScope Pages.lib Pages.extractor
    (Pages.first [Just (Tag "img")] Articles.carouselArticle) = false /\
  Engine.ExtractImagesFromHTML Pages.lib Pages.extractor Articles.readers
    [OgPass; JSONLDPass; ImgPass] Articles.carouselArticle Articles.baseURL
    = [mkImage "https://x/c.jpg" "Slide"].
Proof. vm_compute. repeat split. Qed.

(** An Open Graph image is a candidate but has to pass the basic size
    filter like any other: a portrait one is dropped. *)
Example og_portrait_dropped :
  (exists c, Engine.extractOgImage Pages.lib Pages.extractor
               Articles.portraitOg Articles.baseURL = Some c /\
             InArticle c = true /\
             Images.passesBasicFilters Pages.extractor c = false) /\
  Engine.ExtractImagesFromHTML Pages.lib Pages.extractor Articles.readers
    [OgPass; JSONLDPass; ImgPass] Articles.portraitOg Articles.baseURL = [].
Proof.
  split; [| reflexivity].
  eexists. split; [reflexivity |]. split; reflexivity.
Qed.

(** The page of the repository test
    [TestExtractImagesFromHTMLKeepsArticleWidgets]: the hero and the body
    picture, and nothing else. *)
Example widget_article_images :
  Engine.ExtractImagesFromHTML Pages.lib Pages.extractor Articles.readers
    [OgPass; JSONLDPass; ImgPass] Articles.widgetArticle
    "https://screenrant.com/lanterns-dcu-show-release-window-2026/"
  = [ mkImage "https://static0.srcdn.com/hero.jpg" "Hero";
      mkImage "https://static0.srcdn.com/body.jpg" "Body" ].
Proof. vm_compute. reflexivity. Qed.

(** C10 fails on a page with an Open Graph image and a JSON-LD image
    without dimensions: both score 3.5 with area 0, the sort keeps them in the
    order of arrival, and that order is the order in which the concurrent
    passes happen to send.  Two runs on the same input: *)
Theorem fanIn_order_decides_ties :
  Engine.ExtractImagesFromHTML Pages.lib Pages.extractor Articles.readers
    [OgPass; JSONLDPass; ImgPass] Articles.ogAndJSONLD Articles.baseURL
  = [mkImage "https://x/a.jpg" ""; mkImage "https://x/b.jpg" "Story"] /\
  Engine.ExtractImagesFromHTML Pages.lib Pages.extractor Articles.readers
    [JSONLDPass; OgPass; ImgPass] Articles.ogAndJSONLD Articles.baseURL
  = [mkImage "https://x/b.jpg" "Story"; mkImage "https://x/a.jpg" ""].
Proof. vm_compute. split; reflexivity. Qed.

End EngineFacts.

(** ** Browser tier: the stability loop *)

Module StabilityFacts.
Import Browser Stability.
Local Open Scope list_scope.

Section Loop.

Variable TrimSpace : string -> string.

Local Abbreviation step := (Stability.step TrimSpace).
Local Abbreviation run := (Stability.run TrimSpace).
Local Abbreviation stableCheck := (Stability.stableCheck TrimSpace).

Lemma run_app pre : forall st ticks,
  run st (pre ++ ticks) =
  match run st pre with
  | Running st' => run st' ticks
  | returned => returned
  end.
Proof.
  induction pre as [| t pre IH]; intros st ticks; simpl; [reflexivity |].
  destruct (step st t); [apply IH | reflexivity].
Qed.

(** While the loop runs, the counter stays between 0 and 2 and the sleeps
    add up. *)
Lemma step_running st t st' :
  step st t = Running st' ->
  0 <= stableCount st < stableThreshold ->
  0 <= stableCount st' < stableThreshold /\ slept st' = slept st + checkInterval.
Proof.
  unfold stableThreshold. intros Hstep Hcount.
  destruct t as [| | capture now]; simpl in Hstep.
  - unfold giveUp in Hstep. destruct (lastSnap st); discriminate.
  - unfold giveUp in Hstep. destruct (lastSnap st); discriminate.
  - destruct (Length (reading TrimSpace capture now) =? 0).
    + injection Hstep as <-. simpl. lia.
    + destruct ((0 <? previousLength st) && _).
      * unfold stableThreshold in Hstep.
        destruct (Z.leb_spec 3 (stableCount st + 1)); [discriminate |].
        injection Hstep as <-. simpl. lia.
      * injection Hstep as <-. simpl. lia.
Qed.

Lemma run_running ticks : forall st st',
  run st ticks = Running st' ->
  0 <= stableCount st < stableThreshold ->
  0 <= stableCount st' < stableThreshold.
Proof.
  induction ticks as [| t ticks IH]; intros st st' Hrun Hcount; simpl in Hrun.
  - injection Hrun as <-. exact Hcount.
  - destruct (step st t) as [st1 | ] eqn:Hstep; [| discriminate].
    apply (IH st1 st' Hrun). eapply step_running; eauto.
Qed.

(** One stable check: the loop returns the reading tagged [stable] when
    the counter reaches 3, and counts one more otherwise. *)
Lemma step_stable st t len :
  stableCheck (previousLength st) t len ->
  exists snap,
    Length snap = len /\ Stage snap = "stable" /\
    if stableThreshold <=? stableCount st + 1
    then step st t = Returned (Some snap) (snapshots st ++ [snap]) (slept st)
    else step st t =
         Running (mkLoop len (stableCount st + 1)
                    (Some (withStage snap "stability-check"))
                    (snapshots st) (slept st + checkInterval)).
Proof.
  intros (html & url & now & -> & -> & Hlen & Hprev & Hchange).
  exists (mkSnapshot html url now "stable" (Go.len (TrimSpace html))).
  split; [reflexivity |]. split; [reflexivity |].
  unfold Stability.step, reading. cbn [Length].
  replace (Go.len (TrimSpace html) =? 0) with false
    by (symmetry; apply Z.eqb_neq; lia).
  replace (0 <? previousLength st) with true by (symmetry; apply Z.ltb_lt; lia).
  unfold changeBelowFivePercent.
  replace (Z.abs (Go.len (TrimSpace html) - previousLength st) * 100
           <? 5 * previousLength st) with true
    by (symmetry; apply Z.ltb_lt; lia).
  cbn [andb]. destruct (stableThreshold <=? stableCount st + 1); reflexivity.
Qed.

(** A check that does not pass the test: the counter goes back to 0. *)
Lemma step_changed st t len :
  Stability.changedCheck TrimSpace (previousLength st) t len ->
  exists snap,
    step st t = Running (mkLoop len 0 (Some snap) (snapshots st)
                           (slept st + checkInterval)).
Proof.
  intros (html & url & now & -> & -> & Hlen & Hprev & Hchange).
  exists (mkSnapshot html url now "stability-check" (Go.len (TrimSpace html))).
  unfold Stability.step, reading. cbn [Length].
  replace (Go.len (TrimSpace html) =? 0) with false
    by (symmetry; apply Z.eqb_neq; lia).
  unfold changeBelowFivePercent.
  replace (Z.abs (Go.len (TrimSpace html) - previousLength st) * 100
           <? 5 * previousLength st) with false
    by (symmetry; apply Z.ltb_ge; lia).
  rewrite andb_false_r. reflexivity.
Qed.

(** C6.  Take any execution of the loop that is still running after the
    passes [pre], with no check counted as stable at that point (the counter
    is 0: the execution has just begun, or the last measurement changed the
    length by 5% or more) and a last measured length above 0.  Let the next
    three passes be checks whose non-zero trimmed lengths each differ by less
    than 5% from the measurement before.  Then (1) after the first of them
    the loop is still running, with one stable check counted; (2) after the
    second it is still running, with two; (3) on the third the function
    returns the snapshot of that very reading, tagged [stable], and appends it
    to the slice, having slept two intervals of 500ms since the first of the
    three; the passes after the third (among them any expiry of the outer
    timeout) play no part, so an execution with such a window does not end in
    [stable-timeout] or [stable-interrupted]; (4) the three checks have to
    come in a row: had the third one changed the length by 5% or more, the
    loop would still be running, with the counter back at 0. *)
Theorem stability_returns_stable snapshots0 pre st t1 t2 t3 len1 len2 len3 rest :
  Stability.waitForContentStabilityInline TrimSpace snapshots0 pre = Running st ->
  stableCount st = 0 ->
  stableCheck (previousLength st) t1 len1 ->
  stableCheck len1 t2 len2 ->
  stableCheck len2 t3 len3 ->
  (exists st1,
     Stability.waitForContentStabilityInline TrimSpace snapshots0 (pre ++ [t1])
       = Running st1 /\
     stableCount st1 = 1 /\ previousLength st1 = len1) /\
  (exists st2,
     Stability.waitForContentStabilityInline TrimSpace snapshots0 (pre ++ [t1; t2])
       = Running st2 /\
     stableCount st2 = 2 /\ previousLength st2 = len2) /\
  (exists html url now,
     t3 = Check (Some (html, url)) now /\
     Stability.waitForContentStabilityInline TrimSpace snapshots0
       (pre ++ t1 :: t2 :: t3 :: rest)
     = Returned (Some (mkSnapshot html url now "stable" len3))
         (Stability.snapshots st ++ [mkSnapshot html url now "stable" len3])
         (slept st + 2 * (500 * Millisecond))) /\
  (forall t len,
     Stability.changedCheck TrimSpace len2 t len ->
     exists st3,
       Stability.waitForContentStabilityInline TrimSpace snapshots0
         (pre ++ [t1; t2; t])
       = Running st3 /\
       stableCount st3 = 0 /\ previousLength st3 = len).
Proof.
  unfold Stability.waitForContentStabilityInline.
  intros Hpre Hcount H1 H2 H3.
  destruct (step_stable st t1 len1 H1) as (s1 & Hl1 & Hs1 & Hstep1).
  rewrite Hcount in Hstep1. change (0 + 1) with 1 in Hstep1.
  change (stableThreshold <=? 1) with false in Hstep1. cbv iota in Hstep1.
  set (st1 := mkLoop len1 1 (Some (withStage s1 "stability-check"))
                (Stability.snapshots st) (slept st + checkInterval)) in *.
  destruct (step_stable st1 t2 len2 H2) as (s2 & Hl2 & Hs2 & Hstep2).
  change (stableThreshold <=? stableCount st1 + 1) with false in Hstep2.
  cbv iota in Hstep2.
  change (stableCount st1 + 1) with 2 in Hstep2.
  set (st2 := mkLoop len2 2 (Some (withStage s2 "stability-check"))
                (Stability.snapshots st1) (slept st1 + checkInterval)) in *.
  assert (Hrun2 : run st [t1; t2] = Running st2).
  { change (run st [t1; t2])
      with (match step st t1 with
            | Running st' => run st' [t2]
            | returned => returned
            end).
    rewrite Hstep1. cbv beta iota.
    change (run st1 [t2])
      with (match step st1 t2 with
            | Running st' => Running st'
            | returned => returned
            end).
    rewrite Hstep2. reflexivity. }
  split; [| split; [| split]].
  - exists st1. rewrite run_app, Hpre.
    change (run st [t1])
      with (match step st t1 with
            | Running st' => Running st'
            | returned => returned
            end).
    rewrite Hstep1. auto.
  - exists st2. rewrite run_app, Hpre, Hrun2. auto.
  - destruct H3 as (html & url & now & -> & -> & Hlen & Hprev & Hchange).
    exists html, url, now. split; [reflexivity |].
    rewrite run_app, Hpre.
    change (t1 :: t2 :: Check (Some (html, url)) now :: rest)
      with ([t1; t2] ++ Check (Some (html, url)) now :: rest).
    rewrite run_app, Hrun2. cbn [Stability.run].
    unfold Stability.step, reading. cbn [Length].
    replace (Go.len (TrimSpace html) =? 0) with false
      by (symmetry; apply Z.eqb_neq; lia).
    cbn [previousLength stableCount st2].
    replace (0 <? len2) with true by (symmetry; apply Z.ltb_lt; lia).
    unfold changeBelowFivePercent.
    replace (Z.abs (Go.len (TrimSpace html) - len2) * 100 <? 5 * len2) with true
      by (symmetry; apply Z.ltb_lt; lia).
    cbn [andb]. change (stableThreshold <=? 2 + 1) with true. cbv iota.
    unfold withStage. cbn [HTML URL Timestamp Length Stability.snapshots slept st2 st1].
    f_equal. unfold checkInterval. lia.
  - intros t len Hchanged.
    destruct (step_changed st2 t len Hchanged) as (snap & Hstep3).
    eexists. rewrite run_app, Hpre.
    change [t1; t2; t] with ([t1; t2] ++ [t]).
    rewrite run_app, Hrun2.
    change (run st2 [t])
      with (match step st2 t with
            | Running st' => Running st'
            | returned => returned
            end).
    rewrite Hstep3.
    split; [reflexivity |]. split; reflexivity.
Qed.

(** A snapshot tagged [stable-timeout] or [stable-interrupted] comes from
    the pass on which the [select] took a [Done] case. *)
Lemma step_gave_up st t snap all total :
  step st t = Returned (Some snap) all total ->
  Stage snap <> "stable" ->
  (t = TimedOut /\ Stage snap = "stable-timeout") \/
  (t = Interrupted /\ Stage snap = "stable-interrupted").
Proof.
  destruct t as [| | capture now]; simpl; unfold giveUp.
  - destruct (lastSnap st); intros H; inversion H; subst; auto.
  - destruct (lastSnap st); intros H; inversion H; subst; auto.
  - destruct (Length (reading TrimSpace capture now) =? 0); [discriminate |].
    destruct ((0 <? previousLength st) && _); [| discriminate].
    destruct (stableThreshold <=? stableCount st + 1); [| discriminate].
    intros H. inversion H; subst. simpl. congruence.
Qed.

End Loop.

End StabilityFacts.

Module StabilityExamples.
Import Browser Stability Ticks.
Local Open Scope list_scope.

(** [stability_returns_stable] on an execution that reads the page while
    it loads, then the settled page four times, and would then time out. *)
Lemma stability_returns_stable_witness :
  (exists st1,
     waitForContentStabilityInline Pages.TrimSpace []
       ([loading 0; settled 500] ++ [settled 1000]) = Running st1 /\
     stableCount st1 = 1 /\ previousLength st1 = Go.len settledPage) /\
  (exists st2,
     waitForContentStabilityInline Pages.TrimSpace []
       ([loading 0; settled 500] ++ [settled 1000; settled 1500]) = Running st2 /\
     stableCount st2 = 2 /\ previousLength st2 = Go.len settledPage) /\
  (exists html url now,
     settled 2000 = Check (Some (html, url)) now /\
     waitForContentStabilityInline Pages.TrimSpace []
       ([loading 0; settled 500] ++
        settled 1000 :: settled 1500 :: settled 2000 :: [TimedOut])
     = Returned (Some (mkSnapshot html url now "stable" (Go.len settledPage)))
         ([] ++ [mkSnapshot html url now "stable" (Go.len settledPage)])
         (2 * checkInterval + 2 * (500 * Millisecond))) /\
  (forall t len,
     changedCheck Pages.TrimSpace (Go.len settledPage) t len ->
     exists st3,
       waitForContentStabilityInline Pages.TrimSpace []
         ([loading 0; settled 500] ++ [settled 1000; settled 1500; t])
       = Running st3 /\
       stableCount st3 = 0 /\ previousLength st3 = len).
Proof.
  apply (StabilityFacts.stability_returns_stable Pages.TrimSpace []
           [loading 0; settled 500]
           (mkLoop (Go.len settledPage) 0
              (Some (mkSnapshot settledPage "https://example.com/a" 500
                       "stability-check" (Go.len settledPage)))
              [] (2 * checkInterval))
           (settled 1000) (settled 1500) (settled 2000)).
  - reflexivity.
  - reflexivity.
  - exists settledPage, "https://example.com/a", 1000.
    repeat split; vm_compute; reflexivity.
  - exists settledPage, "https://example.com/a", 1500.
    repeat split; vm_compute; reflexivity.
  - exists settledPage, "https://example.com/a", 2000.
    repeat split; vm_compute; reflexivity.
Defined.

(** The same execution, evaluated: the snapshot of the fifth pass. *)
Example stability_settled_run :
  waitForContentStabilityInline Pages.TrimSpace []
    [loading 0; settled 500; settled 1000; settled 1500; settled 2000; TimedOut]
  = Returned
      (Some (mkSnapshot settledPage "https://example.com/a" 2000 "stable"
               (Go.len settledPage)))
      [mkSnapshot settledPage "https://example.com/a" 2000 "stable"
         (Go.len settledPage)]
      (4 * checkInterval).
Proof. vm_compute. reflexivity. Qed.

(** An execution that times out before three stable checks in a row returns
    the latest snapshot, tagged [stable-timeout]. *)
Example stability_timeout_run :
  waitForContentStabilityInline Pages.TrimSpace []
    [loading 0; settled 500; settled 1000; TimedOut]
  = Returned
      (Some (mkSnapshot settledPage "https://example.com/a" 1000 "stable-timeout"
               (Go.len settledPage)))
      [mkSnapshot settledPage "https://example.com/a" 1000 "stable-timeout"
         (Go.len settledPage)]
      (3 * checkInterval).
Proof. vm_compute. reflexivity. Qed.

End StabilityExamples.

(** ** Orchestrator *)

Module ScraperFacts.
Import Models Scraper.
Local Open Scope list_scope.

Section Orchestrator.

Variable env : Env.
Variable ctx : Context.

Local Abbreviation ScrapeSmart := (Scraper.ScrapeSmart env ctx).
Local Abbreviation httpPhase := (Scraper.httpPhase env ctx).
Local Abbreviation attemptHTTP := (Scraper.attemptHTTP env ctx).
Local Abbreviation browserPhase := (Scraper.browserPhase env ctx).
Local Abbreviation tier1Accepts := (Scraper.tier1Accepts env).
Local Abbreviation httpTimeoutAt := (Scraper.httpTimeoutAt env ctx).

Lemma browserCalls_snoc events e :
  browserCalls (events ++ [e]) =
  (browserCalls events + (if isBrowserScrape e then 1 else 0))%nat.
Proof.
  unfold browserCalls. rewrite List.filter_app, length_app. simpl.
  destruct (isBrowserScrape e); reflexivity.
Qed.

(** The success criterion of tier 1. *)
Lemma tier1Accepts_iff r result :
  tier1Accepts r = Some result <->
  exists html finalURL,
    r = Go.Ok (html, finalURL) /\
    Go.len html <> 0 /\
    100 <= Go.len (Lib.TrimSpace (lib env) html) /\
    result = ExtractArticleWithMultipleStrategies env html finalURL /\
    (0 < Go.len (Title result) \/ 0 < Go.len (Content result)).
Proof.
  unfold Scraper.tier1Accepts, minimalHTML, emptyExtraction.
  destruct r as [[html finalURL] | e].
  - destruct (Z.eqb_spec (Go.len html) 0) as [Hz | Hz]; simpl.
    + split; [discriminate |].
      intros (h & f & E & Hne & _). injection E as <- <-. contradiction.
    + destruct (Z.ltb_spec (Go.len (Lib.TrimSpace (lib env) html)) 100) as [Hs | Hs].
      * split; [discriminate |].
        intros (h & f & E & _ & Hlen & _). injection E as <- <-. lia.
      * set (res := ExtractArticleWithMultipleStrategies env html finalURL).
        pose proof (ExtractorFacts.len_nonneg (Content res)) as Hc.
        pose proof (ExtractorFacts.len_nonneg (Title res)) as Ht.
        destruct (Z.eqb_spec (Go.len (Content res)) 0) as [Hc0 | Hc0];
          destruct (Z.eqb_spec (Go.len (Title res)) 0) as [Ht0 | Ht0]; simpl.
        -- split; [discriminate |].
           intros (h & f & E & _ & _ & -> & Hor). injection E as <- <-.
           fold res in Hor. lia.
        -- split.
           ++ intros H. injection H as <-. exists html, finalURL.
              repeat split; auto. left. lia.
           ++ intros (h & f & E & _ & _ & -> & _). injection E as <- <-.
              reflexivity.
        -- split.
           ++ intros H. injection H as <-. exists html, finalURL.
              repeat split; auto. right. lia.
           ++ intros (h & f & E & _ & _ & -> & _). injection E as <- <-.
              reflexivity.
        -- split.
           ++ intros H. injection H as <-. exists html, finalURL.
              repeat split; auto. left. lia.
           ++ intros (h & f & E & _ & _ & -> & _). injection E as <- <-.
              reflexivity.
  - split; [discriminate | intros (h & f & E & _); discriminate].
Qed.

(** What the attempt of tier 1 yields, and that it launches no browser. *)
Lemma attemptHTTP_spec url httpTimeout st :
  let f := FetchWithAlternatesGroup env (clock st) httpTimeout url in
  let st1 := snd (attemptHTTP url httpTimeout st) in
  browserCalls (trace st1) = browserCalls (trace st) /\
  fst (attemptHTTP url httpTimeout st) =
  match tier1Accepts (fetched f) with
  | Some result => Finished (Go.Ok result)
  | None =>
      match ctxErr ctx (clock st1) with
      | Some cause => Finished (Go.Err (ParentExpiredDuringHTTP cause))
      | None => FallThrough
      end
  end.
Proof.
  unfold Scraper.attemptHTTP, Scraper.tier1Accepts, Scraper.extract,
    bind, now, spend, ret.
  cbn [clock trace fst snd].
  destruct (fetched (FetchWithAlternatesGroup env (clock st) httpTimeout url))
    as [[html finalURL] | e]; cbn [clock trace fst snd].
  - destruct (minimalHTML env html); cbn [clock trace fst snd].
    + destruct (ctxErr ctx _) eqn:Hc; cbn [clock trace fst snd];
        rewrite ?Hc, browserCalls_snoc; simpl; split; auto.
    + destruct (emptyExtraction _); cbn [clock trace fst snd].
      * destruct (ctxErr ctx _) eqn:Hc; cbn [clock trace fst snd];
          rewrite ?Hc, !browserCalls_snoc; simpl; split; auto; lia.
      * rewrite !browserCalls_snoc; simpl; split; auto; lia.
  - destruct (ctxErr ctx _) eqn:Hc; cbn [clock trace fst snd];
      rewrite ?Hc, browserCalls_snoc; simpl; split; auto.
Qed.

(** After the delay, [ScrapeSmart] is the HTTP phase followed, unless that
    phase returns, by the browser phase. *)
Lemma ScrapeSmart_run url st u :
  Lib.url_Parse (lib env) url = Go.Ok u ->
  ScrapeSmart url st =
  match fst (httpPhase url (snd (randomDelay st))) with
  | Finished r => (r, snd (httpPhase url (snd (randomDelay st))))
  | FallThrough => browserPhase url (snd (httpPhase url (snd (randomDelay st))))
  end.
Proof.
  intros Hparse. unfold Scraper.ScrapeSmart. rewrite Hparse.
  unfold bind at 1.
  set (st0 := snd (randomDelay st)).
  change (randomDelay st) with (tt, st0).
  cbv iota. unfold bind.
  destruct (httpPhase url st0) as [[r |] st1]; reflexivity.
Qed.

(** C1 (as amended).  Tier 1 succeeds exactly when it returns HTML that
    is not empty, of at least 100 bytes once trimmed, on which the extraction
    yields a non-empty title or content.  When tier 1 is attempted,
    [ScrapeSmart] returns that extraction result on success; on any failure of
    tier 1 it returns the parent-context error if the parent context is done by
    then, and otherwise goes on with the browser phase (the check of the time
    left, then the browser).  No browser is launched up to that point. *)
Theorem tier1_outcome url st :
  (forall r result,
     tier1Accepts r = Some result <->
     exists html finalURL,
       r = Go.Ok (html, finalURL) /\
       Go.len html <> 0 /\
       100 <= Go.len (Lib.TrimSpace (lib env) html) /\
       result = ExtractArticleWithMultipleStrategies env html finalURL /\
       (0 < Go.len (Title result) \/ 0 < Go.len (Content result))) /\
  ((exists u, Lib.url_Parse (lib env) url = Go.Ok u) ->
   let st0 := snd (randomDelay st) in
   let st1 := snd (httpPhase url st0) in
   1 * Second <= httpTimeoutAt (clock st0) ->
   browserCalls (trace st1) = browserCalls (trace st) /\
   match tier1Accepts
           (fetched (FetchWithAlternatesGroup env (clock st0)
                       (httpTimeoutAt (clock st0)) url)) with
   | Some result => ScrapeSmart url st = (Go.Ok result, st1)
   | None =>
       match ctxErr ctx (clock st1) with
       | Some cause =>
           ScrapeSmart url st = (Go.Err (ParentExpiredDuringHTTP cause), st1)
       | None => ScrapeSmart url st = browserPhase url st1
       end
   end).
Proof.
  split; [apply tier1Accepts_iff |].
  intros (u & Hparse) st0 st1 Htimeout.
  assert (Hphase : httpPhase url st0 = attemptHTTP url (httpTimeoutAt (clock st0)) st0).
  { unfold Scraper.httpPhase, bind, now.
    replace (httpTimeoutAt (clock st0) <? 1 * Second) with false
      by (symmetry; apply Z.ltb_ge; exact Htimeout).
    reflexivity. }
  pose proof (attemptHTTP_spec url (httpTimeoutAt (clock st0)) st0) as [Hcalls Hfst].
  cbv zeta in Hcalls, Hfst. rewrite <- Hphase in Hcalls, Hfst.
  fold st1 in Hcalls, Hfst.
  assert (Hdelay : browserCalls (trace st0) = browserCalls (trace st)).
  { unfold st0, randomDelay, bind, now, spend. simpl.
    rewrite browserCalls_snoc. simpl. lia. }
  split; [congruence |].
  pose proof (ScrapeSmart_run url st u Hparse) as Hrun.
  fold st0 in Hrun. fold st1 in Hrun.
  rewrite Hrun, Hfst.
  destruct (tier1Accepts _); [reflexivity |].
  destruct (ctxErr ctx (clock st1)); reflexivity.
Qed.

(** C2 (as amended).  When tier 1 has not succeeded (it failed, or was
    skipped for lack of time) and fewer than 6 seconds are left before the
    deadline, [ScrapeSmart] returns an error without launching the browser: the
    insufficient-time error, or, when the failed tier 1 found the parent
    context done, the parent-context error. *)
Theorem browser_skipped_on_low_budget url st :
  (exists u, Lib.url_Parse (lib env) url = Go.Ok u) ->
  let st0 := snd (randomDelay st) in
  let st1 := snd (httpPhase url st0) in
  (forall result, fst (httpPhase url st0) <> Finished (Go.Ok result)) ->
  calculateRemainingTime ctx (clock st1) - 5 * Second < 1 * Second ->
  exists err,
    ScrapeSmart url st = (Go.Err err, st1) /\
    (err = InsufficientBudget (calculateRemainingTime ctx (clock st1)) \/
     exists cause, err = ParentExpiredDuringHTTP cause) /\
    browserCalls (trace st1) = browserCalls (trace st).
Proof.
  intros (u & Hparse) st0 st1 Hfailed Hbudget.
  assert (Hdelay : browserCalls (trace st0) = browserCalls (trace st)).
  { unfold st0, randomDelay, bind, now, spend. simpl.
    rewrite browserCalls_snoc. simpl. lia. }
  assert (Hcalls : browserCalls (trace st1) = browserCalls (trace st0)).
  { unfold st1, Scraper.httpPhase, bind, now.
    destruct (httpTimeoutAt (clock st0) <? 1 * Second); [reflexivity |].
    apply (attemptHTTP_spec url (httpTimeoutAt (clock st0)) st0). }
  pose proof (ScrapeSmart_run url st u Hparse) as Hrun.
  fold st0 in Hrun. fold st1 in Hrun.
  rewrite Hrun.
  destruct (fst (httpPhase url st0)) as [[result | err] |] eqn:Hfst.
  - exfalso. apply (Hfailed result). reflexivity.
  - exists err. split; [reflexivity |]. split; [| congruence].
    right.
    (* an error of the HTTP phase is the parent-context error *)
    unfold Scraper.httpPhase, bind, now in Hfst.
    destruct (httpTimeoutAt (clock st0) <? 1 * Second); [discriminate |].
    pose proof (attemptHTTP_spec url (httpTimeoutAt (clock st0)) st0) as [_ Hspec].
    cbv zeta in Hspec. rewrite Hspec in Hfst.
    destruct (tier1Accepts _); [discriminate |].
    destruct (ctxErr ctx _) as [cause |]; [| discriminate].
    injection Hfst as <-. eauto.
  - exists (InsufficientBudget (calculateRemainingTime ctx (clock st1))).
    split; [| split; [left; reflexivity | congruence]].
    unfold Scraper.browserPhase, bind, now.
    replace (calculateRemainingTime ctx (clock st1) - 5 * Second <? 1 * Second)
      with true by (symmetry; apply Z.ltb_lt; exact Hbudget).
    reflexivity.
Qed.

End Orchestrator.

End ScraperFacts.

Module ScraperExamples.
Import Models Scraper.
Local Open Scope list_scope.

(** [tier1_outcome] on a tier 1 that returns a page of fewer than 100
    bytes, with 20 seconds to go: the browser phase takes over. *)
Lemma tier1_outcome_witness :
  ScrapeSmart (envWith (Go.Ok (shortPage, "https://example.com/a")) (300 * Millisecond)
                 wholePage (20 * Millisecond))
    twentySeconds "https://example.com/a" start
  = browserPhase (envWith (Go.Ok (shortPage, "https://example.com/a")) (300 * Millisecond)
                    wholePage (20 * Millisecond))
      twentySeconds "https://example.com/a"
      (mkState (400 * Millisecond)
         [Slept (100 * Millisecond);
          HTTPFetch "https://example.com/a" (12 * Second)]).
Proof.
  refine (proj2 (proj2 (ScraperFacts.tier1_outcome
           (envWith (Go.Ok (shortPage, "https://example.com/a")) (300 * Millisecond)
              wholePage (20 * Millisecond))
           twentySeconds "https://example.com/a" start) _ _)).
  - eexists. reflexivity.
  - vm_compute. discriminate.
Defined.

(** The scenario of the specification, evaluated: a page below the floor
    from tier 1, then the browser is launched, and what the caller gets is
    the outcome of the browser phase. *)
Example short_page_escalates :
  ScrapeSmart (envWith (Go.Ok (shortPage, "https://example.com/a")) (300 * Millisecond)
                 wholePage (20 * Millisecond))
    twentySeconds "https://example.com/a" start
  = (Go.Err (BothPhasesFailed "navigation failed"),
     mkState (2400 * Millisecond)
       [Slept (100 * Millisecond);
        HTTPFetch "https://example.com/a" (12 * Second);
        BrowserScrape "https://example.com/a" 14600]).
Proof. vm_compute. reflexivity. Qed.

(** A page that tier 1 accepts. *)
Example article_from_tier1 :
  fst (ScrapeSmart (envWith (Go.Ok (articlePage, "https://example.com/a"))
                      (300 * Millisecond) wholePage (20 * Millisecond))
         twentySeconds "https://example.com/a" start)
  = Go.Ok (wholePage articlePage "https://example.com/a").
Proof. vm_compute. reflexivity. Qed.

(** C1 (as stated) fails: tier 1 is attempted and fails (the extraction of
    its page finds nothing), the deadline of 2 seconds has passed by then, and
    [ScrapeSmart] returns an error instead of going on to the browser. *)
Lemma tier1_failure_can_return_error :
  1 * Second <=
    httpTimeoutAt (envWith (Go.Ok (articlePage, "https://example.com/a"))
                     (1500 * Millisecond) nothingFound (600 * Millisecond))
      twoSeconds (100 * Millisecond) /\
  tier1Accepts (envWith (Go.Ok (articlePage, "https://example.com/a"))
                  (1500 * Millisecond) nothingFound (600 * Millisecond))
    (Go.Ok (articlePage, "https://example.com/a")) = None /\
  ScrapeSmart (envWith (Go.Ok (articlePage, "https://example.com/a"))
                 (1500 * Millisecond) nothingFound (600 * Millisecond))
    twoSeconds "https://example.com/a" start
  = (Go.Err (ParentExpiredDuringHTTP DeadlineExceeded),
     mkState (2200 * Millisecond)
       [Slept (100 * Millisecond);
        HTTPFetch "https://example.com/a" (1520 * Millisecond);
        Extracted "https://example.com/a"]).
Proof. vm_compute. repeat split; discriminate. Qed.

(** [browser_skipped_on_low_budget] on a tier 1 that returns a page below
    the floor, with 3 seconds to go. *)
Lemma browser_skipped_on_low_budget_witness :
  exists err,
    ScrapeSmart (envWith (Go.Ok (shortPage, "https://example.com/a")) (300 * Millisecond)
                   wholePage (20 * Millisecond))
      threeSeconds "https://example.com/a" start
    = (Go.Err err,
       mkState (400 * Millisecond)
         [Slept (100 * Millisecond);
          HTTPFetch "https://example.com/a" (2320 * Millisecond)]) /\
    (err = InsufficientBudget (2600 * Millisecond) \/
     exists cause, err = ParentExpiredDuringHTTP cause) /\
    browserCalls [Slept (100 * Millisecond);
                  HTTPFetch "https://example.com/a" (2320 * Millisecond)]
    = browserCalls [].
Proof.
  refine (ScraperFacts.browser_skipped_on_low_budget
            (envWith (Go.Ok (shortPage, "https://example.com/a")) (300 * Millisecond)
               wholePage (20 * Millisecond))
            threeSeconds "https://example.com/a" start _ _ _).
  - eexists. reflexivity.
  - intros result H. vm_compute in H. discriminate.
  - vm_compute. reflexivity.
Defined.

(** C2 (as stated) fails: tier 1 has failed and no time is left, yet the
    error is not the insufficient-time error but the parent-context one (the
    browser is not launched either way). *)
Lemma low_budget_error_can_be_context_error :
  tier1Accepts (envWith (Go.Ok (articlePage, "https://example.com/a"))
                  (2300 * Millisecond) nothingFound (700 * Millisecond))
    (Go.Ok (articlePage, "https://example.com/a")) = None /\
  calculateRemainingTime threeSeconds (3100 * Millisecond) = 0 /\
  ScrapeSmart (envWith (Go.Ok (articlePage, "https://example.com/a"))
                 (2300 * Millisecond) nothingFound (700 * Millisecond))
    threeSeconds "https://example.com/a" start
  = (Go.Err (ParentExpiredDuringHTTP DeadlineExceeded),
     mkState (3100 * Millisecond)
       [Slept (100 * Millisecond);
        HTTPFetch "https://example.com/a" (2320 * Millisecond);
        Extracted "https://example.com/a"]) /\
  forall remaining,
    ParentExpiredDuringHTTP DeadlineExceeded <> InsufficientBudget remaining.
Proof. vm_compute. repeat split; discriminate. Qed.

End ScraperExamples.

(** ** Image engine: the ranking orders the candidates *)
Module SortFacts.
Import Models Images.
Local Open Scope list_scope.

(** [a] may stand before [b]: the swap test of the sort fails on the pair. *)
Local Abbreviation inOrder := (fun a b => outOfOrder a b = false).

Lemma inOrder_total a b : outOfOrder a b = true -> outOfOrder b a = false.
Proof.
  unfold outOfOrder. rewrite <- (Qcompare_antisym (CandScore b) (CandScore a)).
  destruct (CandScore b ?= CandScore a)%Q; simpl; try congruence.
  rewrite !Z.ltb_lt, Z.ltb_ge. lia.
Qed.

Lemma inOrder_trans a b c :
  outOfOrder a b = false -> outOfOrder b c = false -> outOfOrder a c = false.
Proof.
  unfold outOfOrder.
  destruct (CandScore a ?= CandScore b)%Q eqn:Hab; try discriminate;
  destruct (CandScore b ?= CandScore c)%Q eqn:Hbc; try discriminate;
  intros H1 H2.
  - apply Qeq_alt in Hab, Hbc.
    assert (Hac : (CandScore a == CandScore c)%Q) by (rewrite Hab; exact Hbc).
    apply Qeq_alt in Hac. rewrite Hac.
    apply Z.ltb_ge. apply Z.ltb_ge in H1, H2. lia.
  - apply Qeq_alt in Hab. apply Qgt_alt in Hbc.
    assert (Hac : (CandScore a > CandScore c)%Q) by (rewrite Hab; exact Hbc).
    apply Qgt_alt in Hac. rewrite Hac. reflexivity.
  - apply Qgt_alt in Hab. apply Qeq_alt in Hbc.
    assert (Hac : (CandScore a > CandScore c)%Q) by (rewrite <- Hbc; exact Hab).
    apply Qgt_alt in Hac. rewrite Hac. reflexivity.
  - apply Qgt_alt in Hab, Hbc.
    assert (Hac : (CandScore a > CandScore c)%Q)
      by (eapply Qlt_trans; eassumption).
    apply Qgt_alt in Hac. rewrite Hac. reflexivity.
Qed.

(** A pass of [k] comparisons leaves the elements after the first [k + 1]
    where they are. *)
Lemma bubblePass_app k : forall p s,
  (k < length p)%nat -> bubblePass k (p ++ s) = bubblePass k p ++ s.
Proof.
  induction k as [| k IH]; intros p s Hk.
  - destruct p as [| a [| b p]]; reflexivity.
  - destruct p as [| a [| b p]]; simpl in Hk; try lia.
    cbn [bubblePass app].
    destruct (outOfOrder a b).
    + change (a :: p ++ s) with ((a :: p) ++ s).
      rewrite IH by (simpl; lia). reflexivity.
    + change (b :: p ++ s) with ((b :: p) ++ s).
      rewrite IH by (simpl; lia). reflexivity.
Qed.

(** A full pass over a non-empty list carries a least element to the end. *)
Lemma bubblePass_last k : forall a p,
  length p = k ->
  exists front m,
    bubblePass k (a :: p) = front ++ [m] /\
    length front = k /\
    forall x, In x front -> outOfOrder x m = false.
Proof.
  induction k as [| k IH]; intros a p Hlen.
  - destruct p; [| discriminate]. exists [], a. repeat split; auto.
    intros x [].
  - destruct p as [| b p]; [discriminate |]. injection Hlen as Hlen.
    cbn [bubblePass].
    destruct (outOfOrder a b) eqn:Hab.
    + destruct (IH a p Hlen) as (front & m & E & Hl & Hm).
      exists (b :: front), m. rewrite E. repeat split; [simpl; lia |].
      intros x [<- | Hx]; [| apply Hm, Hx].
      (* b >= a >= m, and a is in the pass's input *)
      assert (Ha : In a (front ++ [m])).
      { rewrite <- E. apply (Permutation_in a (Permutation_sym (EngineFacts.bubblePass_perm k (a :: p)))). left. reflexivity. }
      apply in_app_or in Ha. destruct Ha as [Ha | [<- | []]].
      * eapply inOrder_trans; [apply inOrder_total, Hab | apply Hm, Ha].
      * apply inOrder_total, Hab.
    + destruct (IH b p Hlen) as (front & m & E & Hl & Hm).
      exists (a :: front), m. rewrite E. repeat split; [simpl; lia |].
      intros x [<- | Hx]; [| apply Hm, Hx].
      assert (Hb : In b (front ++ [m])).
      { rewrite <- E. apply (Permutation_in b (Permutation_sym (EngineFacts.bubblePass_perm k (b :: p)))). left. reflexivity. }
      apply in_app_or in Hb. destruct Hb as [Hb | [<- | []]].
      * eapply inOrder_trans; [exact Hab | apply Hm, Hb].
      * exact Hab.
Qed.

(** The outer loop, started on a prefix of [todo + 1] elements that all may
    stand before the elements of an ordered rest, ends in an ordered list. *)
Lemma bubbleLoop_sorted todo : forall p s,
  length p = S todo ->
  StronglySorted inOrder s ->
  (forall x y, In x p -> In y s -> outOfOrder x y = false) ->
  StronglySorted inOrder (bubbleLoop todo (p ++ s)).
Proof.
  induction todo as [| todo IH]; intros p s Hlen Hs Hps.
  - destruct p as [| a [| b p]]; try discriminate. simpl.
    constructor; [exact Hs |]. apply List.Forall_forall. intros y Hy.
    apply Hps; [left; reflexivity | exact Hy].
  - cbn [bubbleLoop]. rewrite bubblePass_app by lia.
    destruct p as [| a p]; [discriminate |]. injection Hlen as Hlen.
    destruct (bubblePass_last (S todo) a p Hlen) as (front & m & E & Hl & Hm).
    rewrite E, <- app_assoc. cbn [app].
    assert (Hin : forall x, In x (front ++ [m]) -> In x (a :: p)).
    { intros x Hx. rewrite <- E in Hx.
      exact (Permutation_in x (EngineFacts.bubblePass_perm _ _) Hx). }
    apply IH; [exact Hl | |].
    + constructor; [exact Hs |]. apply List.Forall_forall. intros y Hy.
      apply Hps; [| exact Hy]. apply Hin, in_or_app. right. left. reflexivity.
    + intros x y Hx [<- | Hy]; [apply Hm, Hx |].
      apply Hps; [| exact Hy]. apply Hin, in_or_app. left. exact Hx.
Qed.

(** X1. [sortCandidates] orders the candidates by decreasing score, and by
    decreasing area among equal scores: the result holds the same candidates
    as the input, and of two of its elements the earlier one never has the
    lower score, nor the smaller area at equal scores. *)
Theorem sortCandidates_sorted (candidates : list ImageCandidate) :
  Permutation (sortCandidates candidates) candidates /\
  forall i j a b,
    (i < j)%nat ->
    sortCandidates candidates !! i = Some a ->
    sortCandidates candidates !! j = Some b ->
    (CandScore b <= CandScore a)%Q /\
    ((CandScore a == CandScore b)%Q -> Area b <= Area a).
Proof.
  split; [apply EngineFacts.bubbleLoop_perm |].
  assert (Hs : StronglySorted inOrder (sortCandidates candidates)).
  { unfold sortCandidates. destruct candidates as [| a p]; [constructor |].
    cbn [length]. replace (S (length p) - 1)%nat with (length p) by lia.
    rewrite <- (app_nil_r (a :: p)).
    apply bubbleLoop_sorted; [reflexivity | constructor | intros x y _ []]. }
  revert Hs. generalize (sortCandidates candidates). intros l Hs.
  induction Hs as [| x l Hl IH Hx]; intros i j a b Hij Ha Hb.
  - rewrite lookup_nil in Ha. discriminate.
  - destruct j as [| j]; [lia |]. destruct i as [| i].
    + simpl in Ha, Hb. injection Ha as ->.
      apply list_elem_of_lookup_2, list_elem_of_In in Hb.
      rewrite List.Forall_forall in Hx. specialize (Hx b Hb).
      unfold outOfOrder in Hx.
      destruct (CandScore a ?= CandScore b)%Q eqn:Hc; try discriminate.
      * apply Qeq_alt in Hc. split; [rewrite Hc; apply Qle_refl |].
        intros _. apply Z.ltb_ge in Hx. exact Hx.
      * apply Qgt_alt in Hc. split; [apply Qlt_le_weak, Hc |].
        intros E. rewrite E in Hc. exfalso. exact (Qlt_irrefl _ Hc).
    + simpl in Ha, Hb. apply (IH i j); [lia | exact Ha | exact Hb].
Qed.

End SortFacts.

(** ** Image engine: the images kept, in terms of first occurrences *)
Module TopImagesFacts.
Import Models Images ImagesRef.
Local Open Scope list_scope.

Lemma distinctURLs_snoc u : forall l,
  distinctURLs (l ++ [u]) =
  if existsb (String.eqb u) l then distinctURLs l else distinctURLs l ++ [u].
Proof.
  induction l as [| a l IH]; [reflexivity |].
  cbn [app distinctURLs existsb]. rewrite IH.
  destruct (String.eqb_spec u a) as [-> | Hne]; cbn [orb].
  - destruct (existsb (String.eqb a) l); [reflexivity |].
    rewrite List.filter_app. cbn [List.filter]. rewrite String.eqb_refl.
    cbn [negb]. rewrite app_nil_r. reflexivity.
  - destruct (existsb (String.eqb u) l); [reflexivity |].
    rewrite List.filter_app. cbn [List.filter].
    destruct (String.eqb_spec u a); [contradiction |]. reflexivity.
Qed.

Lemma topStep_order seen m ord c :
  topInv seen (m, ord) ->
  ord = distinctURLs (map CandURL seen) ->
  snd (topStep (m, ord) c) = distinctURLs (map CandURL (seen ++ [c])).
Proof.
  intros (_ & Hdom & Hsome & Hnone) ->.
  rewrite map_app. cbn [map]. rewrite distinctURLs_snoc.
  unfold topStep.
  destruct (m !! CandURL c) as [img |] eqn:Hm.
  - assert (Hin : CandURL c ∈ distinctURLs (map CandURL seen)).
    { destruct (decide (CandURL c ∈ distinctURLs (map CandURL seen)))
        as [H | H]; [exact H |].
      rewrite (Hnone _ H) in Hm. discriminate. }
    apply Hdom in Hin. destruct Hin as (c0 & H0 & E).
    assert (Hex : existsb (String.eqb (CandURL c)) (map CandURL seen) = true).
    { apply existsb_exists. exists (CandURL c0). split.
      - apply in_map, list_elem_of_In, H0.
      - rewrite E. apply String.eqb_refl. }
    rewrite Hex.
    destruct (String.eqb (ImageAlt img) "" && negb (String.eqb (CandAlt c) ""));
      reflexivity.
  - assert (Hex : existsb (String.eqb (CandURL c)) (map CandURL seen) = false).
    { destruct (existsb (String.eqb (CandURL c)) (map CandURL seen)) eqn:Hex;
        [| reflexivity].
      apply existsb_exists in Hex. destruct Hex as (u & Hu & E).
      apply String.eqb_eq in E. subst u.
      apply in_map_iff in Hu. destruct Hu as (c0 & E & H0).
      assert (Hin : CandURL c ∈ distinctURLs (map CandURL seen)).
      { apply Hdom. exists c0. split; [apply list_elem_of_In, H0 | exact E]. }
      rewrite (Hsome _ Hin) in Hm. discriminate. }
    rewrite Hex. reflexivity.
Qed.

Lemma fold_topStep_order l : forall seen acc,
  topInv seen acc ->
  snd acc = distinctURLs (map CandURL seen) ->
  topInv (seen ++ l) (fold_left topStep l acc) /\
  snd (fold_left topStep l acc) = distinctURLs (map CandURL (seen ++ l)).
Proof.
  induction l as [| c l IH]; intros seen acc Hinv Hord.
  - rewrite app_nil_r. split; assumption.
  - cbn [fold_left].
    replace (seen ++ c :: l) with ((seen ++ [c]) ++ l)
      by (rewrite <- app_assoc; reflexivity).
    apply IH; [apply ImagesFacts.topStep_inv, Hinv |].
    destruct acc as [m ord]. apply topStep_order; [exact Hinv | exact Hord].
Qed.

(** X2. [getTopImages] keeps one image per URL, in the order in which the
    URLs first occur among the candidates, cut after [limit] of them (none
    for a limit of zero or less); each image carries the first non-empty alt
    text found among the candidates with its URL. *)
Theorem getTopImages_first_occurrences
    (candidates : list ImageCandidate) (limit : Z) :
  getTopImages candidates limit =
  map (fun url => mkImage url (firstAlt url candidates))
      (take (Z.to_nat limit) (distinctURLs (map CandURL candidates))).
Proof.
  unfold getTopImages.
  destruct (fold_topStep_order candidates [] (∅, []) ImagesFacts.topInv_nil
              eq_refl) as [Hinv Hord].
  cbn [app] in Hinv, Hord.
  destruct (fold_left topStep candidates (∅, [])) as [m ord].
  cbn [snd] in Hord. subst ord.
  destruct Hinv as (_ & _ & Hsome & _).
  apply map_ext_in. intros u Hu. apply list_elem_of_In in Hu.
  rewrite (Hsome u (subseteq_take _ _ u Hu)). reflexivity.
Qed.

End TopImagesFacts.

(** ** Image engine: the choice within a srcset *)
Module SrcsetFacts.
Import Models Images Dom Engine.
Local Open Scope list_scope.

Section Srcset.

Variable L : Lib.GoLib.
Variable ie : ImageExtractor.

Local Abbreviation srcsetEntries := (Engine.srcsetEntries L ie).
Local Abbreviation pickFromSrcset := (Engine.pickFromSrcset L ie).

(** [a] is at least as good a choice as [b]: nearer to the target width, or
    as near and not narrower. *)
Local Abbreviation atLeastAsGood := (fun a b : string * Z =>
  Z.abs (snd a - TargetImageWidth) < Z.abs (snd b - TargetImageWidth) \/
  (Z.abs (snd a - TargetImageWidth) = Z.abs (snd b - TargetImageWidth) /\
   snd b <= snd a)).

Lemma closer_choice best candidate :
  (closer best candidate = best \/ closer best candidate = candidate) /\
  atLeastAsGood (closer best candidate) best /\
  atLeastAsGood (closer best candidate) candidate.
Proof.
  unfold closer.
  destruct (Z.ltb_spec (Z.abs (snd candidate - TargetImageWidth))
              (Z.abs (snd best - TargetImageWidth))) as [Hlt | Hge];
    cbn [orb].
  - split; [right; reflexivity |]. split; [left; exact Hlt | right; lia].
  - destruct (Z.eqb_spec (Z.abs (snd candidate - TargetImageWidth))
                (Z.abs (snd best - TargetImageWidth))) as [Heq | Hne];
      cbn [andb].
    + destruct (Z.ltb_spec (snd best) (snd candidate)) as [Hw | Hw].
      * split; [right; reflexivity |]. split; right; lia.
      * split; [left; reflexivity |]. split; right; lia.
    + split; [left; reflexivity |]. split; [right; lia | left; lia].
Qed.

Lemma fold_closer rest : forall best,
  In (fold_left closer rest best) (best :: rest) /\
  forall e, In e (best :: rest) -> atLeastAsGood (fold_left closer rest best) e.
Proof.
  induction rest as [| c rest IH]; intros best; cbn [fold_left].
  - split; [left; reflexivity |]. intros e [<- | []]. right. lia.
  - destruct (IH (closer best c)) as [Hin Hbest].
    destruct (closer_choice best c) as (Hch & Hb & Hc).
    split.
    + destruct Hin as [Hin | Hin].
      * rewrite <- Hin. destruct Hch as [-> | ->];
          [left; reflexivity | right; left; reflexivity].
      * right. right. exact Hin.
    + assert (Htop := Hbest (closer best c) (or_introl eq_refl)).
      intros e [<- | [<- | He]].
      * destruct Htop as [? | [? ?]], Hb as [? | [? ?]];
          [left; lia | left; lia | left; lia | right; lia].
      * destruct Htop as [? | [? ?]], Hc as [? | [? ?]];
          [left; lia | left; lia | left; lia | right; lia].
      * apply Hbest. right. exact He.
Qed.

(** X3. [pickFromSrcset] returns the empty string when no item of the
    [srcset] parses; otherwise it returns the URL of an entry whose width is
    nearest to 1000, and the widest of those at that distance. *)
Theorem pickFromSrcset_closest (srcset : string) :
  (srcsetEntries srcset = [] /\ pickFromSrcset srcset = "") \/
  exists url w,
    In (url, w) (srcsetEntries srcset) /\
    pickFromSrcset srcset = url /\
    forall url' w', In (url', w') (srcsetEntries srcset) ->
      Z.abs (w - 1000) < Z.abs (w' - 1000) \/
      (Z.abs (w - 1000) = Z.abs (w' - 1000) /\ w' <= w).
Proof.
  unfold Engine.pickFromSrcset.
  destruct (srcsetEntries srcset) as [| first rest]; [left; auto |].
  right. destruct (fold_closer rest first) as [Hin Hbest].
  destruct (fold_left closer rest first) as [url w].
  exists url, w. split; [exact Hin |]. split; [reflexivity |].
  intros url' w' He. exact (Hbest (url', w') He).
Qed.

End Srcset.

End SrcsetFacts.

(** ** Image engine: the article-scope test *)
Module ScopeFacts.
Import Models Images Dom Engine.
Local Open Scope list_scope.

Section Scope.

Variable L : Lib.GoLib.
Variable ie : ImageExtractor.

Local Abbreviation isExcludedSection := (Engine.isExcludedSection L).
Local Abbreviation isInExcludedSection := (Engine.isInExcludedSection L ie).
Local Abbreviation inScopeLoop := (Engine.inScopeLoop L ie).
Local Abbreviation isInArticleScope := (Engine.isInArticleScope L ie).

Lemma inScopeLoop_true ancestors :
  inScopeLoop ancestors = true ->
  exists container,
    In container ancestors /\
    matchesAny articleScope container = true /\
    isInExcludedSection container = false.
Proof.
  induction ancestors as [| parent rest IH]; cbn [Engine.inScopeLoop];
    [discriminate |].
  destruct (isInExcludedSection parent) eqn:Hex; [discriminate |].
  destruct (matchesAny articleScope parent) eqn:Hm.
  - intros _. exists parent. split; [left; reflexivity | auto].
  - intros H. destruct (IH H) as (c & Hc & Hrest).
    exists c. split; [right; exact Hc | exact Hrest].
Qed.

(** X4. An element counts as inside the article only if one of its
    ancestors is an article container that is not itself inside an excluded
    section, and no ancestor above its direct parent is an excluded section.
    The direct parent is the one ancestor whose own class and id are never
    tested. *)
Theorem isInArticleScope_true (s : Selection) :
  isInArticleScope s = true ->
  (exists container,
     In container (ancestorSelections (parents s)) /\
     matchesAny articleScope container = true /\
     isInExcludedSection container = false) /\
  forall a, In a (tl (ancestorSelections (parents s))) ->
    isExcludedSection a = false.
Proof.
  unfold Engine.isInArticleScope. intros H.
  split; [apply inScopeLoop_true, H |].
  destruct (parents s) as [| p rest]; [discriminate |].
  cbn [ancestorSelections Engine.inScopeLoop tl] in *.
  destruct (isInExcludedSection (mkSel p rest)) eqn:Hex; [discriminate |].
  unfold Engine.isInExcludedSection in Hex. cbn [parents] in Hex.
  destruct (existsb isExcludedSection (ancestorSelections rest)) eqn:Hany;
    [discriminate |].
  intros a Ha.
  destruct (isExcludedSection a) eqn:Hx; [| reflexivity].
  rewrite <- Hany. symmetry. apply existsb_exists. exists a. auto.
Qed.

End Scope.

(** The picture of the sample article is inside the article although its
    direct parent is an excluded section. *)
Lemma isInArticleScope_true_witness :
  existsb (Engine.isExcludedSection Pages.lib)
    (take 1 (ancestorSelections (parents ScopePages.picture))) = true /\
  ((exists container,
      In container (ancestorSelections (parents ScopePages.picture)) /\
      matchesAny articleScope container = true /\
      Engine.isInExcludedSection Pages.lib Pages.extractor container = false) /\
   forall a, In a (tl (ancestorSelections (parents ScopePages.picture))) ->
     Engine.isExcludedSection Pages.lib a = false).
Proof.
  split; [vm_compute; reflexivity |].
  apply (isInArticleScope_true Pages.lib Pages.extractor ScopePages.picture).
  vm_compute. reflexivity.
Defined.

End ScopeFacts.

(** ** Orchestrator: successes, call budget and timeouts *)
Module OrchestratorFacts.
Import Models Scraper.
Local Open Scope list_scope.

Section Orchestrator.

Variable env : Env.
Variable ctx : Context.

Local Abbreviation ScrapeSmart := (Scraper.ScrapeSmart env ctx).
Local Abbreviation httpPhase := (Scraper.httpPhase env ctx).
Local Abbreviation attemptHTTP := (Scraper.attemptHTTP env ctx).
Local Abbreviation browserPhase := (Scraper.browserPhase env ctx).
Local Abbreviation browserFailed := (Scraper.browserFailed env ctx).
Local Abbreviation emptyExtraction := (Scraper.emptyExtraction).

Lemma adjustTimeoutForBudget_le base remaining percent :
  adjustTimeoutForBudget env base remaining percent <= base.
Proof.
  unfold adjustTimeoutForBudget.
  destruct (Z.ltb_spec (scaleDuration env remaining percent) base); lia.
Qed.

Lemma browserFailed_err url err st :
  snd (browserFailed url err st) = st /\
  exists e, fst (browserFailed url err st) = Go.Err e.
Proof.
  unfold Scraper.browserFailed, bind, now, ret.
  destruct (ctxErr ctx (clock st)); cbn [fst snd]; [eauto |].
  destruct (IsCloudflareBlock env err); cbn [fst snd]; eauto.
Qed.

(** The calls of the HTTP phase: none, the fetch, or the fetch and an
    extraction; a result it hands back is not empty. *)
Lemma httpPhase_calls url st :
  (exists t,
     1 * Second <= t <= HTTPTimeout /\
     (trace (snd (httpPhase url st)) = trace st \/
      trace (snd (httpPhase url st)) = trace st ++ [HTTPFetch url t] \/
      exists finalURL,
        trace (snd (httpPhase url st)) =
        trace st ++ [HTTPFetch url t; Extracted finalURL])) /\
  forall result,
    fst (httpPhase url st) = Finished (Go.Ok result) ->
    emptyExtraction result = false.
Proof.
  unfold Scraper.httpPhase, bind, now.
  destruct (Z.ltb_spec (httpTimeoutAt env ctx (clock st)) (1 * Second))
    as [Hlow | Hok].
  - split; [| discriminate].
    exists HTTPTimeout. split; [unfold HTTPTimeout, Second, Millisecond; lia |].
    left. reflexivity.
  - assert (Hle : httpTimeoutAt env ctx (clock st) <= HTTPTimeout)
      by apply adjustTimeoutForBudget_le.
    set (t := httpTimeoutAt env ctx (clock st)) in *.
    unfold Scraper.attemptHTTP, Scraper.extract, bind, now, spend, ret.
    cbn [clock trace fst snd].
    destruct (fetched (FetchWithAlternatesGroup env (clock st) t url))
      as [[html finalURL] | e]; cbn [clock trace fst snd].
    + destruct (minimalHTML env html); cbn [clock trace fst snd].
      * split.
        -- exists t. split; [lia |]. right. left.
           destruct (ctxErr ctx _); reflexivity.
        -- intros result. destruct (ctxErr ctx _); discriminate.
      * destruct (emptyExtraction
                    (ExtractArticleWithMultipleStrategies env html finalURL))
          eqn:Hempty; cbn [clock trace fst snd].
        -- split.
           ++ exists t. split; [lia |]. right. right. exists finalURL.
              destruct (ctxErr ctx _); cbn [trace snd];
                rewrite <- app_assoc; reflexivity.
           ++ intros result. destruct (ctxErr ctx _); discriminate.
        -- split.
           ++ exists t. split; [lia |]. right. right. exists finalURL.
              rewrite <- app_assoc. reflexivity.
           ++ intros result H. injection H as <-. exact Hempty.
    + split.
      * exists t. split; [lia |]. right. left.
        destruct (ctxErr ctx _); reflexivity.
      * intros result. destruct (ctxErr ctx _); discriminate.
Qed.

(** The calls of the browser phase: none, the launch, or the launch and an
    extraction; a result it hands back is not empty. *)
Lemma browserPhase_calls url st :
  (exists timeoutMs,
     timeoutMs <= 60000 /\
     (trace (snd (browserPhase url st)) = trace st \/
      trace (snd (browserPhase url st)) = trace st ++ [BrowserScrape url timeoutMs] \/
      exists finalURL,
        trace (snd (browserPhase url st)) =
        trace st ++ [BrowserScrape url timeoutMs; Extracted finalURL])) /\
  forall result,
    fst (browserPhase url st) = Go.Ok result ->
    emptyExtraction result = false.
Proof.
  unfold Scraper.browserPhase, bind, now.
  destruct (Z.ltb_spec (calculateRemainingTime ctx (clock st) - 5 * Second)
              (1 * Second)) as [Hlow | Hok].
  - split; [| discriminate]. exists 0. split; [lia |]. left. reflexivity.
  - set (browserTimeout :=
           adjustTimeoutForBudget env BrowserTimeout
             (calculateRemainingTime ctx (clock st) - 5 * Second) 1).
    assert (Hms : Z.quot browserTimeout Millisecond <= 60000).
    { assert (Hle : browserTimeout <= BrowserTimeout)
        by apply adjustTimeoutForBudget_le.
      replace 60000 with (Z.quot BrowserTimeout Millisecond) by reflexivity.
      apply Z.quot_le_mono; [reflexivity | exact Hle]. }
    set (timeoutMs := Z.quot browserTimeout Millisecond) in *.
    unfold Scraper.extract, bind, spend, ret. cbn [clock trace fst snd].
    destruct (fetched (ScrapeWithBrowserOptimized env (clock st) timeoutMs url))
      as [[html finalURL] | e]; cbn [clock trace fst snd].
    + destruct (emptyExtraction
                  (ExtractArticleWithMultipleStrategies env html finalURL))
        eqn:Hempty.
      * match goal with
        | |- context [browserFailed ?u ?m ?s] =>
            destruct (browserFailed_err u m s) as [Hst [e0 He]]
        end.
        rewrite Hst, He. cbn [trace]. split; [| discriminate].
        exists timeoutMs. split; [exact Hms |]. right. right. exists finalURL.
        rewrite <- app_assoc. reflexivity.
      * cbn [trace fst snd]. split.
        -- exists timeoutMs. split; [exact Hms |]. right. right.
           exists finalURL. rewrite <- app_assoc. reflexivity.
        -- intros result H. injection H as <-. exact Hempty.
    + match goal with
      | |- context [browserFailed ?u ?m ?s] =>
          destruct (browserFailed_err u m s) as [Hst [e0 He]]
      end.
      rewrite Hst, He. cbn [trace]. split; [| discriminate].
      exists timeoutMs. split; [exact Hms |]. right. left. reflexivity.
Qed.

(** X5. A successful [ScrapeSmart] never hands back an empty article: the
    result has a title or a content, whichever tier produced it. *)
Theorem ScrapeSmart_success_not_empty url st result :
  fst (ScrapeSmart url st) = Go.Ok result ->
  0 < Go.len (Title result) \/ 0 < Go.len (Content result).
Proof.
  intros H.
  assert (Hne : emptyExtraction result = false).
  { unfold Scraper.ScrapeSmart in H.
    destruct (Lib.url_Parse (lib env) url) as [u | e] eqn:Hparse;
      [| discriminate].
    assert (Hrun := ScraperFacts.ScrapeSmart_run env ctx url st u Hparse).
    unfold Scraper.ScrapeSmart in Hrun. rewrite Hparse in Hrun.
    rewrite Hrun in H. clear Hrun.
    destruct (fst (httpPhase url (snd (randomDelay st)))) as [r |] eqn:Hfst.
    - cbn [fst] in H. subst r.
      exact (proj2 (httpPhase_calls url _) result Hfst).
    - exact (proj2 (browserPhase_calls url _) result H). }
  unfold Scraper.emptyExtraction in Hne.
  pose proof (ExtractorFacts.len_nonneg (Content result)).
  pose proof (ExtractorFacts.len_nonneg (Title result)).
  destruct (Z.eqb_spec (Go.len (Content result)) 0);
    destruct (Z.eqb_spec (Go.len (Title result)) 0);
    try discriminate; lia.
Qed.

Lemma httpCalls_app l1 l2 :
  httpCalls (l1 ++ l2) = (httpCalls l1 + httpCalls l2)%nat.
Proof. unfold httpCalls. rewrite List.filter_app, length_app. reflexivity. Qed.

Lemma browserCalls_app l1 l2 :
  browserCalls (l1 ++ l2) = (browserCalls l1 + browserCalls l2)%nat.
Proof. unfold browserCalls. rewrite List.filter_app, length_app. reflexivity. Qed.

(** X6. One call of [ScrapeSmart] makes at most one HTTP fetch and launches
    the browser at most once, both on the URL it was given; the HTTP fetch
    is given between 1 and 12 seconds, the browser at most 60000
    milliseconds. *)
Theorem ScrapeSmart_call_budget url st :
  exists events,
    trace (snd (ScrapeSmart url st)) = trace st ++ events /\
    (httpCalls events <= 1)%nat /\
    (browserCalls events <= 1)%nat /\
    forall e, In e events ->
      match e with
      | HTTPFetch u timeout =>
          u = url /\ 1 * Second <= timeout <= 12 * Second
      | BrowserScrape u timeoutMs => u = url /\ timeoutMs <= 60000
      | _ => True
      end.
Proof.
  destruct (Lib.url_Parse (lib env) url) as [u | e] eqn:Hparse.
  - rewrite (ScraperFacts.ScrapeSmart_run env ctx url st u Hparse).
    set (st0 := snd (randomDelay st)).
    assert (Hst0 : exists d, trace st0 = trace st ++ [Slept d]).
    { eexists. reflexivity. }
    destruct Hst0 as [d Hst0].
    destruct (httpPhase_calls url st0) as [(t & Ht & Hhttp) _].
    set (st1 := snd (httpPhase url st0)) in *.
    assert (H1 : exists hs,
               trace st1 = trace st ++ Slept d :: hs /\
               (httpCalls hs <= 1)%nat /\ browserCalls hs = 0%nat /\
               forall e, In e hs ->
                 match e with
                 | HTTPFetch u0 timeout =>
                     u0 = url /\ 1 * Second <= timeout <= 12 * Second
                 | BrowserScrape u0 timeoutMs => u0 = url /\ timeoutMs <= 60000
                 | _ => True
                 end).
    { destruct Hhttp as [E | [E | [f E]]]; rewrite E, Hst0.
      - exists []. repeat split; auto. intros e0 [].
      - exists [HTTPFetch url t]. rewrite <- app_assoc. repeat split; auto.
        intros e0 [<- | []]. split; [reflexivity | exact Ht].
      - exists [HTTPFetch url t; Extracted f]. rewrite <- app_assoc.
        repeat split; auto.
        intros e0 [<- | [<- | []]]; [split; [reflexivity | exact Ht] | exact I]. }
    destruct H1 as (hs & Etr & Hh & Hb & Hall).
    destruct (fst (httpPhase url st0)) as [r |].
    + exists (Slept d :: hs). cbn [snd]. fold st1.
      split; [exact Etr |]. split; [exact Hh |].
      split; [change (browserCalls (Slept d :: hs)) with (browserCalls hs); lia |].
      intros e0 [<- | He]; [exact I | apply Hall, He].
    + destruct (browserPhase_calls url st1) as [(ms & Hms & Hbr) _].
      assert (H2 : exists bs,
                 trace (snd (browserPhase url st1)) = trace st1 ++ bs /\
                 httpCalls bs = 0%nat /\ (browserCalls bs <= 1)%nat /\
                 forall e, In e bs ->
                   match e with
                   | HTTPFetch u0 timeout =>
                       u0 = url /\ 1 * Second <= timeout <= 12 * Second
                   | BrowserScrape u0 timeoutMs =>
                       u0 = url /\ timeoutMs <= 60000
                   | _ => True
                   end).
      { destruct Hbr as [E | [E | [f E]]]; rewrite E.
        - exists []. rewrite app_nil_r. repeat split; auto. intros e0 [].
        - exists [BrowserScrape url ms]. repeat split; auto.
          intros e0 [<- | []]. split; [reflexivity | exact Hms].
        - exists [BrowserScrape url ms; Extracted f]. repeat split; auto.
          intros e0 [<- | [<- | []]];
            [split; [reflexivity | exact Hms] | exact I]. }
      destruct H2 as (bs & Ebr & Hh2 & Hb2 & Hall2).
      exists (Slept d :: hs ++ bs).
      split; [rewrite Ebr, Etr, <- app_assoc; reflexivity |].
      split; [change (httpCalls (Slept d :: hs ++ bs))
                with (httpCalls (hs ++ bs)); rewrite httpCalls_app; lia |].
      split; [change (browserCalls (Slept d :: hs ++ bs))
                with (browserCalls (hs ++ bs)); rewrite browserCalls_app; lia |].
      intros e0 [<- | He]; [exact I |].
      apply in_app_or in He. destruct He as [He | He];
        [apply Hall, He | apply Hall2, He].
  - exists []. unfold Scraper.ScrapeSmart. rewrite Hparse.
    cbn [snd ret]. unfold ret. cbn [snd]. rewrite app_nil_r.
    repeat split; auto. intros e0 [].
Qed.

(** X7. The timeout the browser is launched with, when the conversion of the
    time left through [float64] is exact: at least one second, at most 60
    seconds, and never more than the time left less the buffer of 5
    seconds. *)
Theorem browser_timeout_within_budget url st timeoutMs rest :
  let budget := calculateRemainingTime ctx (clock st) - 5 * Second in
  scaleDuration env budget 1 = budget ->
  trace (snd (browserPhase url st)) =
    trace st ++ BrowserScrape url timeoutMs :: rest ->
  1000 <= timeoutMs <= 60000 /\
  timeoutMs * Millisecond <= calculateRemainingTime ctx (clock st) - 5 * Second.
Proof.
  intros budget Hscale Htrace.
  unfold Scraper.browserPhase, bind, now in Htrace.
  fold budget in Htrace.
  destruct (Z.ltb_spec budget (1 * Second)) as [Hlow | Hok].
  - exfalso. cbn [snd ret] in Htrace. unfold ret in Htrace. cbn [snd] in Htrace.
    rewrite <- (app_nil_r (trace st)) in Htrace at 1.
    apply app_inv_head in Htrace. discriminate.
  - assert (Hms : timeoutMs =
                  Z.quot (adjustTimeoutForBudget env BrowserTimeout budget 1)
                         Millisecond).
    { revert Htrace.
      set (ms := Z.quot (adjustTimeoutForBudget env BrowserTimeout budget 1)
                        Millisecond).
      unfold Scraper.extract, bind, spend, ret. cbn [clock trace fst snd].
      destruct (fetched (ScrapeWithBrowserOptimized env (clock st) ms url))
        as [[html finalURL] | e]; cbn [clock trace fst snd].
      - destruct (emptyExtraction _).
        + match goal with
          | |- context [browserFailed ?u ?m ?s] =>
              destruct (browserFailed_err u m s) as [Hst _]
          end.
          rewrite Hst. cbn [trace]. rewrite <- app_assoc. intros H.
          apply app_inv_head in H. injection H as H _. congruence.
        + cbn [trace snd]. rewrite <- app_assoc. intros H.
          apply app_inv_head in H. injection H as H _. congruence.
      - match goal with
        | |- context [browserFailed ?u ?m ?s] =>
            destruct (browserFailed_err u m s) as [Hst _]
        end.
        rewrite Hst. cbn [trace]. intros H.
        apply app_inv_head in H. injection H as H _. congruence. }
    subst timeoutMs. unfold adjustTimeoutForBudget. rewrite Hscale.
    unfold BrowserTimeout, Second, Millisecond in *.
    destruct (Z.ltb_spec budget (60 * (1000 * 1000000))) as [Hlt | Hge].
    + pose proof (Z.quot_le_mono 1000000000 budget 1000000 ltac:(lia) ltac:(lia)).
      pose proof (Z.quot_le_mono budget (60 * (1000 * 1000000)) 1000000
                    ltac:(lia) ltac:(lia)).
      pose proof (Z.mul_quot_le budget 1000000 ltac:(lia) ltac:(lia)).
      change (Z.quot 1000000000 1000000) with 1000 in *.
      change (Z.quot (60 * (1000 * 1000000)) 1000000) with 60000 in *.
      lia.
    + change (Z.quot (60 * (1000 * 1000000)) 1000000) with 60000. lia.
Qed.

End Orchestrator.

(** [ScrapeSmart_success_not_empty] on a page that tier 1 accepts. *)
Lemma ScrapeSmart_success_not_empty_witness :
  0 < Go.len (Title (wholePage articlePage "https://example.com/a")) \/
  0 < Go.len (Content (wholePage articlePage "https://example.com/a")).
Proof.
  apply (ScrapeSmart_success_not_empty
           (envWith (Go.Ok (articlePage, "https://example.com/a"))
              (300 * Millisecond) wholePage (20 * Millisecond))
           twentySeconds "https://example.com/a" start).
  vm_compute. reflexivity.
Defined.

(** [browser_timeout_within_budget] on a request with 20 seconds whose
    tier 1 returned a page below the floor after 300 milliseconds: 19.6
    seconds are left, the browser gets 14.6. *)
Lemma browser_timeout_within_budget_witness :
  1000 <= 14600 <= 60000 /\
  14600 * Millisecond <=
    calculateRemainingTime twentySeconds (400 * Millisecond) - 5 * Second.
Proof.
  apply (browser_timeout_within_budget
           (envWith (Go.Ok (shortPage, "https://example.com/a"))
              (300 * Millisecond) wholePage (20 * Millisecond))
           twentySeconds "https://example.com/a"
           (mkState (400 * Millisecond)
              [Slept (100 * Millisecond);
               HTTPFetch "https://example.com/a" (12 * Second)])
           14600 []).
  - vm_compute. reflexivity.
  - vm_compute. reflexivity.
Defined.

End OrchestratorFacts.

(** ** Orchestrator: the validation of the URL *)

Module ValidationFacts.
Import Models Scraper.
Local Open Scope list_scope.

Section Orchestrator.

Variable env : Env.
Variable ctx : Context.

Local Abbreviation ScrapeSmart := (Scraper.ScrapeSmart env ctx).
Local Abbreviation httpPhase := (Scraper.httpPhase env ctx).
Local Abbreviation browserPhase := (Scraper.browserPhase env ctx).

(** An error of the HTTP phase is the parent-context error. *)
Lemma httpPhase_error url st e :
  fst (httpPhase url st) = Finished (Go.Err e) ->
  exists cause, e = ParentExpiredDuringHTTP cause.
Proof.
  unfold Scraper.httpPhase, bind, now.
  destruct (httpTimeoutAt env ctx (clock st) <? 1 * Second); [discriminate |].
  pose proof (ScraperFacts.attemptHTTP_spec env ctx url
                (httpTimeoutAt env ctx (clock st)) st) as [_ Hspec].
  cbv zeta in Hspec. rewrite Hspec.
  destruct (tier1Accepts _ _); [discriminate |].
  destruct (ctxErr ctx _) as [cause |]; [| discriminate].
  intros H. injection H as <-. eauto.
Qed.

(** The errors of the browser phase. *)
Lemma browserPhase_error url st e :
  fst (browserPhase url st) = Go.Err e ->
  forall cause, e <> InvalidURL cause.
Proof.
  unfold Scraper.browserPhase, Scraper.extract, Scraper.browserFailed,
    bind, now, spend, ret.
  cbn [clock trace fst snd].
  intros H cause ->. revert H.
  repeat match goal with
         | |- context [if ?b then _ else _] => destruct b; cbn [clock trace fst snd]
         | |- context [match ?x with _ => _ end] => destruct x; cbn [clock trace fst snd]
         end; discriminate.
Qed.

(** C5 (as amended).  [ScrapeSmart] rejects exactly the strings that
    [url.Parse] refuses.  For such a string it returns the invalid-URL error
    at once: the state is the one it was called in, so nothing was slept,
    fetched or launched.  A string that [url.Parse] accepts is never answered
    with the invalid-URL error, whatever it looks like: [ScrapeSmart] sleeps
    its delay and goes on to the tiers. *)
Theorem ScrapeSmart_rejects_malformed url st :
  (forall e, Lib.url_Parse (lib env) url = Go.Err e ->
     ScrapeSmart url st = (Go.Err (InvalidURL e), st) /\
     httpCalls (trace (snd (ScrapeSmart url st))) = httpCalls (trace st) /\
     browserCalls (trace (snd (ScrapeSmart url st))) = browserCalls (trace st)) /\
  (forall u, Lib.url_Parse (lib env) url = Go.Ok u ->
     (forall e, fst (ScrapeSmart url st) <> Go.Err (InvalidURL e)) /\
     exists rest,
       trace (snd (ScrapeSmart url st)) =
       trace st ++ Slept ((100 + Z.rem (clock st) 400) * Millisecond) :: rest).
Proof.
  split.
  - intros e Hparse. unfold Scraper.ScrapeSmart. rewrite Hparse.
    unfold ret. simpl. auto.
  - intros u Hparse.
    rewrite (ScraperFacts.ScrapeSmart_run env ctx url st u Hparse).
    set (st0 := snd (randomDelay st)).
    assert (Hst0 : trace st0 =
                   trace st ++ [Slept ((100 + Z.rem (clock st) 400) * Millisecond)])
      by reflexivity.
    destruct (OrchestratorFacts.httpPhase_calls env ctx url st0)
      as [(t & _ & Htrace1) _].
    assert (Hpre1 : exists rest1, trace (snd (httpPhase url st0)) = trace st0 ++ rest1).
    { destruct Htrace1 as [H | [H | (f & H)]]; rewrite H;
        [exists []; rewrite app_nil_r; reflexivity | eauto | eauto]. }
    destruct Hpre1 as (rest1 & Hrest1).
    destruct (fst (httpPhase url st0)) as [[result | err] |] eqn:Hfst;
      cbn [fst snd].
    + split; [discriminate |]. exists rest1.
      rewrite Hrest1, Hst0, <- app_assoc. reflexivity.
    + split.
      * destruct (httpPhase_error url st0 err Hfst) as (cause & ->).
        intros e. discriminate.
      * exists rest1. rewrite Hrest1, Hst0, <- app_assoc. reflexivity.
    + set (st1 := snd (httpPhase url st0)) in *.
      split.
      * intros e He. destruct (fst (browserPhase url st1)) as [r | err] eqn:Hb;
          [discriminate |].
        injection He as ->. exact (browserPhase_error url st1 _ Hb e eq_refl).
      * destruct (OrchestratorFacts.browserPhase_calls env ctx url st1)
          as [(ms & _ & Htrace2) _].
        destruct Htrace2 as [H | [H | (f & H)]]; rewrite H, Hrest1, Hst0;
          eexists; rewrite <- !app_assoc; reflexivity.
Qed.

End Orchestrator.

(** A URL with a line feed in it is refused by [url.Parse]. *)
Example broken_url_rejected :
  ScrapeSmart (envWith (Go.Ok (articlePage, "https://example.com/a")) (300 * Millisecond)
                 wholePage (20 * Millisecond))
    twentySeconds brokenURL start
  = (Go.Err (InvalidURL "net/url: invalid control character in URL"), start).
Proof. reflexivity. Qed.

(** C5 (as stated) fails: [url.Parse] accepts the string [not a url], which
    has neither scheme nor host, as a relative path.  [ScrapeSmart] does not
    reject it: it sleeps, calls the HTTP tier, launches the browser, and in
    the end reports that both phases failed. *)
Lemma malformed_url_reaches_the_tiers :
  ScrapeSmart (envWith (Go.Err "unsupported protocol scheme") (300 * Millisecond)
                 nothingFound (20 * Millisecond))
    twentySeconds "not a url" start
  = (Go.Err (BothPhasesFailed "navigation failed"),
     mkState (2400 * Millisecond)
       [Slept (100 * Millisecond);
        HTTPFetch "not a url" (12 * Second);
        BrowserScrape "not a url" 14600]) /\
  httpCalls [Slept (100 * Millisecond);
             HTTPFetch "not a url" (12 * Second);
             BrowserScrape "not a url" 14600] = 1%nat /\
  browserCalls [Slept (100 * Millisecond);
                HTTPFetch "not a url" (12 * Second);
                BrowserScrape "not a url" 14600] = 1%nat.
Proof. vm_compute. repeat split; reflexivity. Qed.

End ValidationFacts.


(** ** Browser tier: navigation with retries and alternate URLs *)
Module NavigationFacts.
Import Browser Navigation.
Local Open Scope list_scope.

(** X8. [calculateChallengeWait] stays between 3 and 30 seconds; it leaves the
    5 seconds of clean-up untouched whenever at least 8 seconds remain, and
    is 3 seconds, whatever remains, below that. *)
Theorem calculateChallengeWait_bounds (deadline : option Z) (now : Z) :
  3 * Second <= calculateChallengeWait deadline now <= 30 * Second /\
  forall d, deadline = Some d ->
    (8 * Second <= d - now ->
     calculateChallengeWait deadline now <= d - now - 5 * Second) /\
    (d - now < 8 * Second ->
     calculateChallengeWait deadline now = 3 * Second).
Proof.
  unfold calculateChallengeWait, Second.
  destruct deadline as [d |].
  - split.
    + destruct (Z.ltb_spec (5 * 1000000000) (d - now)); [| lia].
      destruct (Z.ltb_spec (d - now - 5 * 1000000000) (30 * 1000000000));
        [destruct (Z.ltb_spec (d - now - 5 * 1000000000) (3 * 1000000000)) |
         destruct (Z.ltb_spec (30 * 1000000000) (3 * 1000000000))]; lia.
    + intros d' E. injection E as <-.
      destruct (Z.ltb_spec (5 * 1000000000) (d - now)); [| split; lia].
      destruct (Z.ltb_spec (d - now - 5 * 1000000000) (30 * 1000000000));
        [destruct (Z.ltb_spec (d - now - 5 * 1000000000) (3 * 1000000000)) |
         destruct (Z.ltb_spec (30 * 1000000000) (3 * 1000000000))];
        split; lia.
  - split; [lia | discriminate].
Qed.

Section Navigation.

Variable ToLower : string -> string.
Variable appErrorMatch : string -> bool.
Variable cfBlockMatch : string -> bool.
Variable World : Type.
Variable captureHTMLSnapshots : string -> World -> Capture * World.
Variable waitBackoff : Z -> World -> World.
Variable remainingTime : World -> Z.
Variable startBrowser : Z -> World -> World.
Variable setUpRequestBlocking : World -> option string * World.
Variable GenerateAlternateURLs : string -> Go.result (list string) string.

Local Abbreviation NavState := (Navigation.NavState World).
Local Abbreviation getBestHTML := (Browser.getBestHTML ToLower appErrorMatch).
Local Abbreviation skipped := (Browser.skipped ToLower appErrorMatch).
Local Abbreviation LooksLikeCFBlock := (Navigation.LooksLikeCFBlock ToLower cfBlockMatch).
Local Abbreviation afterRetries := (Navigation.afterRetries ToLower appErrorMatch).
Local Abbreviation retryLoop :=
  (Navigation.retryLoop ToLower appErrorMatch World captureHTMLSnapshots waitBackoff).
Local Abbreviation retryNavigation :=
  (Navigation.retryNavigation ToLower appErrorMatch World captureHTMLSnapshots
     waitBackoff).
Local Abbreviation navigateAndExtract :=
  (Navigation.navigateAndExtract ToLower appErrorMatch World captureHTMLSnapshots
     waitBackoff remainingTime).
Local Abbreviation tryAlternates :=
  (Navigation.tryAlternates ToLower appErrorMatch cfBlockMatch World
     captureHTMLSnapshots waitBackoff remainingTime).
Local Abbreviation scrapeWithOptions :=
  (Navigation.scrapeWithOptions ToLower appErrorMatch cfBlockMatch World
     captureHTMLSnapshots waitBackoff remainingTime startBrowser
     setUpRequestBlocking GenerateAlternateURLs).

(** What [getBestHTML] returns has a stage priority of 0 or more. *)
Lemma getBestHTML_priority snapshots s :
  getBestHTML snapshots = Some s ->
  In s snapshots /\ skipped s = false /\ 0 <= priorityOf (Stage s).
Proof.
  intros Hbest.
  destruct (BrowserFacts.getBestHTML_inv ToLower appErrorMatch snapshots)
    as [p Hinv].
  rewrite Hbest in Hinv. cbn in Hinv.
  destruct Hinv as (-> & Hp & Hin & Hs & _). auto.
Qed.

(** An error of [retryNavigation] comes with snapshots of which
    [getBestHTML] selects none. *)
Lemma afterRetries_err all finalURL lastErr snaps url e :
  afterRetries all finalURL lastErr = (snaps, url, Some e) ->
  getBestHTML snaps = None.
Proof.
  unfold Navigation.afterRetries.
  destruct all as [| s l]; [intros H; injection H as <- _ _; reflexivity |].
  destruct (getBestHTML (s :: l)) eqn:Hbest; [discriminate |].
  intros H. injection H as <- _ _. exact Hbest.
Qed.

Lemma retryLoop_err todo : forall attempt maxRetries url all finalURL lastErr
    (st : NavState) snaps u e,
  fst (retryLoop todo attempt maxRetries url all finalURL lastErr st)
    = (snaps, u, Some e) ->
  getBestHTML snaps = None.
Proof.
  induction todo as [| todo IH]; intros attempt maxRetries url all finalURL
    lastErr st snaps u e; cbn [Navigation.retryLoop].
  - cbn [fst]. apply afterRetries_err.
  - destruct (Navigation.capture World captureHTMLSnapshots url _) as [c st'].
    destruct (match captureErr c with
              | Some _ => false
              | None => 0 <? Z.of_nat (length (snapshots c))
              end); [discriminate |].
    destruct (negb (shouldRetry c attempt maxRetries) || (maxRetries - 1 <=? attempt)).
    + cbn [fst]. apply afterRetries_err.
    + apply IH.
Qed.

(** X9. What [navigateAndExtract] returns, given what [retryNavigation]
    returned.  After an error of [retryNavigation] it always fails (the
    branch that would return captured HTML in spite of the error is never
    taken, since [retryNavigation] reports an error only with snapshots of
    which [getBestHTML] selects none); without an error it returns the HTML
    of the snapshot [getBestHTML] selects, which is not an excluded one and
    has a stage priority of 0 or more, or fails when none is selected.  A
    failure comes with an empty HTML and URL. *)
Theorem navigateAndExtract_outcome (url : string) (st : NavState) :
  let r := fst (retryNavigation url (maxRetriesFor (remainingTime (world World st))) st) in
  match snd r with
  | Some e =>
      fst (navigateAndExtract url st)
      = ("", "", Some ("navigation failed: " ++ e)%string)
  | None =>
      match getBestHTML (fst (fst r)) with
      | Some best =>
          fst (navigateAndExtract url st)
          = (HTML best,
             if String.eqb (URL best) "" then snd (fst r) else URL best, None) /\
          skipped best = false /\ 0 <= priorityOf (Stage best)
      | None =>
          fst (navigateAndExtract url st)
          = ("", "", Some "no HTML captured from any snapshot")
      end
  end.
Proof.
  unfold Navigation.navigateAndExtract. cbv zeta.
  destruct (retryNavigation url (maxRetriesFor (remainingTime (world World st))) st)
    as [[[snaps capturedURL] err] st'] eqn:Hretry.
  cbn [fst snd].
  destruct err as [e |].
  - assert (Hnone : getBestHTML snaps = None).
    { apply (retryLoop_err (Z.to_nat (maxRetriesFor (remainingTime (world World st))))
               0 (maxRetriesFor (remainingTime (world World st))) url [] "" None st
               snaps capturedURL e).
      unfold Navigation.retryNavigation in Hretry. rewrite Hretry. reflexivity. }
    rewrite Hnone. destruct snaps; reflexivity.
  - destruct (getBestHTML snaps) as [best |] eqn:Hbest; [| reflexivity].
    split; [reflexivity |].
    apply getBestHTML_priority in Hbest. tauto.
Qed.

Lemma captures_app l1 l2 :
  captures (l1 ++ l2) = (captures l1 + captures l2)%nat.
Proof. unfold captures. rewrite List.filter_app, length_app. reflexivity. Qed.

(** The calls the loop of [retryNavigation] makes from the iteration
    [attempt] on. *)
Lemma retryLoop_log todo : forall attempt maxRetries url all finalURL lastErr
    (st : NavState),
  0 <= attempt ->
  exists events,
    log World (snd (retryLoop todo attempt maxRetries url all finalURL lastErr st))
      = log World st ++ events /\
    (captures events <= todo)%nat /\
    ((1 <= todo)%nat -> (1 <= captures events)%nat) /\
    forall e, In e events ->
      match e with
      | Captured u _ => u = url
      | Waited backoff =>
          exists k, 1 <= k < attempt + Z.of_nat todo /\
                    backoff = Z.shiftl 1 k * Second
      end.
Proof.
  induction todo as [| todo IH]; intros attempt maxRetries url all finalURL
    lastErr st Hattempt; cbn [Navigation.retryLoop].
  - exists []. cbn [snd]. rewrite app_nil_r.
    split; [reflexivity |]. split; [cbn; lia |]. split; [lia | intros e []].
  - set (st1 := if 0 <? attempt
                then Navigation.wait World waitBackoff (Z.shiftl 1 attempt * Second) st
                else st).
    assert (H1 : exists ws,
               log World st1 = log World st ++ ws /\ captures ws = 0%nat /\
               forall e, In e ws ->
                 exists k, 1 <= k < attempt + Z.of_nat (S todo) /\
                           e = Waited (Z.shiftl 1 k * Second)).
    { unfold st1. destruct (Z.ltb_spec 0 attempt) as [Hpos | Hzero].
      - exists [Waited (Z.shiftl 1 attempt * Second)].
        repeat split; auto. intros e [<- | []]. exists attempt. split; [lia | auto].
      - exists []. rewrite app_nil_r. repeat split; auto. intros e []. }
    destruct H1 as (ws & Ews & Hws & Hwaits).
    unfold Navigation.capture.
    destruct (captureHTMLSnapshots url (world World st1)) as [c w] eqn:Hcap.
    set (st2 := mkNav World w (log World st1 ++ [Captured url c])).
    assert (Hdone : exists events,
               log World st2 = log World st ++ events /\
               (captures events <= S todo)%nat /\
               ((1 <= S todo)%nat -> (1 <= captures events)%nat) /\
               forall e, In e events ->
                 match e with
                 | Captured u _ => u = url
                 | Waited backoff =>
                     exists k, 1 <= k < attempt + Z.of_nat (S todo) /\
                               backoff = Z.shiftl 1 k * Second
                 end).
    { exists (ws ++ [Captured url c]). unfold st2. cbn [log].
      rewrite Ews, <- app_assoc. split; [reflexivity |].
      rewrite captures_app, Hws. cbn. split; [lia |]. split; [lia |].
      intros e He. apply in_app_or in He. destruct He as [He | [<- | []]];
        [| reflexivity].
      destruct (Hwaits e He) as (k & Hk & ->). exists k. auto. }
    destruct (match captureErr c with
              | Some _ => false
              | None => 0 <? Z.of_nat (length (snapshots c))
              end); [exact Hdone |].
    destruct (negb (shouldRetry c attempt maxRetries) || (maxRetries - 1 <=? attempt));
      [exact Hdone |].
    destruct (IH (attempt + 1) maxRetries url (all ++ snapshots c)
                (if String.eqb (capturedURL c) "" then finalURL else capturedURL c)
                (captureErr c) st2 ltac:(lia))
      as (events & Elog & Hle & _ & Hall).
    exists (ws ++ Captured url c :: events).
    split.
    { rewrite Elog. unfold st2. cbn [log]. rewrite Ews, <- !app_assoc.
      reflexivity. }
    rewrite captures_app, Hws.
    change (captures (Captured url c :: events)) with (S (captures events)).
    split; [lia |]. split; [lia |].
    intros e He. apply in_app_or in He. destruct He as [He | [<- | He]].
    + destruct (Hwaits e He) as (k & Hk & ->). exists k. auto.
    + reflexivity.
    + specialize (Hall e He). destruct e as [b | u c0]; [| exact Hall].
      destruct Hall as (k & Hk & ->). exists k. split; [lia | reflexivity].
Qed.

Lemma maxRetriesFor_range remaining :
  1 <= maxRetriesFor remaining <= 3 /\
  (remaining < 60 * Second -> maxRetriesFor remaining <= 2) /\
  (remaining < 30 * Second -> maxRetriesFor remaining = 1).
Proof.
  unfold maxRetriesFor, Second.
  destruct (Z.ltb_spec remaining (30 * 1000000000));
    destruct (Z.ltb_spec remaining (60 * 1000000000)); lia.
Qed.

(** [navigateAndExtract] makes the calls of its [retryNavigation] and no
    other. *)
Lemma navigateAndExtract_log_eq (url : string) (st : NavState) :
  log World (snd (navigateAndExtract url st))
  = log World (snd (retryNavigation url
                      (maxRetriesFor (remainingTime (world World st))) st)).
Proof.
  unfold Navigation.navigateAndExtract.
  destruct (retryNavigation url (maxRetriesFor (remainingTime (world World st))) st)
    as [[[snaps capturedURL] err] st'].
  cbn [snd].
  destruct err as [e |].
  - destruct (match snaps with
              | [] => None
              | _ :: _ =>
                  match getBestHTML snaps with
                  | Some best => if 0 <? Go.len (HTML best) then Some best else None
                  | None => None
                  end
              end); reflexivity.
  - destruct (getBestHTML snaps); reflexivity.
Qed.

(** One [navigateAndExtract] captures at most three times, and only the
    URL it was given. *)
Lemma navigateAndExtract_log (url : string) (st : NavState) :
  exists events,
    log World (snd (navigateAndExtract url st)) = log World st ++ events /\
    (captures events <= 3)%nat /\
    forall u c, In (Captured u c) events -> u = url.
Proof.
  destruct (maxRetriesFor_range (remainingTime (world World st))) as (Hrange & _).
  destruct (retryLoop_log (Z.to_nat (maxRetriesFor (remainingTime (world World st))))
              0 (maxRetriesFor (remainingTime (world World st))) url [] "" None st
              ltac:(lia)) as (events & Elog & Hle & _ & Hall).
  exists events. rewrite navigateAndExtract_log_eq.
  split; [exact Elog |]. split; [lia |].
  intros u c Hin. exact (Hall _ Hin).
Qed.

(** X10. One call of [navigateAndExtract] captures the page at least once and
    at most three times, at most twice when fewer than 60 seconds are left
    and once when fewer than 30 are; every capture is of the URL it was
    given, and the only waits are the back-offs of 2 and 4 seconds. *)
Theorem navigateAndExtract_attempts (url : string) (st : NavState) :
  exists events,
    log World (snd (navigateAndExtract url st)) = log World st ++ events /\
    (1 <= captures events <= 3)%nat /\
    (remainingTime (world World st) < 60 * Second -> (captures events <= 2)%nat) /\
    (remainingTime (world World st) < 30 * Second -> captures events = 1%nat) /\
    forall e, In e events ->
      match e with
      | Captured u _ => u = url
      | Waited backoff => backoff = 2 * Second \/ backoff = 4 * Second
      end.
Proof.
  destruct (maxRetriesFor_range (remainingTime (world World st)))
    as (Hrange & H60 & H30).
  rewrite navigateAndExtract_log_eq.
  set (maxRetries := maxRetriesFor (remainingTime (world World st))) in *.
  destruct (retryLoop_log (Z.to_nat maxRetries) 0 maxRetries url [] "" None st
              ltac:(lia)) as (events & Elog & Hle & Hge & Hall).
  exists events. split; [exact Elog |].
  split; [split; [apply Hge |]; lia |].
  split; [intros H; specialize (H60 H); lia |].
  split; [intros H; specialize (H30 H); specialize (Hge ltac:(lia)); lia |].
  intros e He. specialize (Hall e He). destruct e as [b | u c]; [| exact Hall].
  destruct Hall as (k & Hk & ->).
  assert (Hk' : k = 1 \/ k = 2) by lia.
  destruct Hk' as [-> | ->]; [left | right]; reflexivity.
Qed.

(** The page an alternate URL gives is not empty and not a block page; the
    loop captures at most three times per alternate. *)
Lemma tryAlternates_spec alternates : forall (st : NavState),
  (forall html finalURL,
     fst (tryAlternates alternates st) = Some (html, finalURL) ->
     0 < Go.len html /\ LooksLikeCFBlock html = false) /\
  exists events,
    log World (snd (tryAlternates alternates st)) = log World st ++ events /\
    (captures events <= 3 * length alternates)%nat /\
    forall u c, In (Captured u c) events -> In u alternates.
Proof.
  induction alternates as [| altURL rest IH]; intros st;
    cbn [Navigation.tryAlternates].
  - split; [discriminate |]. exists []. cbn [snd]. rewrite app_nil_r.
    split; [reflexivity |]. split; [cbn; lia |]. intros u c [].
  - destruct (navigateAndExtract_log altURL st) as (ev1 & Elog1 & Hle1 & Hall1).
    destruct (navigateAndExtract altURL st) as [[[altHTML altFinalURL] altErr] st1].
    cbn [snd] in Elog1.
    destruct (IH st1) as (Hfound & ev2 & Elog2 & Hle2 & Hall2).
    assert (Hgo : (forall html finalURL,
                     fst (tryAlternates rest st1) = Some (html, finalURL) ->
                     0 < Go.len html /\ LooksLikeCFBlock html = false) /\
                  exists events,
                    log World (snd (tryAlternates rest st1)) = log World st ++ events /\
                    (captures events <= 3 * length (altURL :: rest))%nat /\
                    forall u c, In (Captured u c) events -> In u (altURL :: rest)).
    { split; [exact Hfound |]. exists (ev1 ++ ev2).
      rewrite Elog2, Elog1, <- app_assoc. split; [reflexivity |].
      rewrite captures_app. cbn [length]. split; [lia |].
      intros u c Hin. apply in_app_or in Hin. destruct Hin as [Hin | Hin].
      - left. symmetry. exact (Hall1 _ _ Hin).
      - right. exact (Hall2 u c Hin). }
    assert (Hstop : 0 < Go.len altHTML -> LooksLikeCFBlock altHTML = false ->
                    (forall html finalURL,
                       Some (altHTML, altFinalURL) = Some (html, finalURL) ->
                       0 < Go.len html /\ LooksLikeCFBlock html = false) /\
                    exists events,
                      log World st1 = log World st ++ events /\
                      (captures events <= 3 * length (altURL :: rest))%nat /\
                      forall u c, In (Captured u c) events -> In u (altURL :: rest)).
    { intros Hlen Hcf. split.
      - intros html finalURL H. injection H as <- <-. auto.
      - exists ev1. split; [exact Elog1 |]. cbn [length]. split; [lia |].
        intros u c Hin. left. symmetry. exact (Hall1 _ _ Hin). }
    destruct altErr as [e |].
    + destruct (Z.ltb_spec 0 (Go.len altHTML)) as [Hlen | Hlen]; cbn [andb];
        [| exact Hgo].
      destruct (LooksLikeCFBlock altHTML) eqn:Hcf; cbn [negb];
        [exact Hgo | cbn [fst snd]; apply Hstop; auto].
    + destruct (Z.ltb_spec 0 (Go.len altHTML)) as [Hlen | Hlen]; cbn [andb].
      * destruct (LooksLikeCFBlock altHTML) eqn:Hcf;
          [exact Hgo | cbn [fst snd]; apply Hstop; auto].
      * exact Hgo.
Qed.

(** X11. The HTML [scrapeWithOptions] returns without an error is never
    empty and never a block page, whether it comes from the URL asked for,
    from an alternate URL, or from a navigation that ended in an error. *)
Theorem scrapeWithOptions_usable (url : string) (timeoutMs : Z) (st : NavState)
    (html finalURL : string) :
  fst (scrapeWithOptions url timeoutMs st) = Go.Ok (html, finalURL) ->
  0 < Go.len html /\ LooksLikeCFBlock html = false.
Proof.
  unfold Navigation.scrapeWithOptions. cbn [world log].
  destruct (setUpRequestBlocking (startBrowser timeoutMs (world World st)))
    as [[e |] w]; [discriminate |].
  destruct (navigateAndExtract url (mkNav World w (log World st)))
    as [[[html0 finalURL0] err] st1].
  assert (Hprimary : (0 <? Go.len html0) && negb (LooksLikeCFBlock html0) = true ->
                     Go.Ok (html0, finalURL0) = Go.Ok (html, finalURL)
                       :> Go.result (string * string) string ->
                     0 < Go.len html /\ LooksLikeCFBlock html = false).
  { intros Hu H. injection H as <- <-.
    apply andb_prop in Hu. destruct Hu as [Hlen Hcf].
    apply Z.ltb_lt in Hlen. apply negb_true_iff in Hcf. auto. }
  destruct (match err with
            | Some _ => (0 <? Go.len html0) && negb (LooksLikeCFBlock html0)
            | None =>
                if 0 <? Go.len html0 then negb (LooksLikeCFBlock html0) else false
            end) eqn:Hret.
  - cbn [fst]. intros H. apply Hprimary; [| exact H].
    destruct err; [exact Hret |].
    destruct (0 <? Go.len html0); [exact Hret | discriminate].
  - destruct (GenerateAlternateURLs url) as [alternates | e].
    + destruct (tryAlternates_spec alternates st1) as [Hfound _].
      destruct (tryAlternates alternates st1) as [[[h u] |] st2]; cbn [fst] in *.
      * intros H. injection H as <- <-. eapply Hfound. reflexivity.
      * destruct ((0 <? Go.len html0) && negb (LooksLikeCFBlock html0)) eqn:Hu;
          [cbn [fst]; intros H; apply Hprimary; [reflexivity | exact H]
          | discriminate].
    + destruct ((0 <? Go.len html0) && negb (LooksLikeCFBlock html0)) eqn:Hu;
        [cbn [fst]; intros H; apply Hprimary; [reflexivity | exact H]
        | discriminate].
Qed.

(** X12. One call of [scrapeWithOptions] captures pages at most three times
    for the URL asked for and three times for each alternate URL, and
    captures nothing else; when request blocking cannot be set up it
    captures nothing at all. *)
Theorem scrapeWithOptions_captures (url : string) (timeoutMs : Z) (st : NavState) :
  let alternates :=
    match GenerateAlternateURLs url with
    | Go.Ok alternates => alternates
    | Go.Err _ => []
    end in
  exists events,
    log World (snd (scrapeWithOptions url timeoutMs st)) = log World st ++ events /\
    (captures events <= 3 * (1 + length alternates))%nat /\
    (forall u c, In (Captured u c) events -> u = url \/ In u alternates) /\
    (forall e, fst (setUpRequestBlocking (startBrowser timeoutMs (world World st)))
               = Some e -> events = []).
Proof.
  intros alternates. unfold Navigation.scrapeWithOptions. cbn [world log].
  destruct (setUpRequestBlocking (startBrowser timeoutMs (world World st)))
    as [[e |] w]; cbn [fst].
  - exists []. cbn [snd log]. rewrite app_nil_r.
    split; [reflexivity |]. split; [cbn; lia |].
    split; [intros u c [] | reflexivity].
  - destruct (navigateAndExtract_log url (mkNav World w (log World st)))
      as (ev1 & Elog1 & Hle1 & Hall1).
    cbn [log] in Elog1.
    destruct (navigateAndExtract url (mkNav World w (log World st)))
      as [[[html0 finalURL0] err] st1].
    cbn [snd] in Elog1.
    assert (Hstop : exists events,
               log World st1 = log World st ++ events /\
               (captures events <= 3 * (1 + length alternates))%nat /\
               (forall u c, In (Captured u c) events -> u = url \/ In u alternates) /\
               (forall e : string, None = Some e -> events = [])).
    { exists ev1. split; [exact Elog1 |]. split; [lia |].
      split; [| discriminate].
      intros u c Hin. left. exact (Hall1 _ _ Hin). }
    destruct (match err with
              | Some _ => (0 <? Go.len html0) && negb (LooksLikeCFBlock html0)
              | None =>
                  if 0 <? Go.len html0 then negb (LooksLikeCFBlock html0) else false
              end); [exact Hstop |].
    unfold alternates. clear alternates Hstop.
    destruct (GenerateAlternateURLs url) as [alternates | e].
    + destruct (tryAlternates_spec alternates st1) as [_ (ev2 & Elog2 & Hle2 & Hall2)].
      assert (Hend : exists events,
                 log World (snd (tryAlternates alternates st1))
                   = log World st ++ events /\
                 (captures events <= 3 * (1 + length alternates))%nat /\
                 (forall u c, In (Captured u c) events -> u = url \/ In u alternates) /\
                 (forall e : string, None = Some e -> events = [])).
      { exists (ev1 ++ ev2). rewrite Elog2, Elog1, <- app_assoc.
        split; [reflexivity |]. rewrite captures_app. split; [lia |].
        split; [| discriminate].
        intros u c Hin. apply in_app_or in Hin. destruct Hin as [Hin | Hin].
        - left. exact (Hall1 _ _ Hin).
        - right. exact (Hall2 u c Hin). }
      destruct (tryAlternates alternates st1) as [[page |] st2]; cbn [snd] in *;
        [exact Hend |].
      destruct ((0 <? Go.len html0) && negb (LooksLikeCFBlock html0)); exact Hend.
    + assert (Hend : exists events,
                 log World st1 = log World st ++ events /\
                 (captures events <= 3 * (1 + length (@nil string)))%nat /\
                 (forall u c, In (Captured u c) events -> u = url \/ In u []) /\
                 (forall e : string, None = Some e -> events = [])).
      { exists ev1. split; [exact Elog1 |]. cbn [length]. split; [lia |].
        split; [| discriminate].
        intros u c Hin. left. exact (Hall1 _ _ Hin). }
      destruct ((0 <? Go.len html0) && negb (LooksLikeCFBlock html0)); exact Hend.
Qed.

End Navigation.

(** [scrapeWithOptions_usable] on a browser that is blocked on the URL
    asked for and gets the page from the alternate URL. *)
Lemma scrapeWithOptions_usable_witness :
  0 < Go.len (HTML Samples.snapPeriodic) /\
  Navigation.LooksLikeCFBlock Samples.ToLower ScriptedBrowser.cfBlockMatch
    (HTML Samples.snapPeriodic) = false.
Proof.
  apply (scrapeWithOptions_usable Samples.ToLower Samples.appErrorMatch
           ScriptedBrowser.cfBlockMatch ScriptedBrowser.World
           ScriptedBrowser.captureHTMLSnapshots ScriptedBrowser.waitBackoff
           ScriptedBrowser.remainingTime ScriptedBrowser.startBrowser
           ScriptedBrowser.setUpRequestBlocking
           ScriptedBrowser.GenerateAlternateURLs
           "https://example.com/a" 14600
           (ScriptedBrowser.start
              [ScriptedBrowser.captureBlocked; ScriptedBrowser.captured])
           (HTML Samples.snapPeriodic) "https://example.com/a").
  vm_compute. reflexivity.
Defined.

(** A capture that ends in an error and holds only a snapshot of a
    fallback stage is lost: [getBestHTML] selects nothing from it, and the
    navigation fails although HTML was read. *)
Example navigateAndExtract_loses_fallback :
  fst (ScriptedBrowser.navigateAndExtract "https://example.com/a"
         (ScriptedBrowser.start [ScriptedBrowser.crashed]))
  = ("", "", Some "navigation failed: page crashed").
Proof. vm_compute. reflexivity. Qed.

End NavigationFacts.

(** ** Browser tier: what the stability loop adds to the snapshots *)

Module StabilityBounds.
Import Browser Stability.
Local Open Scope list_scope.

Section Loop.

Variable TrimSpace : string -> string.

Local Abbreviation step := (Stability.step TrimSpace).
Local Abbreviation run := (Stability.run TrimSpace).
Local Abbreviation waitForContentStabilityInline :=
  (Stability.waitForContentStabilityInline TrimSpace).

(** What holds of the variables of the loop between two passes, for a
    slice that held [before] when the function was called. *)
Local Abbreviation between := (fun (before : list HTMLSnapshot) (st : LoopState) =>
  snapshots st = before /\ 0 <= stableCount st /\ 0 <= previousLength st /\
  checkInterval * (stableCount st + (if 0 <? previousLength st then 1 else 0))
    <= slept st).

(** What holds of an outcome. *)
Local Abbreviation outcomeOk := (fun (before : list HTMLSnapshot) (o : Outcome) =>
  match o with
  | Running st => between before st
  | Returned None out _ => out = before
  | Returned (Some snap) out slept =>
      out = before ++ [snap] /\
      (Stage snap = "stable" \/ Stage snap = "stable-timeout" \/
       Stage snap = "stable-interrupted") /\
      (Stage snap = "stable" -> 3 * checkInterval <= slept /\ 0 < Length snap)
  end).

Lemma reading_length capture now :
  0 <= Length (Stability.reading TrimSpace capture now).
Proof.
  destruct capture as [[html url] |]; cbn; [| lia].
  apply ExtractorFacts.len_nonneg.
Qed.

Lemma giveUp_ok before st stage :
  between before st ->
  stage = "stable-timeout" \/ stage = "stable-interrupted" ->
  outcomeOk before (giveUp st stage).
Proof.
  intros (Hs & _) Hstage. unfold giveUp.
  destruct (lastSnap st) as [last |]; [| exact Hs].
  split; [rewrite Hs; reflexivity |]. cbn [withStage Stage].
  split; [tauto |].
  intros E. destruct Hstage as [-> | ->]; discriminate.
Qed.

Lemma step_ok before st t :
  between before st -> outcomeOk before (step st t).
Proof.
  intros Hinv. destruct t as [| | capture now]; cbn [Stability.step].
  - apply giveUp_ok; auto.
  - apply giveUp_ok; auto.
  - destruct Hinv as (Hs & Hcount & Hprev & Hslept).
    pose proof (reading_length capture now) as Hlen.
    unfold checkInterval, Millisecond in *.
    destruct (Z.eqb_spec (Length (Stability.reading TrimSpace capture now)) 0)
      as [Hz | Hnz].
    + cbn. repeat split; auto.
      destruct (0 <? previousLength st); lia.
    + destruct (Z.ltb_spec 0 (previousLength st)) as [Hpos | Hnpos]; cbn [andb].
      * destruct (changeBelowFivePercent _ _).
        -- unfold stableThreshold.
           destruct (Z.leb_spec 3 (stableCount st + 1)) as [Hth | Hth].
           ++ cbn [withStage Stage Length]. split; [rewrite Hs; reflexivity |].
              split; [left; reflexivity |]. intros _. split; lia.
           ++ cbn. repeat split; auto; try lia.
              destruct (Z.ltb_spec 0
                          (Length (Stability.reading TrimSpace capture now))); lia.
        -- cbn. repeat split; auto; try lia.
           destruct (Z.ltb_spec 0
                       (Length (Stability.reading TrimSpace capture now))); lia.
      * cbn. repeat split; auto; try lia.
        destruct (Z.ltb_spec 0
                    (Length (Stability.reading TrimSpace capture now))); lia.
Qed.

Lemma run_ok before ticks : forall st,
  between before st -> outcomeOk before (run st ticks).
Proof.
  induction ticks as [| t rest IH]; intros st Hinv; cbn [Stability.run];
    [exact Hinv |].
  pose proof (step_ok before st t Hinv) as Hstep.
  destruct (step st t) as [st' | snap out slept]; [apply IH, Hstep | exact Hstep].
Qed.

(** X13. [waitForContentStabilityInline] adds to the slice at most one
    snapshot, the one it returns, tagged stable, stable-timeout or
    stable-interrupted; a snapshot tagged stable has a non-zero trimmed length
    and is returned only after at least three check intervals (1.5 seconds)
    of sleep. *)
Theorem stability_adds_returned_snapshot
    (before : list HTMLSnapshot) (ticks : list Tick) :
  match waitForContentStabilityInline before ticks with
  | Running st => snapshots st = before
  | Returned None out _ => out = before
  | Returned (Some snap) out slept =>
      out = before ++ [snap] /\
      (Stage snap = "stable" \/ Stage snap = "stable-timeout" \/
       Stage snap = "stable-interrupted") /\
      (Stage snap = "stable" -> 1500 * Millisecond <= slept /\ 0 < Length snap)
  end.
Proof.
  unfold Stability.waitForContentStabilityInline.
  assert (Hinit : between before (mkLoop 0 0 None before 0)).
  { cbn. unfold checkInterval, Millisecond. repeat split; lia. }
  pose proof (run_ok before ticks _ Hinit) as H.
  destruct (run (mkLoop 0 0 None before 0) ticks) as [st | [snap |] out slept].
  - apply H.
  - destruct H as (Hout & Hstage & Hstable). split; [exact Hout |].
    split; [exact Hstage |]. intros E. specialize (Hstable E).
    unfold checkInterval, Millisecond in *. lia.
  - exact H.
Qed.

End Loop.

End StabilityBounds.

(** ** Browser tier: when no snapshot is selected *)

Module SelectionFacts.
Import Browser.
Local Open Scope list_scope.

Section BestHTML.

Variable ToLower : string -> string.
Variable appErrorMatch : string -> bool.

Local Abbreviation skipped := (Browser.skipped ToLower appErrorMatch).
Local Abbreviation getBestHTML := (Browser.getBestHTML ToLower appErrorMatch).

(** X14. [getBestHTML] returns nothing exactly when every snapshot that is
    not excluded has a negative stage priority (the fallback stages), as on
    an empty list; what it returns otherwise has a priority of 0 or more.
    The running best priority starts at -1 and only a higher one replaces
    it. *)
Theorem getBestHTML_none_iff (snapshots : list HTMLSnapshot) :
  (getBestHTML snapshots = None <->
   forall t, In t snapshots -> skipped t = false -> priorityOf (Stage t) < 0) /\
  forall s, getBestHTML snapshots = Some s -> 0 <= priorityOf (Stage s).
Proof.
  destruct (BrowserFacts.getBestHTML_inv ToLower appErrorMatch snapshots)
    as [p Hinv].
  destruct (getBestHTML snapshots) as [b |]; cbn in Hinv.
  - destruct Hinv as (-> & Hp & Hin & Hs & _). split.
    + split; [discriminate |]. intros Hall. specialize (Hall b Hin Hs). lia.
    + intros s E. injection E as <-. exact Hp.
  - destruct Hinv as (_ & Hall). split; [| discriminate].
    split; [| reflexivity]. intros _ t Ht Hs. specialize (Hall t Ht Hs). lia.
Qed.

End BestHTML.

End SelectionFacts.

(** ** Video extractor: distinct URLs, types and providers *)

Module VideoFacts.
Import Models Dom Videos.
Local Open Scope list_scope.

Lemma HasPrefix_app s : forall a b,
  Go.HasPrefix s (a ++ b)%string = true -> Go.HasPrefix s a = true.
Proof.
  induction s as [| c s IH]; intros [| x a] b; cbn; auto.
  intros H. apply andb_prop in H. destruct H as [Hc H].
  rewrite Hc. cbn. exact (IH a b H).
Qed.

(** A string that contains [a ++ b] contains [a]. *)
Lemma Contains_app_l s : forall a b,
  Go.Contains s (a ++ b)%string = true -> Go.Contains s a = true.
Proof.
  induction s as [| c s IH]; intros a b; cbn [Go.Contains].
  - rewrite !orb_false_r. apply HasPrefix_app.
  - intros H. apply orb_prop in H. destruct H as [H | H].
    + rewrite (HasPrefix_app _ _ _ H). reflexivity.
    + rewrite (IH a b H). apply orb_true_r.
Qed.

Section Videos.

Variable L : Lib.GoLib.
Variable videoExt : string -> bool.
Variable Unmarshal : string -> option (list (string * JSON)).

Local Abbreviation isVideoEmbed := (Videos.isVideoEmbed L videoExt).
Local Abbreviation detectProvider := (Videos.detectProvider L videoExt).
Local Abbreviation toAbsoluteURL := (Videos.toAbsoluteURL L).
Local Abbreviation addVideo := (Videos.addVideo L).
Local Abbreviation extractOGVideos := (Videos.extractOGVideos L videoExt).
Local Abbreviation extractTwitterPlayer := (Videos.extractTwitterPlayer L videoExt).
Local Abbreviation videoOfObject := (Videos.videoOfObject L videoExt).
Local Abbreviation extractVideoFromJSONLD := (Videos.extractVideoFromJSONLD L videoExt).
Local Abbreviation extractJSONLDVideos :=
  (Videos.extractJSONLDVideos L videoExt Unmarshal).
Local Abbreviation extractEmbeddedVideos := (Videos.extractEmbeddedVideos L videoExt).
Local Abbreviation extractHTML5Videos := (Videos.extractHTML5Videos L).
Local Abbreviation ExtractVideosFromHTML :=
  (Videos.ExtractVideosFromHTML L videoExt Unmarshal).

(** Every URL that passes for a video embed has a known provider. *)
Lemma isVideoEmbed_known url :
  isVideoEmbed url = true -> detectProvider url <> "unknown".
Proof.
  unfold Videos.isVideoEmbed, Videos.detectProvider.
  destruct (Go.Contains (Lib.ToLower L url) "youtube.com"); [discriminate |].
  destruct (Go.Contains (Lib.ToLower L url) "youtu.be"); [discriminate |].
  destruct (Go.Contains (Lib.ToLower L url) "vimeo.com"); [discriminate |].
  destruct (Go.Contains (Lib.ToLower L url) "dailymotion.com"); [discriminate |].
  destruct (Go.Contains (Lib.ToLower L url) "twitch.tv"); [discriminate |].
  cbn [orb].
  destruct (Go.Contains (Lib.ToLower L url) "facebook.com") eqn:Hfb;
    [discriminate |].
  destruct (Go.Contains (Lib.ToLower L url) "facebook.com/plugins/video") eqn:Hp.
  { apply (Contains_app_l _ "facebook.com" "/plugins/video") in Hp. congruence. }
  cbn [orb].
  destruct (Go.Contains (Lib.ToLower L url) "tiktok.com"); [discriminate |].
  cbn [orb]. intros H. rewrite H. discriminate.
Qed.

Variable baseURL : string.

(** What the extractors establish of a video: where its URL comes from,
    and how its type and provider go together. *)
Local Abbreviation described := (fun v : Video =>
  (exists raw, toAbsoluteURL raw baseURL = Go.Ok (VideoURL v)) /\
  ((VideoType v = "html5" /\ Provider v = "html5") \/
   ((VideoType v = "og" \/ VideoType v = "twitter" \/ VideoType v = "jsonld") /\
    Provider v = detectProvider (VideoURL v)) \/
   (VideoType v = "embedded" /\ Provider v = detectProvider (VideoURL v) /\
    isVideoEmbed (VideoURL v) = true))).

(** The videos found since the set of seen URLs was [before]: their URLs
    are distinct, were not in [before], and are now marked as seen. *)
Local Abbreviation found := (fun (before : gset string) (acc : list Video * gset string) =>
  NoDup (map VideoURL (fst acc)) /\
  (forall v, In v (fst acc) ->
     (VideoURL v ∉ before) /\ (VideoURL v ∈ snd acc) /\ described v) /\
  (before ⊆ snd acc)).

Lemma found_nil before : found before ([], before).
Proof.
  split; [constructor |]. split; [intros v [] | reflexivity].
Qed.

Lemma found_app before videos seen more seen' :
  found before (videos, seen) -> found seen (more, seen') ->
  found before (videos ++ more, seen').
Proof.
  cbn [fst snd]. intros (Hnd & Hall & Hsub) (Hnd' & Hall' & Hsub').
  split; [| split].
  - rewrite map_app. apply NoDup_app. split; [exact Hnd |]. split; [| exact Hnd'].
    intros u Hu Hu'. apply list_elem_of_In, in_map_iff in Hu, Hu'.
    destruct Hu as (v & <- & Hv). destruct Hu' as (v' & E & Hv').
    destruct (Hall v Hv) as (_ & Hin & _). destruct (Hall' v' Hv') as (Hnin & _).
    rewrite E in Hnin. contradiction.
  - intros v Hv. apply in_app_or in Hv. destruct Hv as [Hv | Hv].
    + destruct (Hall v Hv) as (H1 & H2 & H3).
      split; [exact H1 | split; [apply Hsub', H2 | exact H3]].
    + destruct (Hall' v Hv) as (H1 & H2 & H3).
      split; [intros Hin; apply H1, Hsub, Hin | auto].
  - etransitivity; eassumption.
Qed.

Lemma addVideo_found before videos seen url accept make :
  found before (videos, seen) ->
  (forall absURL,
     toAbsoluteURL url baseURL = Go.Ok absURL -> accept absURL = true ->
     described (make absURL) /\ VideoURL (make absURL) = absURL) ->
  found before (addVideo videos seen url baseURL accept make).
Proof.
  intros Hacc Hmake. unfold Videos.addVideo.
  destruct (toAbsoluteURL url baseURL) as [absURL | e]; [| exact Hacc].
  destruct (accept absURL) eqn:Hok; cbn [andb]; [| exact Hacc].
  destruct (bool_decide_reflect (absURL ∈ seen)) as [Hin | Hnin]; cbn [negb];
    [exact Hacc |].
  destruct (Hmake absURL eq_refl Hok) as [Hd Hurl].
  apply (found_app before videos seen [make absURL]); [exact Hacc |].
  cbn [fst snd map]. rewrite Hurl.
  split; [apply NoDup_singleton |]. split; [| apply union_subseteq_r].
  intros v [<- | []]. split; [rewrite Hurl; exact Hnin |].
  split; [| exact Hd].
  rewrite Hurl. apply elem_of_union_l, elem_of_singleton. reflexivity.
Qed.

Lemma fold_found {A : Type} (f : list Video * gset string -> A -> list Video * gset string)
    before (l : list A) :
  (forall acc a, found before acc -> found before (f acc a)) ->
  forall acc, found before acc -> found before (fold_left f l acc).
Proof.
  intros Hf. induction l as [| a l IH]; intros acc Hacc; cbn [fold_left];
    [exact Hacc | apply IH, Hf, Hacc].
Qed.

Lemma extractOGVideos_found doc seen : found seen (extractOGVideos doc baseURL seen).
Proof.
  unfold Videos.extractOGVideos.
  destruct (fold_left ogVideoStep _ _) as [videoURL videoTitle].
  destruct (String.eqb videoURL ""); [apply found_nil |].
  apply addVideo_found; [apply found_nil |].
  intros absURL Habs _. cbn [VideoURL VideoType Provider].
  split; [| reflexivity]. split; [eauto |]. right. left. auto.
Qed.

Lemma extractTwitterPlayer_found doc seen :
  found seen (extractTwitterPlayer doc baseURL seen).
Proof.
  unfold Videos.extractTwitterPlayer.
  destruct (String.eqb _ ""); [apply found_nil |].
  apply addVideo_found; [apply found_nil |].
  intros absURL Habs _. cbn [VideoURL VideoType Provider].
  split; [| reflexivity]. split; [eauto |]. right. left. auto.
Qed.

Lemma videoOfObject_found before fields videos seen :
  found before (videos, seen) ->
  found before (videoOfObject fields baseURL videos seen).
Proof.
  intros Hacc. unfold Videos.videoOfObject.
  destruct (member fields "@type") as [typeVal |]; [| exact Hacc].
  destruct (String.eqb (typeString typeVal) "" ||
            negb (Go.Contains (typeString typeVal) "Video")); [exact Hacc |].
  destruct (String.eqb _ ""); [exact Hacc |].
  apply addVideo_found; [exact Hacc |].
  intros absURL Habs _. cbn [VideoURL VideoType Provider].
  split; [| reflexivity]. split; [eauto |]. right. left. auto.
Qed.

Lemma extractVideoFromJSONLD_found data :
  forall seen, found seen (extractVideoFromJSONLD data baseURL seen).
Proof.
  (* the statement, together with the same for the items of an array *)
  enough (H : (forall seen, found seen (extractVideoFromJSONLD data baseURL seen)) /\
              match data with
              | JArray items =>
                  Forall (fun item => forall seen,
                            found seen (extractVideoFromJSONLD item baseURL seen)) items
              | _ => True
              end) by exact (proj1 H).
  induction data as [| b | n | s | items IH | fields IH] using JSON_nested_ind;
    try (split; [intros seen; apply found_nil | exact I]).
  - split; [intros seen; apply found_nil |].
    eapply List.Forall_impl; [| exact IH]. intros item H. exact (proj1 H).
  - split; [| exact I]. intros seen.
    cbn [Videos.extractVideoFromJSONLD].
    match goal with
    | |- context [let '(_, _) := ?G fields in _] =>
        assert (HG : found seen (G fields)); [| destruct (G fields) as [videos seen1]]
    end.
    + induction IH as [| [k v] rest Hv Hrest IHrest]; [apply found_nil |].
      destruct (String.eqb k "@graph"); [| exact IHrest].
      clear IHrest Hrest. cbn [snd] in Hv. destruct Hv as [_ Hitems].
      destruct v as [| | | | items |]; try apply found_nil.
      match goal with
      | |- context [?E items [] seen] =>
          enough (Heach : forall videos seen1,
                    found seen (videos, seen1) ->
                    found seen (E items videos seen1))
            by (apply Heach, found_nil)
      end.
      induction Hitems as [| item items Hitem Hitems IHitems];
        intros videos seen1 Hacc; [exact Hacc |].
      destruct item as [| | | | |fs]; try (apply IHitems; exact Hacc).
      specialize (Hitem seen1).
      destruct (extractVideoFromJSONLD (JObject fs) baseURL seen1) as [more seen2].
      apply IHitems. eapply found_app; eassumption.
    + apply videoOfObject_found, HG.
Qed.

Lemma extractJSONLDVideos_found doc seen :
  found seen (extractJSONLDVideos doc baseURL seen).
Proof.
  unfold Videos.extractJSONLDVideos.
  apply fold_found; [| apply found_nil].
  intros [videos seen1] s Hacc.
  destruct (Unmarshal (nodeText (node s))) as [fields |]; [| exact Hacc].
  pose proof (extractVideoFromJSONLD_found (JObject fields) seen1) as Hmore.
  destruct (extractVideoFromJSONLD (JObject fields) baseURL seen1) as [more seen2].
  eapply found_app; eassumption.
Qed.

Lemma extractEmbeddedVideos_found doc seen :
  found seen (extractEmbeddedVideos doc baseURL seen).
Proof.
  unfold Videos.extractEmbeddedVideos.
  apply fold_found; [| apply found_nil].
  intros [videos seen1] s Hacc.
  destruct (Attr (node s) "src") as [src |]; [| exact Hacc].
  apply addVideo_found; [exact Hacc |].
  intros absURL Habs Hembed. cbn [VideoURL VideoType Provider].
  split; [| reflexivity]. split; [eauto |]. right. right. auto.
Qed.

Lemma html5Source_found before acc s :
  found before acc -> found before (html5Source L baseURL acc s).
Proof.
  destruct acc as [videos seen1]. intros Hacc. unfold html5Source.
  destruct (Attr (node s) "src") as [src |]; [| exact Hacc].
  apply addVideo_found; [exact Hacc |].
  intros absURL Habs _. cbn [VideoURL VideoType Provider].
  split; [| reflexivity]. split; [eauto |]. left. auto.
Qed.

Lemma extractHTML5Videos_found doc seen :
  found seen (extractHTML5Videos doc baseURL seen).
Proof.
  unfold Videos.extractHTML5Videos.
  apply fold_found; [| apply found_nil].
  intros acc s Hacc.
  apply fold_found; [intros; apply html5Source_found; assumption |].
  apply html5Source_found, Hacc.
Qed.

(** The five extractors in a row. *)
Lemma ExtractVideosFromHTML_found doc :
  exists seen, found ∅ (ExtractVideosFromHTML doc baseURL, seen).
Proof.
  unfold Videos.ExtractVideosFromHTML.
  pose proof (extractOGVideos_found doc ∅) as H1.
  destruct (extractOGVideos doc baseURL ∅) as [og seen1].
  pose proof (extractTwitterPlayer_found doc seen1) as H2.
  destruct (extractTwitterPlayer doc baseURL seen1) as [twitter seen2].
  pose proof (extractJSONLDVideos_found doc seen2) as H3.
  destruct (extractJSONLDVideos doc baseURL seen2) as [jsonld seen3].
  pose proof (extractEmbeddedVideos_found doc seen3) as H4.
  destruct (extractEmbeddedVideos doc baseURL seen3) as [embedded seen4].
  pose proof (extractHTML5Videos_found doc seen4) as H5.
  destruct (extractHTML5Videos doc baseURL seen4) as [html5 seen5].
  exists seen5.
  eapply found_app; [exact H1 |].
  eapply found_app; [exact H2 |].
  eapply found_app; [exact H3 |].
  eapply found_app; [exact H4 | exact H5].
Qed.

(** X15. [ExtractVideosFromHTML] never returns two videos with the same
    URL, whichever of the five extractors found them: the set of seen URLs
    is shared by all of them. *)
Theorem ExtractVideosFromHTML_distinct (doc : Document) :
  NoDup (map VideoURL (ExtractVideosFromHTML doc baseURL)).
Proof.
  destruct (ExtractVideosFromHTML_found doc) as [seen H]. apply H.
Qed.

(** X16. Every video [ExtractVideosFromHTML] returns has a URL made absolute
    against the base URL, and one of the types html5 (with the provider
    html5), og, twitter, jsonld or embedded (with the provider detected from
    the URL); an embedded video is a known video embed and never has the
    provider unknown. *)
Theorem ExtractVideosFromHTML_providers (doc : Document) :
  Forall
    (fun v =>
       (exists raw, toAbsoluteURL raw baseURL = Go.Ok (VideoURL v)) /\
       ((VideoType v = "html5" /\ Provider v = "html5") \/
        ((VideoType v = "og" \/ VideoType v = "twitter" \/ VideoType v = "jsonld") /\
         Provider v = detectProvider (VideoURL v)) \/
        (VideoType v = "embedded" /\ Provider v = detectProvider (VideoURL v) /\
         isVideoEmbed (VideoURL v) = true /\ Provider v <> "unknown")))
    (ExtractVideosFromHTML doc baseURL).
Proof.
  apply List.Forall_forall. intros v Hv.
  assert (Hd : described v).
  { destruct (ExtractVideosFromHTML_found doc) as [seen H]. apply H. exact Hv. }
  destruct Hd as [Hraw Hkind]. split; [exact Hraw |].
  destruct Hkind as [H | [H | (Ht & Hp & He)]]; [left; exact H | right; left; exact H |].
  right. right. repeat split; auto.
  rewrite Hp. apply isVideoEmbed_known, He.
Qed.

End Videos.

(** The sample page: the video announced in the Open Graph data is not
    repeated by its embed, nor the [video] element by its [source]. *)
Example videos_of_sample_page :
  Videos.ExtractVideosFromHTML Pages.lib VideoPages.videoExt VideoPages.Unmarshal
    VideoPages.videoArticle "https://example.com/a"
  = [ mkVideo "https://www.youtube.com/embed/abc" "youtube" "og" "";
      mkVideo "https://player.vimeo.com/video/1" "vimeo" "embedded" "";
      mkVideo "https://example.com/media/clip.mp4" "html5" "html5" "" ].
Proof. vm_compute. reflexivity. Qed.

End VideoFacts.

(** ** Cloud Run handler: calls of the scraper, keys and error messages *)

Module HandlerFacts.
Import Models Handler.
Local Open Scope list_scope.

Lemma length_append (a b : string) :
  String.length (a ++ b)%string = (String.length a + String.length b)%nat.
Proof.
  induction a as [| c a IH]; [reflexivity |].
  change (S (String.length (a ++ b)%string) = S (String.length a + String.length b)).
  f_equal. exact IH.
Qed.

Lemma length_prefix n : forall s,
  String.length (prefix n s) = Nat.min n (String.length s).
Proof.
  unfold prefix. induction n as [| n IH]; intros [| c s]; cbn; auto.
Qed.

Section Handler.

Variable L : Lib.GoLib.
Variable ReplaceAll : string -> string -> string -> string.
Variable Getenv : string -> string.
Variable ScrapeSmartWithTimeout : string -> Z -> Scraped.
Variable finishedAt : Z.

Local Abbreviation loadAPIKeys := (Handler.loadAPIKeys L Getenv).
Local Abbreviation sanitizeErrorMessage := (Handler.sanitizeErrorMessage ReplaceAll Getenv).
Local Abbreviation Handle :=
  (Handler.Handle L ReplaceAll Getenv ScrapeSmartWithTimeout finishedAt).

Lemma requestTimeoutMs_range timeoutStr :
  1000 <= requestTimeoutMs timeoutStr <= 240000.
Proof.
  unfold requestTimeoutMs.
  destruct (String.eqb timeoutStr "").
  - cbn. lia.
  - destruct (Lib.Atoi timeoutStr) as [t |]; [| cbn; lia].
    destruct (Z.ltb_spec 240000 t); [cbn; lia |].
    destruct (Z.ltb_spec t 1000); lia.
Qed.

(** X17. The handler calls the scraper at most once, and only for a GET
    request whose key is valid and whose [url] parameter is not empty and
    parses; the timeout it passes is between 1000 and 240000 milliseconds
    whatever the [timeout] parameter says.  Without a call the status is 204,
    405, 401 or 400; with one it is 200, 451, 504 or 500. *)
Theorem Handle_calls_scraper_once (apiKeys : list string) (r : Request) :
  (snd (Handle apiKeys r) = [] /\
   In (status (fst (Handle apiKeys r))) [204; 405; 401; 400]) \/
  (exists timeoutMs,
     snd (Handle apiKeys r) = [mkCall (Query r "url") timeoutMs] /\
     1000 <= timeoutMs <= 240000 /\
     Method r = "GET" /\
     validateAPIKey apiKeys (Query r "key") = true /\
     Query r "url" <> "" /\
     (exists u, Lib.url_Parse L (Query r "url") = Go.Ok u) /\
     In (status (fst (Handle apiKeys r))) [200; 451; 504; 500]).
Proof.
  unfold Handler.Handle.
  destruct (String.eqb (Method r) "OPTIONS"); [left; cbn; auto 10 |].
  destruct (String.eqb_spec (Method r) "GET") as [Hget | Hget]; cbn [negb];
    [| left; cbn; auto 10].
  destruct (validateAPIKey apiKeys (Query r "key")) eqn:Hkey; cbn [negb];
    [| left; cbn; auto 10].
  destruct (String.eqb_spec (Query r "url") "") as [Hurl | Hurl];
    [left; cbn; auto 10 |].
  destruct (Lib.url_Parse L (Query r "url")) as [u | e] eqn:Hparse;
    [| left; cbn; auto 10].
  right. exists (requestTimeoutMs (Query r "timeout")).
  pose proof (requestTimeoutMs_range (Query r "timeout")) as Hrange.
  destruct (outcome (ScrapeSmartWithTimeout (Query r "url")
                       (requestTimeoutMs (Query r "timeout"))))
    as [result | [domain | message]].
  - cbn. repeat split; eauto 10; lia.
  - cbn. repeat split; eauto 10; lia.
  - destruct (Go.Contains message "context deadline exceeded"); cbn;
      repeat split; eauto 10; lia.
Qed.

(** X18. Which keys the handler accepts once [loadAPIKeys] has read the
    environment: every key, also a missing one, when [SCRAPER_API_KEYS] is
    empty or holds only blank entries (the secret manager never provides
    keys); otherwise exactly the trimmed non-empty entries of the
    comma-separated list, so that a request without a key is refused. *)
Theorem validateAPIKey_loaded (requestKey : string) :
  validateAPIKey loadAPIKeys requestKey = true <->
  (Getenv "SCRAPER_API_KEYS" = "" \/
   forall item, In item (Engine.splitComma (Getenv "SCRAPER_API_KEYS")) ->
     Lib.TrimSpace L item = "") \/
  (requestKey <> "" /\
   exists item, In item (Engine.splitComma (Getenv "SCRAPER_API_KEYS")) /\
     Lib.TrimSpace L item = requestKey).
Proof.
  assert (Hload : loadAPIKeys =
            if String.eqb (Getenv "SCRAPER_API_KEYS") "" then []
            else flat_map
                   (fun key => if String.eqb (Lib.TrimSpace L key) "" then []
                               else [Lib.TrimSpace L key])
                   (Engine.splitComma (Getenv "SCRAPER_API_KEYS"))).
  { unfold Handler.loadAPIKeys.
    destruct (String.eqb (Getenv "SCRAPER_API_KEY_SECRET") ""); reflexivity. }
  rewrite Hload. clear Hload.
  destruct (String.eqb_spec (Getenv "SCRAPER_API_KEYS") "") as [Hempty | Hset].
  { split; [intros _; left; left; exact Hempty | reflexivity]. }
  set (items := Engine.splitComma (Getenv "SCRAPER_API_KEYS")).
  set (keys := flat_map _ items).
  assert (Hkeys : forall k, In k keys <->
                    k <> "" /\ exists item, In item items /\ Lib.TrimSpace L item = k).
  { intros k. unfold keys. rewrite in_flat_map. split.
    - intros (item & Hitem & Hk).
      destruct (String.eqb_spec (Lib.TrimSpace L item) "") as [E | E];
        [destruct Hk |].
      destruct Hk as [<- | []]. split; [exact E | eauto].
    - intros (Hne & item & Hitem & <-). exists item. split; [exact Hitem |].
      destruct (String.eqb_spec (Lib.TrimSpace L item) ""); [contradiction |].
      left. reflexivity. }
  unfold validateAPIKey.
  destruct keys as [| k0 keys'] eqn:Ek.
  - split; [| reflexivity]. intros _. left. right. intros item Hitem.
    destruct (String.eqb_spec (Lib.TrimSpace L item) "") as [E | E]; [exact E |].
    exfalso. apply (proj2 (Hkeys (Lib.TrimSpace L item))). eauto.
  - cbn [length]. replace (Z.of_nat (S (length keys')) =? 0) with false
      by (symmetry; apply Z.eqb_neq; lia).
    rewrite existsb_exists. split.
    + intros (k & Hk & E). apply String.eqb_eq in E. subst k.
      right. apply Hkeys, Hk.
    + intros [[Hempty | Hblank] | Hfound].
      * contradiction.
      * exfalso. destruct (proj1 (Hkeys k0) (or_introl eq_refl))
          as (Hne & item & Hitem & E).
        rewrite (Hblank item Hitem) in E. congruence.
      * exists requestKey. split; [apply Hkeys, Hfound | apply String.eqb_refl].
Qed.

(** X19. The error message the handler makes public is at most 203 bytes
    long, and at most 503 when verbose errors are switched on. *)
Theorem sanitizeErrorMessage_length (errorMsg : string) :
  Go.len (sanitizeErrorMessage errorMsg) <=
  if String.eqb (Getenv "VERBOSE_ERRORS") "true" || String.eqb (Getenv "DEBUG") "true"
  then 503 else 203.
Proof.
  assert (Hcut : forall n s, Z.of_nat n < Go.len s ->
                   Go.len (prefix n s ++ "...")%string = Z.of_nat n + 3).
  { intros n s Hlen. unfold Go.len in *.
    rewrite length_append, length_prefix. cbn [String.length]. lia. }
  unfold Handler.sanitizeErrorMessage.
  destruct (String.eqb (Getenv "VERBOSE_ERRORS") "true" ||
            String.eqb (Getenv "DEBUG") "true").
  - destruct (Z.ltb_spec 500 (Go.len errorMsg)) as [Hlong | Hshort]; [| lia].
    rewrite (Hcut 500%nat) by exact Hlong. lia.
  - set (msg := ReplaceAll (ReplaceAll errorMsg "/app/" "") "/tmp/" "").
    destruct (_ || _); [vm_compute; discriminate |].
    destruct (_ || _); [vm_compute; discriminate |].
    destruct (_ || _); [vm_compute; discriminate |].
    destruct (_ || _); [vm_compute; discriminate |].
    destruct (_ || _); [vm_compute; discriminate |].
    destruct (Z.ltb_spec 200 (Go.len msg)) as [Hlong | Hshort]; [| lia].
    rewrite (Hcut 200%nat) by exact Hlong. lia.
Qed.

End Handler.

End HandlerFacts.

(** ** Image engine: what the pre-pass removes *)

Module PreprocessFacts.
Import Models Images Dom Engine DomFacts.
Local Open Scope list_scope.

(** A compound selector reads only the tag and the attributes of the
    element. *)
Lemma matchesSimple_shallow sel n n' :
  shallow n = shallow n' -> matchesSimple sel n = matchesSimple sel n'.
Proof.
  destruct n as [tag attrs children |], n' as [tag' attrs' children' |];
    cbn [shallow]; try discriminate; [| reflexivity].
  intros E. injection E as <- <-. reflexivity.
Qed.

(** The elements of a subtree after [removeWhere]: each is an element of
    the subtree before, with its tag and attributes, that does not pass the
    test. *)
Lemma removeWhere_elements p n : forall ancestors ancestors' s,
  p (mkSel n ancestors) = false ->
  In s (descend ancestors' (removeWhere p ancestors n)) ->
  exists s0, In s0 (descend ancestors n) /\
             shallow (node s) = shallow (node s0) /\ p s0 = false.
Proof.
  induction n as [data | tag attrs children IH] using Node_nested_ind;
    intros ancestors ancestors' s Hroot Hs; [destruct Hs |].
  cbn [removeWhere descend] in Hs. destruct Hs as [<- | Hs].
  - exists (mkSel (Element tag attrs children) ancestors).
    split; [left; reflexivity | auto].
  - apply in_flat_map in Hs. destruct Hs as (c' & Hc' & Hs).
    apply in_flat_map in Hc'. destruct Hc' as (c & Hc & Hkeep).
    destruct (p (mkSel c (Element tag attrs children :: ancestors))) eqn:Hp;
      [destruct Hkeep |].
    destruct Hkeep as [<- | []].
    rewrite List.Forall_forall in IH.
    destruct (IH c Hc _ _ s Hp Hs) as (s0 & Hs0 & Hsh & Hp0).
    exists s0. split; [| auto].
    cbn [descend]. right. apply in_flat_map. exists c. auto.
Qed.

Lemma removeAll_elements p doc s :
  In s (elements (removeAll p doc)) ->
  exists s0, In s0 (elements doc) /\
             shallow (node s) = shallow (node s0) /\ p s0 = false.
Proof.
  unfold elements, removeAll. intros Hs.
  apply in_flat_map in Hs. destruct Hs as (c' & Hc' & Hs).
  apply in_flat_map in Hc'. destruct Hc' as (c & Hc & Hkeep).
  destruct (p (mkSel c [])) eqn:Hp; [destruct Hkeep |].
  destruct Hkeep as [<- | []].
  destruct (removeWhere_elements p c [] [] s Hp Hs) as (s0 & Hs0 & Hrest).
  exists s0. split; [| exact Hrest]. apply in_flat_map. exists c. auto.
Qed.

Section Preprocess.

Variable L : Lib.GoLib.
Variable ie : ImageExtractor.

Local Abbreviation removeWidgets := (Engine.removeWidgets L ie).
Local Abbreviation removeWidgetsDoc := (Engine.removeWidgetsDoc L ie).
Local Abbreviation preprocessHTML := (Engine.preprocessHTML L ie).

(** The elements of a subtree after the widget pass are elements of the
    subtree before, with their tag and attributes. *)
Lemma removeWidgets_elements n : forall ctx n' ancestors ancestors' s,
  removeWidgets ctx n = Some n' ->
  In s (descend ancestors' n') ->
  exists s0, In s0 (descend ancestors n) /\ shallow (node s) = shallow (node s0).
Proof.
  induction n as [data | tag attrs children IH] using Node_nested_ind;
    intros ctx n' ancestors ancestors' s Hn Hs.
  - injection Hn as <-. destruct Hs.
  - cbn [Engine.removeWidgets] in Hn.
    destruct (_ && _ && _) in Hn; [discriminate |].
    injection Hn as <-.
    cbn [descend] in Hs. destruct Hs as [<- | Hs].
    + exists (mkSel (Element tag attrs children) ancestors).
      split; [left; reflexivity | reflexivity].
    + apply in_flat_map in Hs. destruct Hs as (c' & Hc' & Hs).
      (* the children kept by the walk come from the children *)
      match type of Hc' with
      | In c' (?W [] children) =>
          assert (Hwalk : forall rest kept,
                    Forall (fun c => forall ctx n' ancestors ancestors' s,
                              removeWidgets ctx c = Some n' ->
                              In s (descend ancestors' n') ->
                              exists s0, In s0 (descend ancestors c) /\
                                         shallow (node s) = shallow (node s0)) rest ->
                    In c' (W kept rest) ->
                    In c' kept \/
                    exists c ctx, In c rest /\ removeWidgets ctx c = Some c')
      end.
      { clear. induction rest as [| c rest IHrest]; intros kept Hall Hin;
          [left; exact Hin |].
        inversion Hall as [| ? ? Hc Hrest]; subst.
        destruct (removeWidgets (mkFrame tag attrs kept rest :: ctx) c)
          as [c1 |] eqn:Hc1.
        - destruct (IHrest _ Hrest Hin) as [Hk | (c0 & ctx0 & Hc0 & E)].
          + apply in_app_or in Hk. destruct Hk as [Hk | [<- | []]];
              [left; exact Hk |].
            right. exists c, (mkFrame tag attrs kept rest :: ctx).
            split; [left; reflexivity | exact Hc1].
          + right. exists c0, ctx0. split; [right; exact Hc0 | exact E].
        - destruct (IHrest _ Hrest Hin) as [Hk | (c0 & ctx0 & Hc0 & E)];
            [left; exact Hk |].
          right. exists c0, ctx0. split; [right; exact Hc0 | exact E]. }
      destruct (Hwalk children [] IH Hc') as [[] | (c & ctx0 & Hc & E)].
      rewrite List.Forall_forall in IH.
      destruct (IH c Hc ctx0 c' (Element tag attrs children :: ancestors) _ s E Hs)
        as (s0 & Hs0 & Hsh).
      exists s0. split; [| exact Hsh].
      cbn [descend]. right. apply in_flat_map. exists c. auto.
Qed.

Lemma removeWidgetsDoc_elements rest : forall kept s,
  In s (elements (removeWidgetsDoc kept rest)) ->
  In s (elements kept) \/
  exists s0, In s0 (elements rest) /\ shallow (node s) = shallow (node s0).
Proof.
  induction rest as [| c rest IH]; intros kept s Hs; cbn [Engine.removeWidgetsDoc] in Hs;
    [left; exact Hs |].
  destruct (removeWidgets [] c) as [c' |] eqn:Hc.
  - destruct (IH _ s Hs) as [Hk | (s0 & Hs0 & Hsh)].
    + unfold elements in Hk. rewrite flat_map_app in Hk.
      apply in_app_or in Hk. destruct Hk as [Hk | Hk]; [left; exact Hk |].
      cbn [flat_map] in Hk. rewrite app_nil_r in Hk.
      destruct (removeWidgets_elements c [] c' [] [] s Hc Hk) as (s0 & Hs0 & Hsh).
      right. exists s0. split; [| exact Hsh].
      unfold elements. cbn [flat_map]. apply in_or_app. left. exact Hs0.
    + right. exists s0. split; [| exact Hsh].
      unfold elements. cbn [flat_map]. apply in_or_app. right. exact Hs0.
  - destruct (IH _ s Hs) as [Hk | (s0 & Hs0 & Hsh)]; [left; exact Hk |].
    right. exists s0. split; [| exact Hsh].
    unfold elements. cbn [flat_map]. apply in_or_app. right. exact Hs0.
Qed.

(** The removals selector by selector: once a selector has been dealt
    with, no element matching it is left, and the later removals bring none
    back. *)
Lemma fold_removeAll_elements sels : forall (done : list Simple) doc,
  (forall s simple, In s (elements doc) -> In simple done ->
     matchesSimple simple (node s) = false) ->
  forall s simple,
    In s (elements (fold_left (fun d sel => removeAll (matches sel) d)
                      (map Just sels) doc)) ->
    In simple (done ++ sels) ->
    matchesSimple simple (node s) = false.
Proof.
  induction sels as [| sel sels IH]; intros done doc Hdone s simple Hs Hsimple.
  - rewrite app_nil_r in Hsimple. exact (Hdone s simple Hs Hsimple).
  - cbn [map fold_left] in Hs.
    apply (IH (done ++ [sel]) (removeAll (matches (Just sel)) doc)); [| exact Hs |].
    + intros s1 simple1 Hs1 Hin.
      destruct (removeAll_elements _ _ _ Hs1) as (s0 & Hs0 & Hsh & Hp).
      rewrite (matchesSimple_shallow simple1 _ _ Hsh).
      apply in_app_or in Hin. destruct Hin as [Hin | [<- | []]].
      * exact (Hdone s0 simple1 Hs0 Hin).
      * exact Hp.
    + rewrite <- app_assoc. exact Hsimple.
Qed.

(** X20. After [preprocessHTML] the document holds no element that matches
    one of the selectors of its removal list: no [aside], [nav] or [footer],
    no element of class [sidebar], [right-rail], [side-bar], [related-posts],
    [related-articles], [recommended-posts], [popular-posts] or
    [lg:col-span-1], and none whose class or id contains [sidebar], [related]
    or [popular]; the later passes bring none back. *)
Theorem preprocessHTML_removes_side_content (doc : Document) :
  Forall
    (fun s => forall sel, In sel preprocessSelectors -> matches sel s = false)
    (elements (preprocessHTML doc)).
Proof.
  apply List.Forall_forall. intros s Hs sel Hsel.
  unfold Engine.preprocessHTML in Hs.
  destruct (removeWidgetsDoc_elements _ [] s Hs) as [[] | (s1 & Hs1 & Hsh1)].
  destruct (removeAll_elements _ _ _ Hs1) as (s2 & Hs2 & Hsh2 & _).
  set (simples :=
         [ Tag "aside"; Class "sidebar"; Class "right-rail"; Class "side-bar";
           Class "related-posts"; Class "related-articles";
           Class "recommended-posts"; Class "popular-posts";
           AttrSub "class" "sidebar"; AttrSub "id" "sidebar";
           AttrSub "class" "related"; AttrSub "id" "related";
           AttrSub "class" "popular"; AttrSub "id" "popular";
           Tag "nav"; Tag "footer"; Class "lg:col-span-1" ]).
  change preprocessSelectors with (map Just simples) in Hs2, Hsel.
  apply in_map_iff in Hsel. destruct Hsel as (simple & <- & Hsimple).
  cbn [matches].
  rewrite (matchesSimple_shallow simple _ _ Hsh1),
          (matchesSimple_shallow simple _ _ Hsh2).
  apply (fold_removeAll_elements simples [] doc); [intros ? ? _ [] | exact Hs2 |].
  exact Hsimple.
Qed.

End Preprocess.

End PreprocessFacts.

(** ** Extraction helpers: the JSON-LD article *)

Module HelpersFacts.
Import Models Images Dom Videos Helpers.
Local Open Scope list_scope.

(** A string that contains [a ++ b] contains [b]. *)
Lemma HasPrefix_app_r a : forall s b,
  Go.HasPrefix s (a ++ b)%string = true -> Go.Contains s b = true.
Proof.
  induction a as [| x a IH]; intros s b H.
  - change (Go.HasPrefix s b = true) in H.
    destruct s; cbn [Go.Contains]; rewrite H; reflexivity.
  - change (Go.HasPrefix s (String x (a ++ b)) = true) in H.
    destruct s as [| c s]; cbn [Go.HasPrefix] in H; [discriminate |].
    apply andb_prop in H. destruct H as [_ H].
    cbn [Go.Contains]. rewrite (IH s b H). apply orb_true_r.
Qed.

Lemma Contains_app_r s : forall a b,
  Go.Contains s (a ++ b)%string = true -> Go.Contains s b = true.
Proof.
  induction s as [| c s IH]; intros a b; cbn [Go.Contains].
  - rewrite orb_false_r. intros H. exact (HasPrefix_app_r a "" b H).
  - intros H. apply orb_prop in H. destruct H as [H | H].
    + exact (HasPrefix_app_r a (String c s) b H).
    + rewrite (IH a b H). apply orb_true_r.
Qed.

Section Helpers.

Variable L : Lib.GoLib.
Variable UnmarshalArticle : string -> option JSONLDArticle.
Variable UnmarshalArticles : string -> option (list JSONLDArticle).

Local Abbreviation articleTypeName := (Helpers.articleTypeName L).
Local Abbreviation isArticleType := (Helpers.isArticleType L).
Local Abbreviation isArticle := (Helpers.isArticle L).
Local Abbreviation firstArticle := (Helpers.firstArticle L).
Local Abbreviation jsonldStep :=
  (Helpers.jsonldStep L UnmarshalArticle UnmarshalArticles).
Local Abbreviation ExtractJSONLD :=
  (Helpers.ExtractJSONLD L UnmarshalArticle UnmarshalArticles).

(** The test on [newsarticle] adds nothing to the one on [article]. *)
Lemma articleTypeName_iff typeStr :
  articleTypeName typeStr =
  Go.Contains (Lib.ToLower L typeStr) "article" ||
  Go.Contains (Lib.ToLower L typeStr) "blogposting".
Proof.
  unfold Helpers.articleTypeName.
  destruct (Go.Contains (Lib.ToLower L typeStr) "article") eqn:Ha; [reflexivity |].
  destruct (Go.Contains (Lib.ToLower L typeStr) "newsarticle") eqn:Hn;
    [| reflexivity].
  apply (Contains_app_r _ "news" "article") in Hn. congruence.
Qed.

Lemma firstArticle_some articles article :
  firstArticle articles = Some article ->
  In article articles /\ isArticle article = true.
Proof.
  induction articles as [| a rest IH]; cbn [Helpers.firstArticle]; [discriminate |].
  destruct (isArticle a) eqn:Ha.
  - intros H. injection H as <-. split; [left; reflexivity | exact Ha].
  - intros H. destruct (IH H). split; [right; assumption | assumption].
Qed.

(** What holds of the results between two scripts: nothing found and all
    three texts empty, or the fields of an article decoded from one of the
    scripts seen. *)
Local Abbreviation settled := (fun (scripts : list Selection) (r : JSONLDResult) =>
  (found r = false /\ headline r = "" /\ body r = "" /\ description r = "") \/
  (exists s article,
     In s scripts /\
     (UnmarshalArticle (nodeText (node s)) = Some article \/
      exists articles, UnmarshalArticles (nodeText (node s)) = Some articles /\
                       In article articles) /\
     isArticleType (Type_ article) = true /\ Headline article <> "" /\
     r = fromArticle article)).

Lemma jsonldStep_settled seen acc s :
  settled seen acc -> settled (seen ++ [s]) (jsonldStep acc s).
Proof.
  intros Hacc.
  assert (Hkeep : settled (seen ++ [s]) acc).
  { destruct Hacc as [H | (s0 & a & Hs0 & Hrest)]; [left; exact H |].
    right. exists s0, a. split; [apply in_or_app; left; exact Hs0 | exact Hrest]. }
  assert (Hnew : forall article,
             (UnmarshalArticle (nodeText (node s)) = Some article \/
              exists articles,
                UnmarshalArticles (nodeText (node s)) = Some articles /\
                In article articles) ->
             isArticle article = true ->
             settled (seen ++ [s]) (fromArticle article)).
  { intros article Hfrom Hart. right. exists s, article.
    unfold Helpers.isArticle in Hart. apply andb_prop in Hart.
    destruct Hart as [Htype Hhead].
    split; [apply in_or_app; right; left; reflexivity |].
    split; [exact Hfrom |]. split; [exact Htype |]. split; [| reflexivity].
    destruct (String.eqb_spec (Headline article) ""); [discriminate | assumption]. }
  unfold Helpers.jsonldStep.
  destruct (found acc); [exact Hkeep |].
  destruct (String.eqb (nodeText (node s)) ""); [exact Hkeep |].
  destruct (UnmarshalArticle (nodeText (node s))) as [article |] eqn:Hone.
  - destruct (isArticle article) eqn:Hart; [apply Hnew; auto |].
    destruct (UnmarshalArticles (nodeText (node s))) as [articles |] eqn:Hmany;
      [| exact Hkeep].
    destruct (firstArticle articles) as [a |] eqn:Hfirst; [| exact Hkeep].
    apply firstArticle_some in Hfirst. destruct Hfirst as [Hin Ha].
    apply Hnew; [right; eauto | exact Ha].
  - destruct (UnmarshalArticles (nodeText (node s))) as [articles |] eqn:Hmany;
      [| exact Hkeep].
    destruct (firstArticle articles) as [a |] eqn:Hfirst; [| exact Hkeep].
    apply firstArticle_some in Hfirst. destruct Hfirst as [Hin Ha].
    apply Hnew; [right; eauto | exact Ha].
Qed.

Lemma fold_jsonldStep_settled scripts : forall seen acc,
  settled seen acc -> settled (seen ++ scripts) (fold_left jsonldStep scripts acc).
Proof.
  induction scripts as [| s scripts IH]; intros seen acc Hacc; cbn [fold_left].
  - rewrite app_nil_r. exact Hacc.
  - replace (seen ++ s :: scripts) with ((seen ++ [s]) ++ scripts)
      by (rewrite <- app_assoc; reflexivity).
    apply IH, jsonldStep_settled, Hacc.
Qed.

Lemma ExtractJSONLD_settled doc :
  settled (FindDoc [Just (TagAttrEq "script" "type" "application/ld+json")] doc)
    (ExtractJSONLD doc).
Proof.
  pose proof (fold_jsonldStep_settled
                (FindDoc [Just (TagAttrEq "script" "type" "application/ld+json")] doc)
                [] (mkJSONLD "" "" "" false)) as H.
  cbn [app] in H. apply H. left. cbn. auto.
Qed.

(** X21. What [ExtractJSONLD] returns is either nothing (not found, with an
    empty headline, body and description) or the headline, body and
    description of an article decoded from a JSON-LD script of the document,
    alone or as an element of an array: an object whose [@type] is a string,
    or holds a string, that contains article or blogposting in lower case, and
    whose headline is not empty.  So a found result never has an empty
    headline. *)
Theorem ExtractJSONLD_found_article (doc : Document) :
  let r := ExtractJSONLD doc in
  (found r = false /\ headline r = "" /\ body r = "" /\ description r = "") \/
  (found r = true /\ headline r <> "" /\
   exists s article,
     In s (FindDoc [Just (TagAttrEq "script" "type" "application/ld+json")] doc) /\
     (UnmarshalArticle (nodeText (node s)) = Some article \/
      exists articles, UnmarshalArticles (nodeText (node s)) = Some articles /\
                       In article articles) /\
     (match Type_ article with
      | JString typeStr =>
          Go.Contains (Lib.ToLower L typeStr) "article" ||
          Go.Contains (Lib.ToLower L typeStr) "blogposting" = true
      | JArray typeArr =>
          exists typeStr, In (JString typeStr) typeArr /\
            Go.Contains (Lib.ToLower L typeStr) "article" ||
            Go.Contains (Lib.ToLower L typeStr) "blogposting" = true
      | _ => False
      end) /\
     headline r = Headline article /\ body r = ArticleBody article /\
     description r = Description article).
Proof.
  intros r. pose proof (ExtractJSONLD_settled doc) as H. fold r in H.
  destruct H as [H | (s & article & Hs & Hfrom & Htype & Hhead & ->)];
    [left; exact H |].
  right. cbn [found headline body description fromArticle].
  split; [reflexivity |]. split; [exact Hhead |].
  exists s, article. split; [exact Hs |]. split; [exact Hfrom |].
  split; [| auto].
  unfold Helpers.isArticleType in Htype.
  destruct (Type_ article) as [| | | typeStr | typeArr |]; try discriminate.
  - rewrite <- articleTypeName_iff. exact Htype.
  - apply existsb_exists in Htype. destruct Htype as (t & Ht & Hname).
    destruct t as [| | | typeStr | |]; try discriminate.
    exists typeStr. split; [exact Ht |].
    rewrite <- articleTypeName_iff. exact Hname.
Qed.

(** X22. The alt text of the JSON-LD image candidate is the headline that
    [ExtractJSONLD] returns, whatever the document: the test
    [found && headline != ""] of [extractJSONLDImage] never changes it, since
    the headline is empty exactly when nothing was found. *)
Theorem jsonld_image_alt_is_headline (ie : ImageExtractor)
    (renderChildren : list Node -> string) (ExtractJSONLDImage : Document -> string)
    (doc : Document) (baseURL : string) :
  let R := Engine.mkReaders renderChildren ExtractJSONLDImage
             (fun doc => (headline (ExtractJSONLD doc), found (ExtractJSONLD doc))) in
  match Engine.extractJSONLDImage L ie R doc baseURL with
  | Some c => CandAlt c = headline (ExtractJSONLD doc) /\ Source c = "jsonld"
  | None => True
  end.
Proof.
  intros R. unfold Engine.extractJSONLDImage. cbn [Engine.ExtractJSONLDImage R].
  destruct (String.eqb (ExtractJSONLDImage doc) ""); [exact I |].
  destruct (Engine.toAbsoluteURL L (ExtractJSONLDImage doc) baseURL)
    as [absURL | e]; [| exact I].
  destruct (negb (imageExt (regexes ie) (Engine.cleanImageURL L absURL)));
    [exact I |].
  cbn [Engine.ExtractJSONLD R CandAlt Models.Source]. split; [| reflexivity].
  destruct (ExtractJSONLD_settled doc)
    as [(Hf & Hh & _) | (s & article & _ & _ & _ & Hh & E)].
  - rewrite Hf, Hh. reflexivity.
  - rewrite E. cbn [found headline fromArticle andb].
    destruct (String.eqb_spec (Headline article) "");
      [contradiction | reflexivity].
Qed.

End Helpers.

End HelpersFacts.

(** ** Orchestrator: the browser phase keeps the buffer *)

Module BudgetFacts.
Import Models Scraper.
Local Open Scope list_scope.

Section Orchestrator.

Variable env : Env.
Variable ctx : Context.

Local Abbreviation browserPhase := (Scraper.browserPhase env ctx).
Local Abbreviation browserFailed := (Scraper.browserFailed env ctx).

(** The timeout, in milliseconds, that the browser phase computes at time
    [t]. *)
Local Abbreviation timeoutMsAt := (fun t : Z =>
  Z.quot (adjustTimeoutForBudget env BrowserTimeout
            (calculateRemainingTime ctx t - 5 * Second) 1) Millisecond).

(** X23. When the browser returns within the timeout it was given, and the
    conversion through [float64] of the budget of this call (the time left
    less the buffer of 5 seconds) does not round it upwards, the browser
    phase ends no later than 5 seconds before the deadline, plus the time of
    the extraction, unless that moment had passed when the phase began, in
    which case the phase takes no time. *)
Theorem browserPhase_keeps_buffer url st d extraction :
  let budget := calculateRemainingTime ctx (clock st) - 5 * Second in
  deadline ctx = Some d ->
  scaleDuration env budget 1 <= budget ->
  took (ScrapeWithBrowserOptimized env (clock st) (timeoutMsAt (clock st)) url)
    <= timeoutMsAt (clock st) * Millisecond ->
  (forall html, extractionTime env html <= extraction) ->
  0 <= extraction ->
  clock (snd (browserPhase url st)) <= Z.max (clock st) (d - 5 * Second + extraction).
Proof.
  intros budget0 Hd Hscale Htook Hextract Hnn. subst budget0.
  unfold Scraper.browserPhase, bind, now.
  destruct (Z.ltb_spec (calculateRemainingTime ctx (clock st) - 5 * Second)
              (1 * Second)) as [Hlow | Hok].
  { cbn. lia. }
  assert (Hrem : calculateRemainingTime ctx (clock st) = d - clock st).
  { unfold calculateRemainingTime in *. rewrite Hd in *.
    destruct (Z.ltb_spec 0 (d - clock st)); [reflexivity |].
    unfold Second, Millisecond in Hok. lia. }
  set (ms := timeoutMsAt (clock st)) in *.
  assert (Hms : ms * Millisecond <= d - clock st - 5 * Second).
  { unfold ms. rewrite Hrem.
    set (budget := d - clock st - 5 * Second).
    assert (Hadj : adjustTimeoutForBudget env BrowserTimeout budget 1 <= budget).
    { unfold adjustTimeoutForBudget. rewrite Hrem in Hscale. fold budget in Hscale.
      destruct (Z.ltb_spec (scaleDuration env budget 1) BrowserTimeout); lia. }
    assert (Hpos : 0 <= budget).
    { unfold budget. rewrite Hrem in Hok. unfold Second, Millisecond in *. lia. }
    destruct (Z.le_gt_cases 0 (adjustTimeoutForBudget env BrowserTimeout budget 1))
      as [Hnneg | Hneg].
    - pose proof (Z.mul_quot_le _ Millisecond Hnneg ltac:(unfold Millisecond; lia)) as Hq.
      lia.
    - pose proof (Z.quot_le_mono
                    (adjustTimeoutForBudget env BrowserTimeout budget 1) 0
                    Millisecond ltac:(reflexivity) ltac:(lia)) as Hq.
      change (Z.quot 0 Millisecond) with 0 in Hq.
      unfold Millisecond in *. lia. }
  unfold Scraper.extract, bind, spend, ret. cbn [clock trace fst snd].
  destruct (fetched (ScrapeWithBrowserOptimized env (clock st) ms url))
    as [[html finalURL] | e]; cbn [clock trace fst snd].
  - specialize (Hextract html).
    destruct (emptyExtraction _).
    + match goal with
      | |- context [browserFailed ?u ?m ?s] =>
          destruct (OrchestratorFacts.browserFailed_err env ctx u m s) as [Hst _]
      end.
      rewrite Hst. cbn [clock]. lia.
    + cbn [clock snd]. lia.
  - match goal with
    | |- context [browserFailed ?u ?m ?s] =>
        destruct (OrchestratorFacts.browserFailed_err env ctx u m s) as [Hst _]
    end.
    rewrite Hst. cbn [clock]. lia.
Qed.

End Orchestrator.

(** [browserPhase_keeps_buffer] on a request with 20 seconds whose tier 1
    ended after 400 milliseconds: the browser gets 14.6 seconds, fails after
    2, and the phase ends at 2.4 seconds. *)
Lemma browserPhase_keeps_buffer_witness :
  clock (snd (browserPhase
                (envWith (Go.Ok (shortPage, "https://example.com/a"))
                   (300 * Millisecond) wholePage (20 * Millisecond))
                twentySeconds "https://example.com/a"
                (mkState (400 * Millisecond)
                   [Slept (100 * Millisecond);
                    HTTPFetch "https://example.com/a" (12 * Second)])))
  <= Z.max (400 * Millisecond) (20 * Second - 5 * Second + 20 * Millisecond).
Proof.
  apply (browserPhase_keeps_buffer
           (envWith (Go.Ok (shortPage, "https://example.com/a"))
              (300 * Millisecond) wholePage (20 * Millisecond))
           twentySeconds "https://example.com/a"
           (mkState (400 * Millisecond)
              [Slept (100 * Millisecond);
               HTTPFetch "https://example.com/a" (12 * Second)])
           (20 * Second) (20 * Millisecond)).
  - reflexivity.
  - vm_compute. discriminate.
  - vm_compute. discriminate.
  - intros html. cbn [extractionTime envWith]. lia.
  - vm_compute. discriminate.
Defined.

End BudgetFacts.

(** ** Orchestrator: requests with too little time *)

Module DeadlineFacts.
Import Models Scraper.
Local Open Scope list_scope.

Section Orchestrator.

Variable env : Env.
Variable ctx : Context.

Local Abbreviation ScrapeSmart := (Scraper.ScrapeSmart env ctx).

(** X24. A request that comes with less than 1.35 seconds before its
    deadline is never served, provided the conversion through [float64]
    that takes 80% of the time left after the random delay does not round
    the result above 80% of it: after the delay less than 1.25 seconds are
    left, 80% of which is below the second the HTTP phase needs, and the
    browser phase needs 6; [ScrapeSmart] sleeps, makes no call at all and
    returns the insufficient-budget error. *)
Theorem ScrapeSmart_needs_time url u st d :
  let timeLeft := calculateRemainingTime ctx
                    (clock st + (100 + Z.rem (clock st) 400) * Millisecond) in
  Lib.url_Parse (lib env) url = Go.Ok u ->
  deadline ctx = Some d ->
  0 <= clock st ->
  d - clock st < 1350 * Millisecond ->
  scaleDuration env timeLeft (8 # 10) * 10 <= 8 * timeLeft ->
  exists delay remaining,
    100 * Millisecond <= delay < 500 * Millisecond /\
    remaining < 1250 * Millisecond /\
    ScrapeSmart url st =
      (Go.Err (InsufficientBudget remaining),
       mkState (clock st + delay) (trace st ++ [Slept delay])).
Proof.
  intros timeLeft Hparse Hd Hclock Hshort Hscale. subst timeLeft.
  pose proof (Z.rem_bound_pos (clock st) 400 Hclock ltac:(lia)) as Hrem.
  set (delay := (100 + Z.rem (clock st) 400) * Millisecond) in *.
  set (remaining := calculateRemainingTime ctx (clock st + delay)) in *.
  assert (Hdelay : 100 * Millisecond <= delay < 500 * Millisecond)
    by (unfold delay, Millisecond; lia).
  assert (Hremaining : 0 <= remaining < 1250 * Millisecond).
  { unfold remaining, calculateRemainingTime. rewrite Hd.
    unfold Millisecond in *.
    destruct (Z.ltb_spec 0 (d - (clock st + delay))); lia. }
  exists delay, remaining. split; [exact Hdelay |]. split; [lia |].
  rewrite (ScraperFacts.ScrapeSmart_run env ctx url st u Hparse).
  assert (Hst0 : snd (randomDelay st)
                 = mkState (clock st + delay) (trace st ++ [Slept delay]))
    by reflexivity.
  rewrite Hst0.
  assert (Hhttp : httpPhase env ctx url
                    (mkState (clock st + delay) (trace st ++ [Slept delay]))
                  = (FallThrough,
                     mkState (clock st + delay) (trace st ++ [Slept delay]))).
  { unfold httpPhase, bind, now. cbn [clock].
    replace (httpTimeoutAt env ctx (clock st + delay) <? 1 * Second) with true;
      [reflexivity |].
    symmetry. apply Z.ltb_lt.
    unfold httpTimeoutAt, adjustTimeoutForBudget. fold remaining.
    unfold HTTPTimeout, Second, Millisecond in *.
    destruct (Z.ltb_spec (scaleDuration env remaining (8 # 10))
                (12 * (1000 * 1000000))); lia. }
  rewrite Hhttp. cbn [fst snd].
  unfold browserPhase, bind, now. cbn [clock]. fold remaining.
  replace (remaining - 5 * Second <? 1 * Second) with true; [reflexivity |].
  symmetry. apply Z.ltb_lt. unfold Second, Millisecond in *. lia.
Qed.

End Orchestrator.

(** [ScrapeSmart_needs_time] on a request with 1.3 seconds. *)
Lemma ScrapeSmart_needs_time_witness :
  exists delay remaining,
    100 * Millisecond <= delay < 500 * Millisecond /\
    remaining < 1250 * Millisecond /\
    Scraper.ScrapeSmart
      (envWith (Go.Ok (articlePage, "https://example.com/a")) (300 * Millisecond)
         wholePage (20 * Millisecond))
      (mkContext (Some (1300 * Millisecond)) None) "https://example.com/a" start =
      (Go.Err (InsufficientBudget remaining),
       mkState (clock start + delay) (trace start ++ [Slept delay])).
Proof.
  apply (ScrapeSmart_needs_time
           (envWith (Go.Ok (articlePage, "https://example.com/a")) (300 * Millisecond)
              wholePage (20 * Millisecond))
           (mkContext (Some (1300 * Millisecond)) None) "https://example.com/a"
           (Lib.mkURL "https" "" "" "example.com" "/a" "" false false "" "" "")
           start (1300 * Millisecond)).
  - vm_compute. reflexivity.
  - reflexivity.
  - vm_compute. discriminate.
  - vm_compute. reflexivity.
  - vm_compute. discriminate.
Defined.

End DeadlineFacts.

(** ** Image engine: the images come by decreasing score *)

Module RankingFacts.
Import Models Images ImagesRef Dom Engine.
Local Open Scope list_scope.

Lemma sortCandidates_StronglySorted candidates :
  StronglySorted (fun a b => outOfOrder a b = false) (sortCandidates candidates).
Proof.
  unfold sortCandidates. destruct candidates as [| a p]; [constructor |].
  cbn [length]. replace (S (length p) - 1)%nat with (length p) by lia.
  rewrite <- (app_nil_r (a :: p)).
  apply SortFacts.bubbleLoop_sorted; [reflexivity | constructor | intros x y _ []].
Qed.

(** The URLs of the images kept. *)
Lemma getTopImages_urls candidates limit :
  map ImageURL (getTopImages candidates limit) =
  take (Z.to_nat limit) (distinctURLs (map CandURL candidates)).
Proof.
  unfold getTopImages.
  destruct (TopImagesFacts.fold_topStep_order candidates [] (∅, [])
              ImagesFacts.topInv_nil eq_refl) as [Hinv Hord].
  cbn [app] in Hinv, Hord.
  destruct (fold_left topStep candidates (∅, [])) as [m ord].
  cbn [snd] in Hord. subst ord.
  destruct Hinv as (_ & _ & Hsome & _).
  rewrite map_map.
  rewrite <- (map_id (take (Z.to_nat limit) (distinctURLs (map CandURL candidates))))
    at 2.
  apply map_ext_in. intros u Hu. apply list_elem_of_In in Hu.
  rewrite (Hsome u (subseteq_take _ _ u Hu)). reflexivity.
Qed.

(** Two elements of a filtered list stand in the same order in the list. *)
Lemma filter_order {A : Type} (f : A -> bool) (l : list A) : forall i j u v,
  (i < j)%nat -> List.filter f l !! i = Some u -> List.filter f l !! j = Some v ->
  f u = true /\ f v = true /\
  exists i' j', (i' < j')%nat /\ l !! i' = Some u /\ l !! j' = Some v.
Proof.
  induction l as [| a l IH]; intros i j u v Hij Hu Hv; [discriminate |].
  cbn [List.filter] in Hu, Hv.
  destruct (f a) eqn:Ha.
  - destruct i as [| i].
    + cbn in Hu. injection Hu as <-. destruct j as [| j]; [lia |]. cbn in Hv.
      assert (Hfv : f v = true).
      { apply list_elem_of_lookup_2, list_elem_of_In, filter_In in Hv. tauto. }
      assert (Hin : In v l).
      { apply list_elem_of_lookup_2, list_elem_of_In, filter_In in Hv. tauto. }
      apply list_elem_of_In, list_elem_of_lookup_1 in Hin. destruct Hin as [j' Hj'].
      split; [exact Ha |]. split; [exact Hfv |].
      exists 0%nat, (S j'). split; [lia |]. split; [reflexivity | exact Hj'].
    + destruct j as [| j]; [lia |]. cbn in Hu, Hv.
      destruct (IH i j u v ltac:(lia) Hu Hv) as (Hfu & Hfv & i' & j' & Hlt & Hi' & Hj').
      split; [exact Hfu |]. split; [exact Hfv |].
      exists (S i'), (S j'). split; [lia |]. split; assumption.
  - destruct (IH i j u v Hij Hu Hv) as (Hfu & Hfv & i' & j' & Hlt & Hi' & Hj').
    split; [exact Hfu |]. split; [exact Hfv |].
    exists (S i'), (S j'). split; [lia |]. split; assumption.
Qed.

(** Of two URLs of [distinctURLs], the earlier one occurs in the list
    before any occurrence of the later one. *)
Lemma distinctURLs_order urls : forall i j u v,
  (i < j)%nat ->
  distinctURLs urls !! i = Some u -> distinctURLs urls !! j = Some v ->
  exists pre post, urls = pre ++ u :: post /\ ~ In u pre /\ ~ In v pre.
Proof.
  induction urls as [| a urls IH]; intros i j u v Hij Hu Hv; [discriminate |].
  cbn [distinctURLs] in Hu, Hv.
  destruct i as [| i].
  - cbn in Hu. injection Hu as <-. exists [], urls. auto.
  - destruct j as [| j]; [lia |]. cbn in Hu, Hv.
    destruct (filter_order _ _ i j u v ltac:(lia) Hu Hv)
      as (Hfu & Hfv & i' & j' & Hlt & Hi' & Hj').
    destruct (IH i' j' u v Hlt Hi' Hj') as (pre & post & E & Hnu & Hnv).
    exists (a :: pre), post. rewrite E. split; [reflexivity |].
    apply negb_true_iff, String.eqb_neq in Hfu, Hfv.
    split; intros [H | H]; auto.
Qed.

(** X26. The last two steps of [ExtractImagesFromHTML], [sortCandidates]
    and then [getTopImages], list the images by decreasing score, whatever
    scores the candidates carry: of two images of the result, the earlier one
    has a candidate whose score no candidate of the later one exceeds. *)
Theorem getTopImages_by_score candidates limit (i j : nat) a b :
  (i < j)%nat ->
  getTopImages (sortCandidates candidates) limit !! i = Some a ->
  getTopImages (sortCandidates candidates) limit !! j = Some b ->
  exists ca, In ca candidates /\ CandURL ca = ImageURL a /\
    forall cb, In cb candidates -> CandURL cb = ImageURL b ->
      (CandScore cb <= CandScore ca)%Q.
Proof.
  intros Hij Ha Hb.
  set (ranked := sortCandidates candidates) in *.
  assert (Hurl : forall k img, getTopImages ranked limit !! k = Some img ->
                   distinctURLs (map CandURL ranked) !! k = Some (ImageURL img)).
  { intros k img Hk.
    assert (Hm : map ImageURL (getTopImages ranked limit) !! k = Some (ImageURL img))
      by (rewrite list_lookup_fmap_Some; eauto).
    rewrite getTopImages_urls in Hm.
    apply lookup_take_Some in Hm. tauto. }
  destruct (distinctURLs_order _ i j _ _ Hij (Hurl i a Ha) (Hurl j b Hb))
    as (pre & post & E & Hna & Hnb).
  apply map_eq_app in E.
  destruct E as (cpre & crest & Eranked & Epre & Erest).
  apply map_eq_cons in Erest. destruct Erest as (ca & cpost & -> & Eca & _).
  pose proof (sortCandidates_StronglySorted candidates) as Hsorted.
  fold ranked in Hsorted. rewrite Eranked in Hsorted.
  assert (Hperm : forall c, In c candidates <-> In c ranked).
  { intros c. split; apply Permutation_in;
      [symmetry |]; apply EngineFacts.sortCandidates_perm. }
  exists ca. split; [apply Hperm; rewrite Eranked; apply in_or_app; right; left;
                     reflexivity |].
  split; [exact Eca |].
  intros cb Hcb Hurlb. apply Hperm in Hcb. rewrite Eranked in Hcb.
  apply in_app_or in Hcb. destruct Hcb as [Hcb | [<- | Hcb]].
  - exfalso. apply Hnb. rewrite <- Epre, <- Hurlb. apply in_map, Hcb.
  - apply Qle_refl.
  - (* the tail of an ordered list *)
    assert (Htail : StronglySorted (fun a b => outOfOrder a b = false) (ca :: cpost)).
    { clear -Hsorted. induction cpre as [| x cpre IH]; [exact Hsorted |].
      apply IH. inversion Hsorted; assumption. }
    inversion Htail as [| ? ? _ Hall]; subst.
    rewrite List.Forall_forall in Hall. specialize (Hall cb Hcb).
    unfold outOfOrder in Hall.
    destruct (CandScore ca ?= CandScore cb)%Q eqn:Hc; try discriminate.
    + apply Qeq_alt in Hc. rewrite Hc. apply Qle_refl.
    + apply Qgt_alt in Hc. apply Qlt_le_weak, Hc.
Qed.

(** [getTopImages_by_score] on three candidates, two of them of one
    picture: the picture scored 5 comes before the one scored 4 and 3. *)
Lemma getTopImages_by_score_witness :
  exists ca,
    In ca [mkCandidate "https://x/b.jpg" "" 0 0 true false "img" 3%Q 0;
           mkCandidate "https://x/a.jpg" "A" 0 0 true false "img" 5%Q 0;
           mkCandidate "https://x/b.jpg" "B" 0 0 true false "og" 4%Q 0] /\
    CandURL ca = "https://x/a.jpg" /\
    forall cb,
      In cb [mkCandidate "https://x/b.jpg" "" 0 0 true false "img" 3%Q 0;
             mkCandidate "https://x/a.jpg" "A" 0 0 true false "img" 5%Q 0;
             mkCandidate "https://x/b.jpg" "B" 0 0 true false "og" 4%Q 0] ->
      CandURL cb = "https://x/b.jpg" ->
      (CandScore cb <= CandScore ca)%Q.
Proof.
  apply (getTopImages_by_score
           [mkCandidate "https://x/b.jpg" "" 0 0 true false "img" 3%Q 0;
            mkCandidate "https://x/a.jpg" "A" 0 0 true false "img" 5%Q 0;
            mkCandidate "https://x/b.jpg" "B" 0 0 true false "og" 4%Q 0]
           10 0%nat 1%nat
           (mkImage "https://x/a.jpg" "A") (mkImage "https://x/b.jpg" "B")).
  - lia.
  - vm_compute. reflexivity.
  - vm_compute. reflexivity.
Defined.

End RankingFacts.
